(** * upsell-modal: a shallow embedding of [assets/upsell-modal.js]

    The three custom elements of the file (the trigger
    [UpsellModalComponent], the dialog [UpsellModalDialog] and the content
    controller [UpsellModalContentComponent]) are modelled as pure functions
    over explicit records of the DOM state they read and write.  The
    browser primitives the handlers rely on ([parseInt], [Number#toFixed],
    [String#replace] with the two regular expressions of [#formatMoney],
    strict equality, truthiness) are written out in module [JS].

    Numbers are integers ([Z], [N]): prices are integer minor units, and
    the sums the code performs on them are exact in double precision for
    amounts below 2^53.  The one place where the code leaves the integers,
    the division [cents / 100] in front of [toFixed], is modelled in double
    precision ([JS.divide]).  A string is the sequence of its UTF-16 code
    units, each of them below 256.  JSON parsing and HTML parsing are not
    modelled: a card carries its variant list already parsed, and the
    content host carries markup as text. *)

From Stdlib Require Import ZArith NArith Ascii String List Lia Bool.
From stdpp Require Import base option list strings.

Local Open Scope Z_scope.

(** ** JavaScript primitives used by the handlers *)
Module JS.

(** The values a variant's [option1..3] field or [selectedOptions[i]] can
    take: [undefined] (missing key, index out of range), [null], a string. *)
Inductive value :=
| Undefined
| Null
| Str (s : string).

(** [a === b] on those values. *)
Definition strictEq (a b : value) : bool :=
  match a, b with
  | Undefined, Undefined => true
  | Null, Null => true
  | Str x, Str y => String.eqb x y
  | _, _ => false
  end.

(** Truthiness of an optional string ([undefined]/[null] is [None]):
    only a non-empty string is truthy. *)
Definition truthy (o : option string) : bool :=
  match o with
  | Some s => negb (String.eqb s "")
  | None => false
  end.

(** [o || d] for an optional string. *)
Definition orElse (o : option string) (d : string) : string :=
  match o with
  | Some s => if String.eqb s "" then d else s
  | None => d
  end.

(** [\d] *)
Definition digitValue (c : ascii) : option N :=
  let n := N_of_ascii c in
  if ((48 <=? n) && (n <=? 57))%N then Some (n - 48)%N else None.

Definition isDigit (c : ascii) : bool :=
  match digitValue c with Some _ => true | None => false end.

(** [\w]: [A-Za-z0-9_] *)
Definition isWordChar (c : ascii) : bool :=
  let n := N_of_ascii c in
  (((48 <=? n) && (n <=? 57)) || ((65 <=? n) && (n <=? 90))
   || ((97 <=? n) && (n <=? 122)) || (n =? 95))%N.

(** [\s] and [StrWhiteSpaceChar] among the code units below 256: TAB, LF,
    VT, FF, CR, SPACE and NO-BREAK SPACE (U+00A0). *)
Definition isSpace (c : ascii) : bool :=
  let n := N_of_ascii c in
  (((9 <=? n) && (n <=? 13)) || (n =? 32) || (n =? 160))%N.

Definition digitChar (d : N) : ascii := ascii_of_N (48 + d).

(** Decimal digits of a natural number, most significant first, pushed in
    front of [acc]. *)
Fixpoint digitsOf (fuel : nat) (n : N) (acc : string) : string :=
  match fuel with
  | O => acc
  | S f =>
      let acc' := String (digitChar (n mod 10)) acc in
      if (n / 10 =? 0)%N then acc' else digitsOf f (n / 10)%N acc'
  end.

Definition N_toString (n : N) : string :=
  digitsOf (S (N.to_nat (N.log2 n))) n "".

(** Fuel that suffices for [digitsOf]: at least one step, and more steps
    than [n] has binary digits. *)
Definition enough (fuel : nat) (n : N) : Prop :=
  (0 < fuel)%nat /\ (n < 2 ^ N.of_nat fuel)%N.

(** [String(n)] for an integer [n] (below 10^21 in magnitude, where
    JavaScript still prints every digit). *)
Definition toString (n : Z) : string :=
  if n <? 0 then String "-" (N_toString (Z.abs_N n)) else N_toString (Z.abs_N n).

(** The longest run of digits in front of [s], read as a number
    ([None] when [s] does not start with a digit and nothing was read). *)
Fixpoint readDigits (s : string) (acc : option N) : option N :=
  match s with
  | String c r =>
      match digitValue c with
      | Some d => readDigits r (Some (10 * default 0%N acc + d)%N)
      | None => acc
      end
  | EmptyString => acc
  end.

Fixpoint skipSpaces (s : string) : string :=
  match s with
  | String c r => if isSpace c then skipSpaces r else s
  | EmptyString => s
  end.

(** [parseInt(s, 10)]; [None] is [NaN]. *)
Definition parseInt (s : string) : option Z :=
  match skipSpaces s with
  | String c r =>
      if Ascii.eqb c "-" then (fun n => - Z.of_N n) <$> readDigits r None
      else if Ascii.eqb c "+" then Z.of_N <$> readDigits r None
      else Z.of_N <$> readDigits (String c r) None
  | EmptyString => None
  end.

(** Every character of [s] is a digit. *)
Fixpoint allDigits (s : string) : bool :=
  match s with
  | String c r => isDigit c && allDigits r
  | EmptyString => true
  end.

(** [String#padStart(k, '0')] *)
Definition padStart0 (k : nat) (s : string) : string :=
  String.concat "" (replicate (k - String.length s) "0") +:+ s.

(** [String#padEnd(k, '0')] *)
Definition padEnd0 (k : nat) (s : string) : string :=
  s +:+ String.concat "" (replicate (k - String.length s) "0").

(** [n / d] rounded to the nearest integer, to the even one on a tie. *)
Definition roundHalfEven (n d : N) : N :=
  let q := (n / d)%N in
  let r := (n mod d)%N in
  if (2 * r <? d)%N then q
  else if (d <? 2 * r)%N then (q + 1)%N
  else if N.even q then q else (q + 1)%N.

(** [n / d] rounded to the nearest integer, to the larger one on a tie. *)
Definition roundHalfUp (n d : N) : N := ((2 * n + d) / (2 * d))%N.

(** A finite double that is not negative: [mantissa * 2 ^ exponent]. *)
Record double := {
  mantissa : N;
  exponent : Z
}.

(** The [k] with [2^k <= a / b < 2^(k+1)], for [a] and [b] positive. *)
Definition binade (a b : N) : Z :=
  let k := Z.of_N (N.log2 a) - Z.of_N (N.log2 b) in
  if (a * 2 ^ Z.to_N (- k) <? b * 2 ^ Z.to_N k)%N then k - 1 else k.

(** [a / b] on numbers that hold the integers [a] and [b]: the quotient
    rounded to 53 significant bits, ties to even.  (Zero comes out with
    mantissa 0; the quotients of this file are far from the subnormal
    range and from overflow.) *)
Definition divide (a b : N) : double :=
  let e := binade a b - 52 in
  {| mantissa := roundHalfEven (a * 2 ^ Z.to_N (- e)) (b * 2 ^ Z.to_N e);
     exponent := e |}.

(** Step 10.a of [Number.prototype.toFixed]: the integer [n] for which
    [n / 10^f - x] is as close to zero as possible, the larger one when
    there are two. *)
Definition fixedDigits (x : double) (f : nat) : N :=
  roundHalfUp (mantissa x * 10 ^ N.of_nat f * 2 ^ Z.to_N (exponent x))
    (2 ^ Z.to_N (- exponent x)).

(** The digits [(a / 100).toFixed(f)] prints, as a number, for an amount
    [a] that is not negative.  From 2^53 on an amount is outside the number
    model (the sum that produced it is no longer exact); the quotient
    itself is rounded there. *)
Definition quotientDigits (a : N) (f : nat) : N :=
  if (a <? 2 ^ 53)%N then fixedDigits (divide a 100) f
  else roundHalfUp (a * 10 ^ N.of_nat f) 100.

(** [(cents / 100).toFixed(precision)] for an integer [cents]: the sign of
    a negative number goes in front, then the digits of [fixedDigits] with
    the point [precision] places from the end. *)
Definition toFixed (cents : Z) (precision : nat) : string :=
  let sign := if cents <? 0 then "-" else "" in
  let n := quotientDigits (Z.abs_N cents) precision in
  let m := N_toString n in
  let m :=
    if (precision =? 0)%nat then m
    else
      let m := padStart0 (S precision) m in
      let k := String.length m in
      String.substring 0 (k - precision) m +:+ "." +:+
      String.substring (k - precision) precision m in
  sign +:+ m.

End JS.

(** ** The content controller, [UpsellModalContentComponent] *)

(** One record of the JSON array embedded in a card
    ([id, option1, option2, option3, price, available, sku,
    featured_image.src]). *)
Module Variant.
Record t := {
  id : Z;
  option1 : JS.value;
  option2 : JS.value;
  option3 : JS.value;
  price : Z;
  available : bool;
  sku : option string;
  featured_image : option string  (* [featured_image.src]; [None] for null *)
}.
End Variant.

Module Content.

Record checkbox := {
  disabled : bool;
  checked : bool
}.

(** A [.upsell-product-card] element and the descendants the handlers
    query.  An [option] field is an element (or data attribute) that may be
    missing; its payload is the property the code reads or writes. *)
Record card := {
  isMainProduct : bool;            (* class upsell-product-card--main *)
  unavailable : bool;              (* class upsell-product-card--unavailable *)
  dataset_selected : option string;
  dataset_variantId : option string;
  dataset_price : option string;
  dataset_productImage : option string;
  checkboxElement : option checkbox;      (* input[type=checkbox] *)
  badge : option string;           (* style.display of the sold-out badge *)
  priceElement : option string;    (* textContent *)
  skuElement : option string;      (* textContent *)
  imgElement : option string;      (* src *)
  variantScript : option (list Variant.t); (* parsed script[type=application/json] *)
  selectors : list string;         (* values of the variant <select>s, in order *)
  clickListener : bool;            (* #handleCardClick attached *)
  changeListener : bool            (* #handleCheckboxChange attached *)
}.

(** The component: its cards in document order, the text of
    [template[ref=moneyFormat]], the subtotal read-out and the confirm
    button (with whether it carries the class [atc-added]). *)
Record t := {
  cards : list card;
  moneyFormatTemplate : option string;
  subtotalElement : option string;
  confirmButton : option bool
}.

Definition set_cards (l : list card) (st : t) : t :=
  {| cards := l; moneyFormatTemplate := moneyFormatTemplate st;
     subtotalElement := subtotalElement st; confirmButton := confirmButton st |}.

Definition set_subtotalElement (e : option string) (st : t) : t :=
  {| cards := cards st; moneyFormatTemplate := moneyFormatTemplate st;
     subtotalElement := e; confirmButton := confirmButton st |}.

Definition set_confirmButton (b : option bool) (st : t) : t :=
  {| cards := cards st; moneyFormatTemplate := moneyFormatTemplate st;
     subtotalElement := subtotalElement st; confirmButton := b |}.

Section CardSetters.
Variable c : card.

Definition set_unavailable (b : bool) : card :=
  {| isMainProduct := isMainProduct c; unavailable := b;
     dataset_selected := dataset_selected c; dataset_variantId := dataset_variantId c;
     dataset_price := dataset_price c; dataset_productImage := dataset_productImage c;
     checkboxElement := checkboxElement c; badge := badge c; priceElement := priceElement c;
     skuElement := skuElement c; imgElement := imgElement c;
     variantScript := variantScript c; selectors := selectors c;
     clickListener := clickListener c; changeListener := changeListener c |}.

Definition set_dataset_selected (v : option string) : card :=
  {| isMainProduct := isMainProduct c; unavailable := unavailable c;
     dataset_selected := v; dataset_variantId := dataset_variantId c;
     dataset_price := dataset_price c; dataset_productImage := dataset_productImage c;
     checkboxElement := checkboxElement c; badge := badge c; priceElement := priceElement c;
     skuElement := skuElement c; imgElement := imgElement c;
     variantScript := variantScript c; selectors := selectors c;
     clickListener := clickListener c; changeListener := changeListener c |}.

Definition set_dataset_variantId (v : option string) : card :=
  {| isMainProduct := isMainProduct c; unavailable := unavailable c;
     dataset_selected := dataset_selected c; dataset_variantId := v;
     dataset_price := dataset_price c; dataset_productImage := dataset_productImage c;
     checkboxElement := checkboxElement c; badge := badge c; priceElement := priceElement c;
     skuElement := skuElement c; imgElement := imgElement c;
     variantScript := variantScript c; selectors := selectors c;
     clickListener := clickListener c; changeListener := changeListener c |}.

Definition set_dataset_price (v : option string) : card :=
  {| isMainProduct := isMainProduct c; unavailable := unavailable c;
     dataset_selected := dataset_selected c; dataset_variantId := dataset_variantId c;
     dataset_price := v; dataset_productImage := dataset_productImage c;
     checkboxElement := checkboxElement c; badge := badge c; priceElement := priceElement c;
     skuElement := skuElement c; imgElement := imgElement c;
     variantScript := variantScript c; selectors := selectors c;
     clickListener := clickListener c; changeListener := changeListener c |}.

Definition set_dataset_productImage (v : option string) : card :=
  {| isMainProduct := isMainProduct c; unavailable := unavailable c;
     dataset_selected := dataset_selected c; dataset_variantId := dataset_variantId c;
     dataset_price := dataset_price c; dataset_productImage := v;
     checkboxElement := checkboxElement c; badge := badge c; priceElement := priceElement c;
     skuElement := skuElement c; imgElement := imgElement c;
     variantScript := variantScript c; selectors := selectors c;
     clickListener := clickListener c; changeListener := changeListener c |}.

Definition set_checkboxElement (v : option checkbox) : card :=
  {| isMainProduct := isMainProduct c; unavailable := unavailable c;
     dataset_selected := dataset_selected c; dataset_variantId := dataset_variantId c;
     dataset_price := dataset_price c; dataset_productImage := dataset_productImage c;
     checkboxElement := v; badge := badge c; priceElement := priceElement c;
     skuElement := skuElement c; imgElement := imgElement c;
     variantScript := variantScript c; selectors := selectors c;
     clickListener := clickListener c; changeListener := changeListener c |}.

Definition set_badge (v : option string) : card :=
  {| isMainProduct := isMainProduct c; unavailable := unavailable c;
     dataset_selected := dataset_selected c; dataset_variantId := dataset_variantId c;
     dataset_price := dataset_price c; dataset_productImage := dataset_productImage c;
     checkboxElement := checkboxElement c; badge := v; priceElement := priceElement c;
     skuElement := skuElement c; imgElement := imgElement c;
     variantScript := variantScript c; selectors := selectors c;
     clickListener := clickListener c; changeListener := changeListener c |}.

Definition set_priceElement (v : option string) : card :=
  {| isMainProduct := isMainProduct c; unavailable := unavailable c;
     dataset_selected := dataset_selected c; dataset_variantId := dataset_variantId c;
     dataset_price := dataset_price c; dataset_productImage := dataset_productImage c;
     checkboxElement := checkboxElement c; badge := badge c; priceElement := v;
     skuElement := skuElement c; imgElement := imgElement c;
     variantScript := variantScript c; selectors := selectors c;
     clickListener := clickListener c; changeListener := changeListener c |}.

Definition set_skuElement (v : option string) : card :=
  {| isMainProduct := isMainProduct c; unavailable := unavailable c;
     dataset_selected := dataset_selected c; dataset_variantId := dataset_variantId c;
     dataset_price := dataset_price c; dataset_productImage := dataset_productImage c;
     checkboxElement := checkboxElement c; badge := badge c; priceElement := priceElement c;
     skuElement := v; imgElement := imgElement c;
     variantScript := variantScript c; selectors := selectors c;
     clickListener := clickListener c; changeListener := changeListener c |}.

Definition set_imgElement (v : option string) : card :=
  {| isMainProduct := isMainProduct c; unavailable := unavailable c;
     dataset_selected := dataset_selected c; dataset_variantId := dataset_variantId c;
     dataset_price := dataset_price c; dataset_productImage := dataset_productImage c;
     checkboxElement := checkboxElement c; badge := badge c; priceElement := priceElement c;
     skuElement := skuElement c; imgElement := v;
     variantScript := variantScript c; selectors := selectors c;
     clickListener := clickListener c; changeListener := changeListener c |}.

Definition set_selectors (v : list string) : card :=
  {| isMainProduct := isMainProduct c; unavailable := unavailable c;
     dataset_selected := dataset_selected c; dataset_variantId := dataset_variantId c;
     dataset_price := dataset_price c; dataset_productImage := dataset_productImage c;
     checkboxElement := checkboxElement c; badge := badge c; priceElement := priceElement c;
     skuElement := skuElement c; imgElement := imgElement c;
     variantScript := variantScript c; selectors := v;
     clickListener := clickListener c; changeListener := changeListener c |}.

Definition set_listeners (click change : bool) : card :=
  {| isMainProduct := isMainProduct c; unavailable := unavailable c;
     dataset_selected := dataset_selected c; dataset_variantId := dataset_variantId c;
     dataset_price := dataset_price c; dataset_productImage := dataset_productImage c;
     checkboxElement := checkboxElement c; badge := badge c; priceElement := priceElement c;
     skuElement := skuElement c; imgElement := imgElement c;
     variantScript := variantScript c; selectors := selectors c;
     clickListener := click; changeListener := change |}.
End CardSetters.

(** *** [#formatMoney] *)

(** Longest prefix of [\w] characters and what follows it. *)
Fixpoint takeWord (s : string) : string * string :=
  match s with
  | String c r =>
      if JS.isWordChar c then
        let '(w, rest) := takeWord r in (String c w, rest)
      else (EmptyString, s)
  | EmptyString => (EmptyString, EmptyString)
  end.

(** A match of [/{{\s*(\w+)\s*}}/] anchored at the start of [s]: the
    captured name and the text after the match.  The three classes
    involved are disjoint, so the greedy match is the only one. *)
Definition placeholderAt (s : string) : option (string * string) :=
  match s with
  | String "{" (String "{" r) =>
      let '(name, r) := takeWord (JS.skipSpaces r) in
      match name, JS.skipSpaces r with
      | String _ _, String "}" (String "}" rest) => Some (name, rest)
      | _, _ => None
      end
  | _ => None
  end.

(** [template.replace(/{{\s*(\w+)\s*}}/g, f)]: scan left to right; at a
    match emit [f name] and continue after it ([skip] counts the
    characters of the match still to be dropped), otherwise copy one
    character. *)
Fixpoint replaceFrom (f : string -> string) (skip : nat) (s : string) : string :=
  match s with
  | EmptyString => EmptyString
  | String c r =>
      match skip with
      | S k => replaceFrom f k r
      | O =>
          match placeholderAt s with
          | Some (name, rest) =>
              f name +:+ replaceFrom f (String.length r - String.length rest) r
          | None => String c (replaceFrom f 0 r)
          end
      end
  end.

Definition replacePlaceholders (f : string -> string) (template : string) : string :=
  replaceFrom f 0 template.

(** Number of digits in front of [s]. *)
Fixpoint digitRun (s : string) : nat :=
  match s with
  | String c r => if JS.isDigit c then S (digitRun r) else O
  | EmptyString => O
  end.

(** [a.replace(/\d(?=(\d\d\d)+(?!\d))/g, (digit) => digit + sep)]: a digit
    gets the separator when the digits that follow it, up to the first
    non-digit, are a positive multiple of three. *)
Fixpoint groupThousands (sep : string) (a : string) : string :=
  match a with
  | EmptyString => EmptyString
  | String c r =>
      let k := digitRun r in
      if JS.isDigit c && (0 <? k)%nat && (k mod 3 =? 0)%nat
      then String c (sep +:+ groupThousands sep r)
      else String c (groupThousands sep r)
  end.

(** [s.split('.')], first two pieces. *)
Fixpoint splitDot (s : string) : string * option string :=
  match s with
  | EmptyString => (EmptyString, None)
  | String "." r => (EmptyString, Some (fst (splitDot r)))
  | String c r => let '(a, b) := splitDot r in (String c a, b)
  end.

(** The callback given to [replace]: separators and precision by
    placeholder name, then rounding, grouping and joining. *)
Definition formatAmount (cents : Z) (placeholder : string) : string :=
  let '(thousandsSeparator, decimalSeparator, precision) :=
    if String.eqb placeholder "amount_no_decimals" then (",", ".", 0%nat)
    else if String.eqb placeholder "amount_with_comma_separator" then (".", ",", 2%nat)
    else if String.eqb placeholder "amount_no_decimals_with_comma_separator" then (".", ".", 0%nat)
    else if String.eqb placeholder "amount_no_decimals_with_space_separator" then (" ", ".", 0%nat)
    else if String.eqb placeholder "amount_with_space_separator" then (" ", ",", 2%nat)
    else if String.eqb placeholder "amount_with_period_and_space_separator" then (" ", ".", 2%nat)
    else if String.eqb placeholder "amount_with_apostrophe_separator" then ("'", ".", 2%nat)
    else (",", ".", 2%nat) in
  let roundedNumber := JS.toFixed cents precision in
  let '(a, b) := splitDot roundedNumber in
  let a := if String.eqb a "" then "0" else a in
  let b := default "" b in
  let a := groupThousands thousandsSeparator a in
  if (precision <=? 0)%nat then a
  else a +:+ decimalSeparator +:+ JS.padEnd0 precision b.

(** [#formatMoney(cents)], given the text of the money-format template
    element ([None] when the component has no such element). *)
Definition formatMoney (moneyFormat : option string) (cents : Z) : string :=
  match moneyFormat with
  | None => JS.toFixed cents 2
  | Some textContent =>
      let template := JS.orElse (Some textContent) "{{amount}}" in
      replacePlaceholders (formatAmount cents) template
  end.

(** *** Selection and subtotal *)

(** [.upsell-product-card[data-selected="true"]] *)
Definition isSelected (c : card) : bool :=
  match dataset_selected c with
  | Some s => String.eqb s "true"
  | None => false
  end.

(** [checkbox.checked ? 'true' : 'false'] *)
Definition flagOf (b : bool) : string := if b then "true" else "false".

(** The [total] accumulated by the [forEach] of [#updateSubtotal]: a price
    that does not parse ([NaN]) is skipped, a missing or empty one is
    ['0']. *)
Definition subtotalOf (l : list card) : Z :=
  fold_left
    (fun total card =>
       match JS.parseInt (JS.orElse (dataset_price card) "0") with
       | Some price => total + price
       | None => total
       end)
    (List.filter isSelected l) 0.

(** [#updateSubtotal] *)
Definition updateSubtotal (st : t) : t :=
  let total := subtotalOf (cards st) in
  match subtotalElement st with
  | Some _ => set_subtotalElement (Some (formatMoney (moneyFormatTemplate st) total)) st
  | None => st
  end.

(** Where a click landed inside a card: on the checkbox input, on a
    [<select>], or on anything else. *)
Inductive clickTarget := OnCheckbox | OnSelect | Elsewhere.

(** [#handleCardClick], for a click whose [currentTarget] is card [i]. *)
Definition handleCardClick (target : clickTarget) (i : nat) (st : t) : t :=
  match target with
  | OnCheckbox => st
  | OnSelect => st
  | Elsewhere =>
      match cards st !! i with
      | Some card =>
          match checkboxElement card with
          | Some checkbox =>
              if negb (disabled checkbox) then
                let checkbox := {| disabled := disabled checkbox;
                                   checked := negb (checked checkbox) |} in
                let card := set_checkboxElement card (Some checkbox) in
                let card := set_dataset_selected card (Some (flagOf (checked checkbox))) in
                updateSubtotal (set_cards (<[i := card]> (cards st)) st)
              else st
          | None => st
          end
      | None => st
      end
  end.

(** [#handleCheckboxChange], for a change event of the checkbox of card
    [i]; the browser has already flipped [checked]. *)
Definition handleCheckboxChange (i : nat) (st : t) : t :=
  match cards st !! i with
  | Some card =>
      match checkboxElement card with
      | Some checkbox =>
          let card := set_dataset_selected card (Some (flagOf (checked checkbox))) in
          updateSubtotal (set_cards (<[i := card]> (cards st)) st)
      | None => st
      end
  | None => st
  end.

(** *** Variant resolution *)

(** [selectedOptions[k]] *)
Definition selectedAt (selectedOptions : list string) (k : nat) : JS.value :=
  match selectedOptions !! k with
  | Some s => JS.Str s
  | None => JS.Undefined
  end.

(** The predicate given to [variants.find]. *)
Definition variantMatches (selectedOptions : list string) (v : Variant.t) : bool :=
  JS.strictEq (Variant.option1 v) (selectedAt selectedOptions 0)
  && (JS.strictEq (Variant.option2 v) (selectedAt selectedOptions 1)
      || JS.strictEq (Variant.option2 v) JS.Null)
  && (JS.strictEq (Variant.option3 v) (selectedAt selectedOptions 2)
      || JS.strictEq (Variant.option3 v) JS.Null).

(** The part of [#handleVariantChange] after a variant was matched and up
    to the main-product test: variant id, price, price text, SKU text,
    image. *)
Definition applyVariant (moneyFormat : option string) (v : Variant.t) (card : card) :=
  let card := set_dataset_variantId card (Some (JS.toString (Variant.id v))) in
  let card := set_dataset_price card (Some (JS.toString (Variant.price v))) in
  let card :=
    match priceElement card with
    | Some _ => set_priceElement card (Some (formatMoney moneyFormat (Variant.price v)))
    | None => card
    end in
  let card :=
    if JS.truthy (Variant.sku v) then
      match skuElement card with
      | Some _ => set_skuElement card (Some ("SKU: " +:+ default "" (Variant.sku v)))
      | None => card
      end
    else
      match skuElement card with
      | Some _ => set_skuElement card (Some "")
      | None => card
      end in
  match imgElement card, Variant.featured_image v with
  | Some _, Some src =>
      set_dataset_productImage (set_imgElement card (Some src)) (Some src)
  | _, _ => card
  end.

(** The [if (!isMainProduct)] block: availability drives the class, the
    checkbox, the selection flag and the badge. *)
Definition applyAvailability (v : Variant.t) (card : card) :=
  if negb (isMainProduct card) then
    if Variant.available v then
      let card := set_unavailable card false in
      let card :=
        match checkboxElement card with
        | Some _ =>
            set_dataset_selected
              (set_checkboxElement card (Some {| disabled := false; checked := true |}))
              (Some "true")
        | None => card
        end in
      match badge card with
      | Some _ => set_badge card (Some "none")
      | None => card
      end
    else
      let card := set_unavailable card true in
      let card :=
        match checkboxElement card with
        | Some _ =>
            set_dataset_selected
              (set_checkboxElement card (Some {| disabled := true; checked := false |}))
              (Some "false")
        | None => card
        end in
      match badge card with
      | Some _ => set_badge card (Some "")
      | None => card
      end
  else card.

(** [#handleVariantChange], for a change event of a selector of card [i];
    the selectors already hold the values the user chose. *)
Definition handleVariantChange (i : nat) (st : t) : t :=
  match cards st !! i with
  | None => st
  | Some card =>
      match variantScript card with
      | None => st
      | Some variants =>
          let selectedOptions := selectors card in
          match List.find (variantMatches selectedOptions) variants with
          | None => st
          | Some matchedVariant =>
              let card := applyVariant (moneyFormatTemplate st) matchedVariant card in
              let card := applyAvailability matchedVariant card in
              updateSubtotal (set_cards (<[i := card]> (cards st)) st)
          end
      end
  end.

(** *** Confirm: the payload *)

Record item := {
  id : string;
  quantity : Z
}.

(** The [items] array built by [#handleConfirm]. *)
Definition confirmItems (st : t) : list item :=
  fold_left
    (fun items card =>
       if JS.truthy (dataset_variantId card)
       then items ++ [{| id := default "" (dataset_variantId card); quantity := 1 |}]
       else items)
    (List.filter isSelected (cards st)) [].

(** The entry a selected card contributes to the payload, if any. *)
Definition itemOf (c : card) : option item :=
  if JS.truthy (dataset_variantId c)
  then Some {| id := default "" (dataset_variantId c); quantity := 1 |}
  else None.

(** *** [connectedCallback] *)

(** Both listeners of a card are attached only when its checkbox exists
    and is not disabled at that time; the subtotal is rendered once. *)
Definition connectedCallback (st : t) : t :=
  let attach card :=
    match checkboxElement card with
    | Some checkbox => set_listeners card (negb (disabled checkbox)) (negb (disabled checkbox))
    | None => set_listeners card false false
    end in
  updateSubtotal (set_cards (attach <$> cards st) st).

(** *** User events on a connected component *)

(** What the user can do inside the fragment: click somewhere in a card,
    toggle the checkbox of a card, pick a value in the [k]-th variant
    selector of a card. *)
Inductive userEvent :=
| ClickCard (i : nat) (target : clickTarget)
| ToggleCheckbox (i : nat)
| ChooseOption (i k : nat) (value : string).

(** The browser's own part of a checkbox click: an enabled checkbox flips. *)
Definition flipCheckbox (i : nat) (st : t) : t :=
  match cards st !! i with
  | Some card =>
      match checkboxElement card with
      | Some checkbox =>
          if disabled checkbox then st
          else
            let checkbox := {| disabled := false; checked := negb (checked checkbox) |} in
            set_cards (<[i := set_checkboxElement card (Some checkbox)]> (cards st)) st
      | None => st
      end
  | None => st
  end.

(** The browser's own part of a selector change. *)
Definition chooseOption (i k : nat) (value : string) (st : t) : t :=
  match cards st !! i with
  | Some card =>
      set_cards (<[i := set_selectors card (<[k := value]> (selectors card))]> (cards st)) st
  | None => st
  end.

Definition hasClickListener (i : nat) (st : t) : bool :=
  match cards st !! i with Some card => clickListener card | None => false end.

Definition hasChangeListener (i : nat) (st : t) : bool :=
  match cards st !! i with Some card => changeListener card | None => false end.

Definition isEnabled (i : nat) (st : t) : bool :=
  match cards st !! i with
  | Some card =>
      match checkboxElement card with
      | Some checkbox => negb (disabled checkbox)
      | None => false
      end
  | None => false
  end.

Definition hasSelector (i k : nat) (st : t) : bool :=
  match cards st !! i with
  | Some card => bool_decide (k < length (selectors card))%nat
  | None => false
  end.

(** The listeners that run for one user event.  A checkbox click bubbles
    to the card (where [#handleCardClick] sees the checkbox as target)
    before the change event fires; every variant selector carries the
    change listener. *)
Definition dispatch (ev : userEvent) (st : t) : t :=
  match ev with
  | ClickCard i target =>
      if hasClickListener i st then handleCardClick target i st else st
  | ToggleCheckbox i =>
      if isEnabled i st then
        let st := flipCheckbox i st in
        let st := if hasClickListener i st then handleCardClick OnCheckbox i st else st in
        if hasChangeListener i st then handleCheckboxChange i st else st
      else st
  | ChooseOption i k value =>
      if hasSelector i k st then handleVariantChange i (chooseOption i k value st) else st
  end.

(** The component after [connectedCallback] and a sequence of user events. *)
Definition run (events : list userEvent) (st : t) : t :=
  fold_left (fun st ev => dispatch ev st) events (connectedCallback st).

(** *** Quantities the properties are stated with *)

(** The integer a card's price attribute stands for: missing or empty is 0,
    and so is one that does not parse. *)
Definition priceOf (c : card) : Z :=
  default 0 (JS.parseInt (JS.orElse (dataset_price c) "0")).

Definition sumZ (l : list Z) : Z := foldr Z.add 0 l.

(** What one card adds to the subtotal. *)
Definition contribution (c : card) : Z :=
  if isSelected c then priceOf c else 0.

(** The selection flag of a card says what its checkbox shows. *)
Definition inSync (c : card) : Prop :=
  match checkboxElement c with
  | Some checkbox => dataset_selected c = Some (flagOf (checked checkbox))
  | None => True
  end.

(** The subtotal on screen is the one [#updateSubtotal] would write. *)
Definition subtotalUpToDate (st : t) : Prop :=
  updateSubtotal st = st.

(** The condition of the claim on a candidate variant, with equality of
    values in place of [===]. *)
Definition Matches (selectedOptions : list string) (v : Variant.t) : Prop :=
  Variant.option1 v = selectedAt selectedOptions 0
  /\ (Variant.option2 v = selectedAt selectedOptions 1 \/ Variant.option2 v = JS.Null)
  /\ (Variant.option3 v = selectedAt selectedOptions 2 \/ Variant.option3 v = JS.Null).

(** The card [#handleCardClick] writes back: the checkbox flipped and the
    flag set from it. *)
Definition toggled (c : card) (cb : checkbox) : card :=
  set_dataset_selected
    (set_checkboxElement c (Some {| disabled := disabled cb; checked := negb (checked cb) |}))
    (Some (flagOf (negb (checked cb)))).

(** *** Concrete components *)

(** A card with a checkbox and nothing else inside. *)
Definition plainCard (selected variantId price : option string) (cb : checkbox) : card :=
  {| isMainProduct := false; unavailable := false;
     dataset_selected := selected; dataset_variantId := variantId;
     dataset_price := price; dataset_productImage := None;
     checkboxElement := Some cb; badge := None; priceElement := None;
     skuElement := None; imgElement := None; variantScript := None; selectors := [];
     clickListener := false; changeListener := false |}.

(** Two selected cards priced 1000 and 1500, no money-format template. *)
Definition twoSelectedCards : t :=
  {| cards :=
       [plainCard (Some "true") (Some "41") (Some "1000")
          {| disabled := false; checked := true |};
        plainCard (Some "true") (Some "42") (Some "1500")
          {| disabled := false; checked := true |}];
     moneyFormatTemplate := None;
     subtotalElement := Some "";
     confirmButton := Some false |}.

(** One card flagged selected whose enabled checkbox is not checked. *)
Definition flagWithoutCheck : t :=
  {| cards :=
       [plainCard (Some "true") (Some "41") (Some "1000")
          {| disabled := false; checked := false |}];
     moneyFormatTemplate := None;
     subtotalElement := Some "10.00";
     confirmButton := Some false |}.

(** A selected card without a variant id next to a card that is not
    selected. *)
Definition flagWithoutVariant : t :=
  {| cards :=
       [plainCard (Some "true") None (Some "1000")
          {| disabled := false; checked := true |};
        plainCard (Some "false") (Some "42") (Some "1500")
          {| disabled := false; checked := false |}];
     moneyFormatTemplate := None;
     subtotalElement := Some "10.00";
     confirmButton := Some false |}.

(** A shirt with three variants: S/Red (available), M/Red (sold out) and M
    with no second option (available). *)
Definition shirtSmallRed : Variant.t :=
  {| Variant.id := 101; Variant.option1 := JS.Str "S"; Variant.option2 := JS.Str "Red";
     Variant.option3 := JS.Null; Variant.price := 1000; Variant.available := true;
     Variant.sku := Some "S-RED"; Variant.featured_image := Some "/s-red.png" |}.

Definition shirtMediumRed : Variant.t :=
  {| Variant.id := 102; Variant.option1 := JS.Str "M"; Variant.option2 := JS.Str "Red";
     Variant.option3 := JS.Null; Variant.price := 1200; Variant.available := false;
     Variant.sku := None; Variant.featured_image := None |}.

Definition shirtMedium : Variant.t :=
  {| Variant.id := 103; Variant.option1 := JS.Str "M"; Variant.option2 := JS.Null;
     Variant.option3 := JS.Null; Variant.price := 1300; Variant.available := true;
     Variant.sku := Some "M"; Variant.featured_image := None |}.

Definition shirtVariants : list Variant.t :=
  [shirtSmallRed; shirtMediumRed; shirtMedium].

(** The shirt as an add-on card showing S/Red, selected, with the given
    values in its two selectors, next to a selected card priced 1500. *)
Definition shirtComponent (chosen : list string) : t :=
  {| cards :=
       [{| isMainProduct := false; unavailable := false;
           dataset_selected := Some "true"; dataset_variantId := Some "101";
           dataset_price := Some "1000"; dataset_productImage := Some "/s-red.png";
           checkboxElement := Some {| disabled := false; checked := true |};
           badge := Some "none"; priceElement := Some "10.00";
           skuElement := Some "SKU: S-RED"; imgElement := Some "/s-red.png";
           variantScript := Some shirtVariants; selectors := chosen;
           clickListener := true; changeListener := true |};
        plainCard (Some "true") (Some "42") (Some "1500")
          {| disabled := false; checked := true |}];
     moneyFormatTemplate := None;
     subtotalElement := Some "25.00";
     confirmButton := Some false |}.

(** *** Vocabulary of the further properties *)

(** The card a user event happens in. *)
Definition eventCard (ev : userEvent) : nat :=
  match ev with
  | ClickCard i _ => i
  | ToggleCheckbox i => i
  | ChooseOption i _ _ => i
  end.

(** [st'] differs from [st] at most in card [i] and in the subtotal text. *)
Definition touchesOnly (i : nat) (st st' : t) : Prop :=
  moneyFormatTemplate st' = moneyFormatTemplate st
  /\ confirmButton st' = confirmButton st
  /\ length (cards st') = length (cards st)
  /\ forall j, j <> i -> cards st' !! j = cards st !! j.

(** The card has a checkbox that is not disabled: the condition under
    which [connectedCallback] attaches its two listeners. *)
Definition enabledCheckbox (c : card) : bool :=
  match checkboxElement c with
  | Some checkbox => negb (disabled checkbox)
  | None => false
  end.

Definition listenersOf (c : card) : bool * bool :=
  (clickListener c, changeListener c).

(** [s] without the occurrences of the character [ch]. *)
Fixpoint removeChar (ch : ascii) (s : string) : string :=
  match s with
  | EmptyString => EmptyString
  | String c r => if Ascii.eqb c ch then removeChar ch r else String c (removeChar ch r)
  end.

(** [ch] occurs in [s]. *)
Fixpoint hasChar (ch : ascii) (s : string) : bool :=
  match s with
  | EmptyString => false
  | String c r => Ascii.eqb c ch || hasChar ch r
  end.

(** The decimal digits of [n] in groups of three counted from the right,
    with [sep] between the groups, written from the words and not from the
    regular expression: a number below a thousand as it is, and otherwise
    the groups of [n / 1000], the separator and the three digits of
    [n mod 1000].  ([fuel] bounds the number of groups.) *)
Fixpoint groupsOfThree (fuel : nat) (sep : string) (n : N) : string :=
  match fuel with
  | O => JS.N_toString n
  | S fuel =>
      if (n <? 1000)%N then JS.N_toString n
      else groupsOfThree fuel sep (n / 1000)
           +:+ sep
           +:+ String (JS.digitChar ((n / 100) mod 10))
                 (String (JS.digitChar ((n / 10) mod 10))
                    (String (JS.digitChar (n mod 10)) ""))
  end.

Definition grouped (sep : string) (n : N) : string :=
  groupsOfThree (S (N.to_nat (N.log2 n))) sep n.

(** A shirt that is sold out when the component connects: the checkbox is
    disabled and unchecked, the selectors show M/Red. *)
Definition soldOutShirt : t :=
  {| cards :=
       [{| isMainProduct := false; unavailable := true;
           dataset_selected := Some "false"; dataset_variantId := Some "102";
           dataset_price := Some "1200"; dataset_productImage := Some "/s-red.png";
           checkboxElement := Some {| disabled := true; checked := false |};
           badge := Some ""; priceElement := Some "12.00";
           skuElement := Some ""; imgElement := Some "/s-red.png";
           variantScript := Some shirtVariants; selectors := ["M"; "Red"];
           clickListener := false; changeListener := false |}];
     moneyFormatTemplate := None;
     subtotalElement := Some "";
     confirmButton := Some false |}.

(** The shirt as the main product of the fragment, showing S/Red, with the
    given values in its selectors. *)
Definition mainShirtComponent (chosen : list string) : t :=
  {| cards :=
       [{| isMainProduct := true; unavailable := false;
           dataset_selected := Some "true"; dataset_variantId := Some "101";
           dataset_price := Some "1000"; dataset_productImage := Some "/s-red.png";
           checkboxElement := Some {| disabled := true; checked := true |};
           badge := None; priceElement := Some "10.00";
           skuElement := Some "SKU: S-RED"; imgElement := Some "/s-red.png";
           variantScript := Some shirtVariants; selectors := chosen;
           clickListener := false; changeListener := false |}];
     moneyFormatTemplate := None;
     subtotalElement := Some "10.00";
     confirmButton := Some false |}.

End Content.

(** ** The earlier version of the content controller *)
Module V2.

(** [#formatMoney] of the earlier version:
    [(cents / 100).toLocaleString('en-US', {style: 'currency', currency:
    'USD'})], that is a minus sign for a negative amount, the dollar sign,
    the whole units grouped by thousands with commas, a point and two
    digits.  ECMA-402 rounds the number to two fraction digits as [toFixed]
    does: the nearest, and away from zero on a tie. *)
Definition formatMoney (cents : Z) : string :=
  let n := JS.quotientDigits (Z.abs_N cents) 2 in
  (if cents <? 0 then "-" else "")
  +:+ "$"
  +:+ Content.groupThousands "," (JS.N_toString (n / 100))
  +:+ "."
  +:+ String (JS.digitChar ((n / 10) mod 10)) (String (JS.digitChar (n mod 10)) "").

End V2.

(** ** The page around the controller: trigger, dialog, timers

    One record holds what the trigger [UpsellModalComponent] and the dialog
    [UpsellModalDialog] read and write, together with the queues of the
    event loop ([setTimeout], [requestAnimationFrame]) and a trace of what
    left the page (requests, console lines, dispatched events).  An
    asynchronous call is a function of its outcome: the handler takes the
    outcome of its [fetch] as an argument and runs to completion. *)
Module Page.

(** What [getIOSVersion()] returns when it detects iOS. *)
Record version := {
  major : nat;
  minor : nat
}.

(** [body.style.width]: the empty string or [`${w}px`], [w] not negative. *)
Inductive width :=
| Auto
| Px (w : Z).

Record bodyElement := {
  rectWidth : Z;          (* getBoundingClientRect().width, in whole CSS pixels *)
  styleWidth : width
}.

(** The [#upsell-modal-dialog] element: open or closed, and which of the
    listeners on it are registered. *)
Record dialogElement := {
  open : bool;
  cartUpdateListener : bool;    (* handleCartUpdate, until the abort signal *)
  closeListener : bool;         (* #handleDialogClose *)
  stayVisibleListener : bool    (* the once-listener of the trigger *)
}.

(** The trigger element: its data attributes and [stay-visible]. *)
Record triggerElement := {
  productHandle : option string;
  errorMessage : option string;
  stayVisible : bool
}.

(** The callback [#handleConfirm] hands to [setTimeout]. *)
Inductive timerTask :=
| DispatchCartUpdate.

(** The two callbacks [#handleDialogClose] hands to
    [requestAnimationFrame]. *)
Inductive frameTask :=
| ShrinkBody
| RestoreBody.

Inductive request :=
| Get (url : string)
| Post (url : string) (items : list Content.item).

(** The events of the file: [ThemeEvents.cartUpdate] with its [bubbles]
    option and [detail.data.didError], and [DialogCloseEvent]. *)
Inductive event :=
| CartUpdate (bubbles didError : bool)
| DialogClose.

(** How a [fetch] ends: the promise rejects, or a response with a status
    arrives whose body text can be read ([Some]) or not. *)
Inductive fetchOutcome :=
| Rejected
| Response (status : N) (text : option string).

(** [response.ok] *)
Definition ok (status : N) : bool := (200 <=? status)%N && (status <=? 299)%N.

Record t := {
  trigger : triggerElement;
  dialogComponent : option dialogElement;    (* None: no UpsellModalDialog with that id *)
  contentDiv : option string;         (* innerHTML of #upsell-modal-content *)
  body : option bodyElement;                (* document.body *)
  iosVersion : option version;        (* result of getIOSVersion(), @theme/utilities *)
  timers : list (N * timerTask);      (* pending timeouts, milliseconds left *)
  frames : list frameTask;            (* pending animation-frame callbacks *)
  console : list string;              (* console.error lines *)
  network : list request;             (* requests sent *)
  dispatched : list event             (* events dispatched, oldest first *)
}.

Definition set_trigger (v : triggerElement) (p : t) : t :=
  {| trigger := v; dialogComponent := dialogComponent p; contentDiv := contentDiv p;
     body := body p; iosVersion := iosVersion p; timers := timers p;
     frames := frames p; console := console p; network := network p;
     dispatched := dispatched p |}.

Definition set_dialogComponent (v : option dialogElement) (p : t) : t :=
  {| trigger := trigger p; dialogComponent := v; contentDiv := contentDiv p;
     body := body p; iosVersion := iosVersion p; timers := timers p;
     frames := frames p; console := console p; network := network p;
     dispatched := dispatched p |}.

Definition set_contentDiv (v : option string) (p : t) : t :=
  {| trigger := trigger p; dialogComponent := dialogComponent p; contentDiv := v;
     body := body p; iosVersion := iosVersion p; timers := timers p;
     frames := frames p; console := console p; network := network p;
     dispatched := dispatched p |}.

Definition set_body (v : option bodyElement) (p : t) : t :=
  {| trigger := trigger p; dialogComponent := dialogComponent p;
     contentDiv := contentDiv p; body := v; iosVersion := iosVersion p;
     timers := timers p; frames := frames p; console := console p;
     network := network p; dispatched := dispatched p |}.

Definition set_timers (v : list (N * timerTask)) (p : t) : t :=
  {| trigger := trigger p; dialogComponent := dialogComponent p;
     contentDiv := contentDiv p; body := body p; iosVersion := iosVersion p;
     timers := v; frames := frames p; console := console p; network := network p;
     dispatched := dispatched p |}.

Definition set_frames (v : list frameTask) (p : t) : t :=
  {| trigger := trigger p; dialogComponent := dialogComponent p;
     contentDiv := contentDiv p; body := body p; iosVersion := iosVersion p;
     timers := timers p; frames := v; console := console p; network := network p;
     dispatched := dispatched p |}.

Definition set_console (v : list string) (p : t) : t :=
  {| trigger := trigger p; dialogComponent := dialogComponent p;
     contentDiv := contentDiv p; body := body p; iosVersion := iosVersion p;
     timers := timers p; frames := frames p; console := v; network := network p;
     dispatched := dispatched p |}.

Definition set_network (v : list request) (p : t) : t :=
  {| trigger := trigger p; dialogComponent := dialogComponent p;
     contentDiv := contentDiv p; body := body p; iosVersion := iosVersion p;
     timers := timers p; frames := frames p; console := console p; network := v;
     dispatched := dispatched p |}.

Definition set_dispatched (v : list event) (p : t) : t :=
  {| trigger := trigger p; dialogComponent := dialogComponent p;
     contentDiv := contentDiv p; body := body p; iosVersion := iosVersion p;
     timers := timers p; frames := frames p; console := console p;
     network := network p; dispatched := v |}.

Definition set_stayVisible (b : bool) (p : t) : t :=
  set_trigger {| productHandle := productHandle (trigger p);
                 errorMessage := errorMessage (trigger p);
                 stayVisible := b |} p.

Definition requestAnimationFrame (task : frameTask) (p : t) : t :=
  set_frames (frames p ++ [task]) p.

Definition setTimeout (task : timerTask) (delay : N) (p : t) : t :=
  set_timers (timers p ++ [(delay, task)]) p.

Definition consoleError (line : string) (p : t) : t :=
  set_console (console p ++ [line]) p.

Definition send (r : request) (p : t) : t :=
  set_network (network p ++ [r]) p.

(** *** The dialog, [UpsellModalDialog] *)

(** [#handleDialogClose] *)
Definition handleDialogClose (p : t) : t :=
  match iosVersion p with
  | None => p
  | Some iosVersion =>
      if (17 <=? major iosVersion)%nat
         || ((major iosVersion =? 16)%nat && (4 <=? minor iosVersion)%nat)
      then p
      else requestAnimationFrame ShrinkBody p
  end.

(** [body.style.width = `${w}px`]: a negative length is not a value of
    [width], and the style declaration drops such an assignment. *)
Definition setStyleWidth (w : Z) (b : bodyElement) : bodyElement :=
  {| rectWidth := rectWidth b;
     styleWidth := if 0 <=? w then Px w else styleWidth b |}.

(** The bodies of the two animation-frame callbacks. *)
Definition runFrameTask (task : frameTask) (p : t) : t :=
  match task, body p with
  | ShrinkBody, Some b =>
      let currentWidth := rectWidth b in
      requestAnimationFrame RestoreBody
        (set_body (Some (setStyleWidth (currentWidth - 1) b)) p)
  | RestoreBody, Some b =>
      set_body (Some {| rectWidth := rectWidth b; styleWidth := Auto |}) p
  | _, None => p
  end.

(** One animation frame: the callbacks queued before it run in order;
    what they queue waits for the next frame. *)
Definition animationFrame (p : t) : t :=
  fold_left (fun p task => runFrameTask task p) (frames p) (set_frames [] p).

(** What the listeners of this file do when [DialogCloseEvent] fires on
    the dialog: [#handleDialogClose] (registered in [connectedCallback]),
    then the once-listener of [#stayVisibleUntilDialogCloses]. *)
Definition dialogCloseEvent (p : t) : t :=
  let p := set_dispatched (dispatched p ++ [DialogClose]) p in
  match dialogComponent p with
  | None => p
  | Some d =>
      let p := if closeListener d then handleDialogClose p else p in
      if stayVisibleListener d then
        set_stayVisible false
          (set_dialogComponent
             (Some {| open := open d; cartUpdateListener := cartUpdateListener d;
                      closeListener := closeListener d; stayVisibleListener := false |}) p)
      else p
  end.

(** Modelled from the spec: [showDialog] and [closeDialog] belong to the
    base class [DialogComponent] of [@theme/dialog], which is not part of
    the file.  The spec gives the dialog the states closed and open, and a
    bubbling dialog-close signal on closing. *)
Definition showDialog (p : t) : t :=
  match dialogComponent p with
  | Some d =>
      set_dialogComponent
        (Some {| open := true; cartUpdateListener := cartUpdateListener d;
                 closeListener := closeListener d;
                 stayVisibleListener := stayVisibleListener d |}) p
  | None => p
  end.

(** Modelled from the spec: [closeDialog] of the same base class takes the
    dialog to closed and raises the dialog-close signal, which the listeners
    of this file hear. *)
Definition closeDialog (p : t) : t :=
  match dialogComponent p with
  | Some d =>
      dialogCloseEvent
        (set_dialogComponent
           (Some {| open := false; cartUpdateListener := cartUpdateListener d;
                    closeListener := closeListener d;
                    stayVisibleListener := stayVisibleListener d |}) p)
  | None => p
  end.

(** [handleCartUpdate] *)
Definition handleCartUpdate (didError : bool) (p : t) : t :=
  if didError then p else closeDialog p.

(** [this.dispatchEvent(e)] on the content component, which sits inside
    the dialog: a cart-update event that bubbles reaches the dialog's
    listener. *)
Definition dispatchEvent (e : event) (p : t) : t :=
  let p := set_dispatched (dispatched p ++ [e]) p in
  match e, dialogComponent p with
  | CartUpdate true didError, Some d =>
      if cartUpdateListener d then handleCartUpdate didError p else p
  | _, _ => p
  end.

(** The timeout callback of [#handleConfirm]: a bubbling cart-update event
    with [detail: { data: { didError: false } }]. *)
Definition runTimerTask (task : timerTask) (p : t) : t :=
  match task with
  | DispatchCartUpdate => dispatchEvent (CartUpdate true false) p
  end.

(** [dt] milliseconds pass: the timeouts that are due fire in the order
    they were set, the others have [dt] less to wait. *)
Definition elapse (dt : N) (p : t) : t :=
  let due := List.filter (fun '(d, _) => (d <=? dt)%N) (timers p) in
  let waiting := List.filter (fun '(d, _) => negb (d <=? dt)%N) (timers p) in
  fold_left (fun p '(_, task) => runTimerTask task p) due
    (set_timers ((fun '(d, task) => ((d - dt)%N, task)) <$> waiting) p).

(** The dialog element together with the signal of its [#abortController],
    which is created once per element and aborted by the first
    [disconnectedCallback]. *)
Record dialogInstance := {
  element : dialogElement;
  aborted : bool
}.

(** [connectedCallback] of the dialog: [addEventListener] with a signal
    that is already aborted adds nothing, and adding a listener that is
    already there changes nothing. *)
Definition dialogConnectedCallback (i : dialogInstance) : dialogInstance :=
  {| element :=
       {| open := open (element i);
          cartUpdateListener := cartUpdateListener (element i) || negb (aborted i);
          closeListener := true;
          stayVisibleListener := stayVisibleListener (element i) |};
     aborted := aborted i |}.

(** [disconnectedCallback] of the dialog: the signal is aborted, which
    removes the cart-update listener, and the close listener is removed. *)
Definition dialogDisconnectedCallback (i : dialogInstance) : dialogInstance :=
  {| element :=
       {| open := open (element i);
          cartUpdateListener := false;
          closeListener := false;
          stayVisibleListener := stayVisibleListener (element i) |};
     aborted := true |}.

(** The dialog being attached to and detached from the document. *)
Inductive lifecycleEvent :=
| Attach
| Detach.

Definition lifecycleStep (i : dialogInstance) (ev : lifecycleEvent) : dialogInstance :=
  match ev with
  | Attach => dialogConnectedCallback i
  | Detach => dialogDisconnectedCallback i
  end.

Definition lifecycle (events : list lifecycleEvent) (i : dialogInstance) : dialogInstance :=
  fold_left lifecycleStep events i.

(** A dialog element as constructed: no listener yet, signal not aborted. *)
Definition newDialog (isOpen : bool) : dialogInstance :=
  {| element := {| open := isOpen; cartUpdateListener := false; closeListener := false;
                   stayVisibleListener := false |};
     aborted := false |}.

(** [#handleClose] of the content controller (the close button). *)
Definition handleClose (p : t) : t :=
  match dialogComponent p with
  | Some _ => closeDialog p
  | None => p
  end.

(** *** The trigger, [UpsellModalComponent] *)

Definition doubleQuote : string := String (ascii_of_nat 34) EmptyString.

Definition defaultErrorMessage : string := "Unable to load products. Please try again.".

(** [`<p style="padding: 2rem; text-align: center;">${errorMessage}</p>`] *)
Definition errorMarkup (errorMessage : string) : string :=
  "<p style=" +:+ doubleQuote +:+ "padding: 2rem; text-align: center;" +:+ doubleQuote
  +:+ ">" +:+ errorMessage +:+ "</p>".

(** [#stayVisibleUntilDialogCloses] *)
Definition stayVisibleUntilDialogCloses (p : t) : t :=
  let p := set_stayVisible true p in
  match dialogComponent p with
  | Some d =>
      set_dialogComponent
        (Some {| open := open d; cartUpdateListener := cartUpdateListener d;
                 closeListener := closeListener d; stayVisibleListener := true |}) p
  | None => p
  end.

(** [#fetchAndOpenModal] *)
Definition fetchAndOpenModal (productHandle : string) (outcome : fetchOutcome) (p : t) : t :=
  match dialogComponent p with
  | None => p
  | Some _ =>
      match contentDiv p with
      | None => p
      | Some _ =>
          let url := "/products/" +:+ productHandle +:+ "?section_id=upsell-modal-products" in
          let p := send (Get url) p in
          let p :=
            match outcome with
            | Response _ (Some html) => set_contentDiv (Some html) p
            | _ =>
                let p := consoleError "Error fetching upsell products:" p in
                let errorMessage :=
                  JS.orElse (errorMessage (trigger p)) defaultErrorMessage in
                set_contentDiv (Some (errorMarkup errorMessage)) p
            end in
          let p := stayVisibleUntilDialogCloses p in
          showDialog p
      end
  end.

(** [handleClick] *)
Definition handleClick (outcome : fetchOutcome) (p : t) : t :=
  if JS.truthy (productHandle (trigger p)) then
    fetchAndOpenModal (default "" (productHandle (trigger p))) outcome p
  else consoleError "No product handle found" p.

(** *** [#handleConfirm] of the content controller *)

(** The request went through: a response arrived and [response.ok] holds. *)
Definition succeeded (outcome : fetchOutcome) : bool :=
  match outcome with
  | Response status _ => ok status
  | Rejected => false
  end.

Definition handleConfirm (outcome : fetchOutcome) (st : Content.t) (p : t)
  : Content.t * t :=
  let items := Content.confirmItems st in
  if (length items =? 0)%nat then (st, p)
  else
    let p := send (Post "/cart/add.js" items) p in
    match outcome with
    | Response status _ =>
        if ok status then
          let st :=
            match Content.confirmButton st with
            | Some _ => Content.set_confirmButton (Some true) st
            | None => st
            end in
          (st, setTimeout DispatchCartUpdate 2000 p)
        else (st, consoleError "Error adding to cart:" p)
    | Rejected => (st, consoleError "Error adding to cart:" p)
    end.

(** *** Versions of iOS *)

(** The versions [#handleDialogClose] lets through to the reflow: below
    16.4. *)
Definition reflowApplies (v : version) : Prop :=
  (major v < 16)%nat \/ (major v = 16%nat /\ (minor v < 4)%nat).

(** The condition as the specification words it. *)
Definition reflowClaimed (v : version) : Prop :=
  (major v < 17)%nat \/ (major v = 16%nat /\ (minor v < 4)%nat).

(** A fetch that did not deliver a body text. *)
Definition failed (outcome : fetchOutcome) : Prop :=
  match outcome with
  | Rejected => True
  | Response _ None => True
  | Response _ (Some _) => False
  end.

(** *** A concrete page *)

(** A page with the trigger, a connected dialog, the content host and a
    body 390 pixels wide; nothing pending, nothing logged. *)
Definition examplePage (ios : option version) (isOpen : bool) (message : option string) : t :=
  {| trigger := {| productHandle := Some "shirt"; errorMessage := message;
                   stayVisible := false |};
     dialogComponent :=
       Some {| open := isOpen; cartUpdateListener := true; closeListener := true;
               stayVisibleListener := false |};
     contentDiv := Some "";
     body := Some {| rectWidth := 390; styleWidth := Auto |};
     iosVersion := ios;
     timers := []; frames := []; console := []; network := []; dispatched := [] |}.

End Page.

(** * Properties *)

Import Content.

(** ** Sanity checks of the primitives on concrete inputs *)

Example toFixed_2500 : JS.toFixed 2500 2 = "25.00".
Proof. reflexivity. Qed.

Example toFixed_small : JS.toFixed 5 2 = "0.05".
Proof. reflexivity. Qed.

Example toFixed_negative_zero : JS.toFixed (-3) 0 = "-0".
Proof. reflexivity. Qed.

Example toFixed_half_up : JS.toFixed 2550 0 = "26" /\ JS.toFixed 2549 0 = "25".
Proof. split; reflexivity. Qed.

Example parseInt_prefix : JS.parseInt " -12px" = Some (-12) /\ JS.parseInt "abc" = None.
Proof. split; reflexivity. Qed.

(** A no-break space (character 160) is white space for [parseInt] and
    for [\s]. *)
Example no_break_space :
  JS.parseInt (String "160" " 1000") = Some 1000
  /\ formatMoney (Some ("{{" +:+ String "160" "amount }}")) 2500 = "25.00".
Proof. split; reflexivity. Qed.

Example grouped_digits :
  grouped "," 1234567 = "1,234,567" /\ grouped "," 1000 = "1,000"
  /\ grouped "," 999 = "999" /\ grouped "." 12345 = "12.345".
Proof. repeat split; reflexivity. Qed.

(** The quotient in double precision: 0.01 is 5764607523034235 * 2^-59. *)
Example divide_one_cent :
  JS.divide 1 100 = {| JS.mantissa := 5764607523034235; JS.exponent := -59 |}
  /\ JS.divide 2500 100 = {| JS.mantissa := 7036874417766400; JS.exponent := -48 |}.
Proof. split; reflexivity. Qed.

(** A body less than a pixel wide keeps its inline width in the first
    frame of the reflow. *)
Example reflow_of_narrow_body :
  Page.body
    (Page.runFrameTask Page.ShrinkBody
       (Page.set_body (Some {| Page.rectWidth := 0; Page.styleWidth := Page.Auto |})
          (Page.examplePage None false None)))
  = Some {| Page.rectWidth := 0; Page.styleWidth := Page.Auto |}.
Proof. reflexivity. Qed.

Example toString_negative : JS.toString (-1500) = "-1500" /\ JS.toString 0 = "0".
Proof. split; reflexivity. Qed.

Example formatMoney_template :
  formatMoney (Some "${{ amount_no_decimals }} USD") 2500 = "$25 USD"
  /\ formatMoney (Some "{{amount_with_comma_separator}}") 123456789 = "1.234.567,89"
  /\ formatMoney (Some "{{amount}} {{ x} {{amount_no_decimals}}") (-123456789)
     = "-1,234,567.89 {{ x} -1,234,568"
  /\ formatMoney (Some "{{amount_with_apostrophe_separator}}{{}}{{a b}}") 100000
     = "1'000.00{{}}{{a b}}".
Proof. repeat split; reflexivity. Qed.

(** ** Strict equality and the matching predicate *)

Lemma strictEq_true (a b : JS.value) : JS.strictEq a b = true <-> a = b.
Proof.
  destruct a, b; simpl; try (split; congruence).
  rewrite String.eqb_eq. split; congruence.
Qed.

Lemma variantMatches_spec (selected : list string) (v : Variant.t) :
  variantMatches selected v = true <-> Matches selected v.
Proof.
  unfold variantMatches, Matches.
  rewrite !andb_true_iff, !orb_true_iff, !strictEq_true. tauto.
Qed.

Lemma variantMatches_false (selected : list string) (v : Variant.t) :
  variantMatches selected v = false <-> ~ Matches selected v.
Proof.
  rewrite <- variantMatches_spec. destruct (variantMatches selected v); split; congruence.
Qed.

(** [Array#find] returns the first element that satisfies the predicate. *)
Lemma find_first {A} (f : A -> bool) (l before after : list A) (v : A) :
  l = before ++ v :: after ->
  f v = true ->
  (forall u, In u before -> f u = false) ->
  List.find f l = Some v.
Proof.
  intros -> Hv. induction before as [|u before IH]; intros Hbefore; simpl.
  - now rewrite Hv.
  - rewrite (Hbefore u) by now left. apply IH. intros w Hw. apply Hbefore. now right.
Qed.

Lemma find_nothing {A} (f : A -> bool) (l : list A) :
  (forall u, In u l -> f u = false) -> List.find f l = None.
Proof.
  induction l as [|u l IH]; intros Hall; simpl; [reflexivity|].
  rewrite (Hall u) by now left. apply IH. intros w Hw. apply Hall. now right.
Qed.

(** ** What a variant change leaves alone *)

Arguments formatMoney : simpl never.
Arguments JS.toString : simpl never.
Arguments JS.truthy : simpl never.
Arguments JS.parseInt : simpl never.

Ltac card_compute :=
  cbv beta iota zeta delta
    [applyVariant applyAvailability
     set_unavailable set_dataset_selected set_dataset_variantId set_dataset_price
     set_dataset_productImage set_checkboxElement set_badge set_priceElement
     set_skuElement set_imgElement set_selectors set_listeners
     isMainProduct unavailable dataset_selected dataset_variantId dataset_price
     dataset_productImage checkboxElement badge priceElement skuElement imgElement
     variantScript selectors clickListener changeListener negb] in *.

(** Case analysis on an opened card: once the card is a record of
    variables every setter computes, and the branches of a handler are
    decided by those variables and by the fields of the variant. *)
Ltac card_cases v c :=
  destruct c; card_compute;
  repeat match goal with
    | |- context [match ?x with _ => _ end] => is_var x; destruct x; card_compute
    | |- context [if JS.truthy (Variant.sku v) then _ else _] =>
        destruct (JS.truthy (Variant.sku v)); card_compute
    | |- context [match Variant.featured_image v with _ => _ end] =>
        destruct (Variant.featured_image v); card_compute
    | |- context [if Variant.available v then _ else _] =>
        destruct (Variant.available v); card_compute
    end;
  try reflexivity.

Ltac availability_cases v c := card_cases v c.
Ltac variant_cases v c := card_cases v c.

Lemma applyAvailability_variantId v c :
  dataset_variantId (applyAvailability v c) = dataset_variantId c.
Proof. availability_cases v c. Qed.

Lemma applyAvailability_price v c :
  dataset_price (applyAvailability v c) = dataset_price c.
Proof. availability_cases v c. Qed.

Lemma applyAvailability_priceElement v c :
  priceElement (applyAvailability v c) = priceElement c.
Proof. availability_cases v c. Qed.

Lemma applyVariant_variantId fmt v c :
  dataset_variantId (applyVariant fmt v c) = Some (JS.toString (Variant.id v)).
Proof. variant_cases v c. Qed.

Lemma applyVariant_price fmt v c :
  dataset_price (applyVariant fmt v c) = Some (JS.toString (Variant.price v)).
Proof. variant_cases v c. Qed.

Lemma applyVariant_priceElement fmt v c :
  priceElement (applyVariant fmt v c)
  = (fun _ => formatMoney fmt (Variant.price v)) <$> priceElement c.
Proof. variant_cases v c. Qed.

Lemma applyVariant_checkbox fmt v c :
  checkboxElement (applyVariant fmt v c) = checkboxElement c.
Proof. variant_cases v c. Qed.

Lemma applyVariant_isMainProduct fmt v c :
  isMainProduct (applyVariant fmt v c) = isMainProduct c.
Proof. variant_cases v c. Qed.

Lemma applyVariant_badge fmt v c :
  badge (applyVariant fmt v c) = badge c.
Proof. variant_cases v c. Qed.

Lemma applyVariant_selected fmt v c :
  dataset_selected (applyVariant fmt v c) = dataset_selected c.
Proof. variant_cases v c. Qed.

Lemma updateSubtotal_cards st : cards (updateSubtotal st) = cards st.
Proof. unfold updateSubtotal. now destruct (subtotalElement st). Qed.

Lemma updateSubtotal_moneyFormat st :
  moneyFormatTemplate (updateSubtotal st) = moneyFormatTemplate st.
Proof. unfold updateSubtotal. now destruct (subtotalElement st). Qed.

Lemma updateSubtotal_text st :
  subtotalElement (updateSubtotal st)
  = (fun _ => formatMoney (moneyFormatTemplate st) (subtotalOf (cards st)))
      <$> subtotalElement st.
Proof.
  unfold updateSubtotal. destruct (subtotalElement st) eqn:E; simpl; [|rewrite E]; reflexivity.
Qed.

(** What [#handleVariantChange] does once [find] has returned a variant. *)
Lemma handleVariantChange_matched st i c variants v :
  cards st !! i = Some c ->
  variantScript c = Some variants ->
  List.find (variantMatches (selectors c)) variants = Some v ->
  handleVariantChange i st
  = updateSubtotal
      (set_cards
         (<[i := applyAvailability v (applyVariant (moneyFormatTemplate st) v c)]> (cards st))
         st).
Proof. intros Hc Hs Hf. unfold handleVariantChange. now rewrite Hc, Hs, Hf. Qed.

(** C1: on a selector change the first variant of the embedded list whose
    [option1] equals the first selected value and whose [option2] and
    [option3] equal the second and third selected value or are null becomes
    the card's variant (its id and price are written to the card and the
    price text is re-rendered); when no variant of the list satisfies this,
    the whole component is left as it was. *)
Theorem variant_resolution_first_match (st : t) (i : nat) (c : card)
    (variants : list Variant.t) :
  cards st !! i = Some c ->
  variantScript c = Some variants ->
  (forall before v after,
      variants = before ++ v :: after ->
      Matches (selectors c) v ->
      (forall u, In u before -> ~ Matches (selectors c) u) ->
      exists c',
        cards (handleVariantChange i st) !! i = Some c'
        /\ c' = applyAvailability v (applyVariant (moneyFormatTemplate st) v c)
        /\ dataset_variantId c' = Some (JS.toString (Variant.id v))
        /\ dataset_price c' = Some (JS.toString (Variant.price v))
        /\ priceElement c'
           = (fun _ => formatMoney (moneyFormatTemplate st) (Variant.price v))
               <$> priceElement c)
  /\ ((forall u, In u variants -> ~ Matches (selectors c) u) ->
      handleVariantChange i st = st).
Proof.
  intros Hc Hs. split.
  - intros before v after Hsplit Hv Hbefore.
    assert (Hfind : List.find (variantMatches (selectors c)) variants = Some v).
    { apply (find_first _ _ before after); [assumption| |].
      - now apply variantMatches_spec.
      - intros u Hu. apply variantMatches_false. now apply Hbefore. }
    rewrite (handleVariantChange_matched _ _ _ _ _ Hc Hs Hfind).
    rewrite updateSubtotal_cards. simpl.
    eexists. split; [|split; [reflexivity|]].
    + apply list_lookup_insert_eq. now apply lookup_lt_Some in Hc.
    + rewrite applyAvailability_variantId, applyAvailability_price,
        applyAvailability_priceElement, applyVariant_variantId, applyVariant_price,
        applyVariant_priceElement. auto.
  - intros Hnone. unfold handleVariantChange. rewrite Hc, Hs.
    rewrite find_nothing; [reflexivity|].
    intros u Hu. apply variantMatches_false. now apply Hnone.
Qed.

(** ** The subtotal as a sum *)

Lemma sumZ_cons (x : Z) (l : list Z) : sumZ (x :: l) = x + sumZ l.
Proof. reflexivity. Qed.

Lemma sumZ_app (l1 l2 : list Z) : sumZ (l1 ++ l2) = sumZ l1 + sumZ l2.
Proof.
  induction l1 as [|x l1 IH]; [reflexivity|].
  rewrite <- app_comm_cons, !sumZ_cons, IH. lia.
Qed.

Lemma subtotalOf_sum (l : list card) :
  subtotalOf l = sumZ (priceOf <$> List.filter isSelected l).
Proof.
  unfold subtotalOf.
  enough (H : forall (sel : list card) (a : Z),
             fold_left
               (fun total c =>
                  match JS.parseInt (JS.orElse (dataset_price c) "0") with
                  | Some price => total + price
                  | None => total
                  end) sel a
             = a + sumZ (priceOf <$> sel)) by (rewrite H; apply Z.add_0_l).
  induction sel as [|c sel IH]; intros a; [simpl; lia|].
  cbn [fold_left]. rewrite IH, fmap_cons, sumZ_cons.
  assert (Hc : match JS.parseInt (JS.orElse (dataset_price c) "0") with
               | Some price => a + price
               | None => a
               end = a + priceOf c).
  { unfold priceOf. destruct (JS.parseInt _); simpl; lia. }
  rewrite Hc. lia.
Qed.

Lemma sum_selected_contribution (l : list card) :
  sumZ (priceOf <$> List.filter isSelected l) = sumZ (contribution <$> l).
Proof.
  induction l as [|c l IH]; [reflexivity|].
  cbn [List.filter]. rewrite (fmap_cons contribution), sumZ_cons, <- IH.
  unfold contribution. destruct (isSelected c); rewrite ?fmap_cons, ?sumZ_cons; lia.
Qed.

Lemma subtotalOf_contribution (l : list card) :
  subtotalOf l = sumZ (contribution <$> l).
Proof. now rewrite subtotalOf_sum, sum_selected_contribution. Qed.

Lemma sum_contribution_insert (l : list card) (i : nat) (c c' : card) :
  l !! i = Some c ->
  sumZ (contribution <$> <[i := c']> l)
  = sumZ (contribution <$> l) - contribution c + contribution c'.
Proof.
  intros Hi. rewrite <- (take_drop_middle _ _ _ Hi) at 2.
  rewrite insert_take_drop by (now apply lookup_lt_Some in Hi).
  rewrite !fmap_app, !fmap_cons, !sumZ_app, !sumZ_cons. lia.
Qed.

Lemma sum_contribution_delete (l : list card) (i : nat) (c : card) :
  l !! i = Some c ->
  sumZ (contribution <$> delete i l) = sumZ (contribution <$> l) - contribution c.
Proof.
  intros Hi. rewrite <- (take_drop_middle _ _ _ Hi) at 2.
  rewrite delete_take_drop.
  rewrite !fmap_app, !fmap_cons, !sumZ_app, !sumZ_cons. lia.
Qed.

(** Replacing a card by one with the same flag and price keeps the sum. *)
Lemma subtotalOf_insert_same (l : list card) (i : nat) (c c' : card) :
  l !! i = Some c ->
  dataset_selected c' = dataset_selected c ->
  dataset_price c' = dataset_price c ->
  subtotalOf (<[i := c']> l) = subtotalOf l.
Proof.
  intros Hi Hsel Hprice. rewrite !subtotalOf_contribution.
  rewrite (sum_contribution_insert _ _ _ _ Hi).
  unfold contribution, isSelected, priceOf. rewrite Hsel, Hprice. lia.
Qed.

(** ** The subtotal on screen *)

Lemma subtotalUpToDate_spec (st : t) :
  subtotalUpToDate st <->
  (forall text, subtotalElement st = Some text ->
                text = formatMoney (moneyFormatTemplate st) (subtotalOf (cards st))).
Proof.
  unfold subtotalUpToDate, updateSubtotal. destruct st as [l fmt [text|] button]; simpl.
  - split.
    + intros H text' [= <-]. now injection H.
    + intros H. now rewrite <- (H text eq_refl).
  - split; [discriminate | reflexivity].
Qed.

Lemma updateSubtotal_upToDate (st : t) : subtotalUpToDate (updateSubtotal st).
Proof.
  unfold subtotalUpToDate, updateSubtotal. destruct st as [l fmt [text|] button]; reflexivity.
Qed.

Lemma set_cards_upToDate (st : t) (l : list card) :
  subtotalUpToDate st ->
  subtotalOf l = subtotalOf (cards st) ->
  subtotalUpToDate (set_cards l st).
Proof.
  rewrite !subtotalUpToDate_spec. simpl. intros H Hsum text Htext.
  rewrite Hsum. now apply H.
Qed.

Lemma set_cards_same (st : t) : set_cards (cards st) st = st.
Proof. now destruct st. Qed.

Lemma updateSubtotal_twice (st : t) (l l' : list card) :
  updateSubtotal (set_cards l (updateSubtotal (set_cards l' st)))
  = updateSubtotal (set_cards l st).
Proof. destruct st as [l0 fmt [text|] button]; reflexivity. Qed.

(** Every handler either leaves the component alone or ends in
    [#updateSubtotal]. *)
Lemma handleCardClick_shape target i st :
  handleCardClick target i st = st
  \/ exists st', handleCardClick target i st = updateSubtotal st'.
Proof.
  unfold handleCardClick.
  destruct target; auto.
  destruct (cards st !! i) as [c|]; auto.
  destruct (checkboxElement c) as [cb|]; auto.
  destruct (disabled cb); simpl; eauto.
Qed.

Lemma handleCheckboxChange_shape i st :
  handleCheckboxChange i st = st
  \/ exists st', handleCheckboxChange i st = updateSubtotal st'.
Proof.
  unfold handleCheckboxChange.
  destruct (cards st !! i) as [c|]; auto.
  destruct (checkboxElement c) as [cb|]; eauto.
Qed.

Lemma handleVariantChange_shape i st :
  handleVariantChange i st = st
  \/ exists st', handleVariantChange i st = updateSubtotal st'.
Proof.
  unfold handleVariantChange.
  destruct (cards st !! i) as [c|]; auto.
  destruct (variantScript c) as [variants|]; auto.
  destruct (List.find _ variants); eauto.
Qed.

Lemma shape_upToDate (st st1 : t) :
  subtotalUpToDate st ->
  (st1 = st \/ exists st', st1 = updateSubtotal st') ->
  subtotalUpToDate st1.
Proof. intros H [->|[st' ->]]; [assumption | apply updateSubtotal_upToDate]. Qed.

Lemma flipCheckbox_upToDate i st :
  subtotalUpToDate st -> subtotalUpToDate (flipCheckbox i st).
Proof.
  intros H. unfold flipCheckbox.
  destruct (cards st !! i) as [c|] eqn:Hc; auto.
  destruct (checkboxElement c) as [cb|]; auto.
  destruct (disabled cb); auto.
  apply set_cards_upToDate; [assumption|].
  now apply (subtotalOf_insert_same _ _ c).
Qed.

Lemma chooseOption_upToDate i k value st :
  subtotalUpToDate st -> subtotalUpToDate (chooseOption i k value st).
Proof.
  intros H. unfold chooseOption.
  destruct (cards st !! i) as [c|] eqn:Hc; auto.
  apply set_cards_upToDate; [assumption|].
  now apply (subtotalOf_insert_same _ _ c).
Qed.

Lemma dispatch_upToDate ev st :
  subtotalUpToDate st -> subtotalUpToDate (dispatch ev st).
Proof.
  intros H. destruct ev as [i target|i|i k value]; simpl.
  - destruct (hasClickListener i st); [|assumption].
    eapply shape_upToDate; [eassumption | apply handleCardClick_shape].
  - destruct (isEnabled i st); [|assumption].
    apply (flipCheckbox_upToDate i) in H.
    set (st1 := flipCheckbox i st) in *.
    assert (H2 : subtotalUpToDate
                   (if hasClickListener i st1 then handleCardClick OnCheckbox i st1 else st1)).
    { destruct (hasClickListener i st1); [|assumption].
      eapply shape_upToDate; [eassumption | apply handleCardClick_shape]. }
    set (st2 := if hasClickListener i st1 then _ else _) in *.
    destruct (hasChangeListener i st2); [|assumption].
    eapply shape_upToDate; [eassumption | apply handleCheckboxChange_shape].
  - destruct (hasSelector i k st); [|assumption].
    eapply shape_upToDate;
      [apply chooseOption_upToDate; eassumption | apply handleVariantChange_shape].
Qed.

Lemma run_upToDate events st : subtotalUpToDate (run events st).
Proof.
  unfold run.
  assert (H : subtotalUpToDate (connectedCallback st)) by apply updateSubtotal_upToDate.
  revert H. generalize (connectedCallback st).
  induction events as [|ev events IH]; intros st0 H; simpl; [assumption|].
  apply IH. now apply dispatch_upToDate.
Qed.

(** ** Decimal strings: [String(n)] and [parseInt] *)

Lemma string_app_cons (x : ascii) (a b : string) :
  String x a +:+ b = String x (a +:+ b).
Proof. reflexivity. Qed.

Lemma string_app_assoc (a b c : string) : (a +:+ b) +:+ c = a +:+ (b +:+ c).
Proof.
  induction a as [|x a IH]; [reflexivity|]. now rewrite !string_app_cons, IH.
Qed.

Lemma string_app_nil_r (a : string) : a +:+ "" = a.
Proof.
  induction a as [|x a IH]; [reflexivity|]. now rewrite string_app_cons, IH.
Qed.

Lemma string_length_app (a b : string) :
  String.length (a +:+ b) = (String.length a + String.length b)%nat.
Proof.
  induction a as [|x a IH]; [reflexivity|]. rewrite string_app_cons. simpl. now rewrite IH.
Qed.

Lemma digitValue_digitChar (d : N) :
  (d < 10)%N -> JS.digitValue (JS.digitChar d) = Some d.
Proof.
  intros Hd.
  assert (H : In d [0; 1; 2; 3; 4; 5; 6; 7; 8; 9]%N).
  { simpl. lia. }
  simpl in H. decompose [or] H; subst; try reflexivity. contradiction.
Qed.

Lemma isDigit_digitChar (d : N) : (d < 10)%N -> JS.isDigit (JS.digitChar d) = true.
Proof. intros Hd. unfold JS.isDigit. now rewrite digitValue_digitChar. Qed.

Lemma isDigit_range (c : ascii) :
  JS.isDigit c = true -> (48 <= N_of_ascii c <= 57)%N.
Proof.
  unfold JS.isDigit, JS.digitValue.
  destruct (_ && _) eqn:E; [|discriminate].
  apply andb_true_iff in E as [?%N.leb_le ?%N.leb_le]. lia.
Qed.

Lemma isDigit_not_space (c : ascii) : JS.isDigit c = true -> JS.isSpace c = false.
Proof.
  intros H%isDigit_range. unfold JS.isSpace.
  rewrite !orb_false_iff. repeat split.
  - apply andb_false_iff. right. apply N.leb_gt. lia.
  - apply N.eqb_neq. lia.
  - apply N.eqb_neq. lia.
Qed.

Lemma isDigit_not_sign (c : ascii) :
  JS.isDigit c = true -> Ascii.eqb c "-" = false /\ Ascii.eqb c "+" = false.
Proof.
  intros H%isDigit_range.
  split; apply Ascii.eqb_neq; intros ->; simpl in H; lia.
Qed.

Lemma enough_log2 (n : N) : JS.enough (S (N.to_nat (N.log2 n))) n.
Proof.
  split; [lia|].
  rewrite Nat2N.inj_succ, N2Nat.id.
  destruct (N.eq_dec n 0%N) as [->|Hn]; [reflexivity|].
  apply N.log2_spec. lia.
Qed.

Lemma enough_div (fuel : nat) (n : N) :
  JS.enough (S fuel) n -> (n / 10 <> 0)%N -> JS.enough fuel (n / 10).
Proof.
  intros [_ Hn] Hdiv.
  assert (Hge : (10 <= n)%N).
  { destruct (N.lt_ge_cases n 10) as [Hlt|]; [|assumption].
    apply N.div_small in Hlt. contradiction. }
  rewrite Nat2N.inj_succ, N.pow_succ_r' in Hn.
  split.
  - destruct fuel; [simpl in Hn; lia | lia].
  - apply N.Div0.div_lt_upper_bound; lia.
Qed.

Lemma digitsOf_acc (fuel : nat) (n : N) (acc : string) :
  JS.digitsOf fuel n acc = JS.digitsOf fuel n "" +:+ acc.
Proof.
  revert n acc. induction fuel as [|fuel IH]; intros n acc; simpl; [reflexivity|].
  destruct (n / 10 =? 0)%N; [reflexivity|].
  rewrite IH, (IH _ (String _ "")), string_app_assoc. reflexivity.
Qed.

Lemma digitsOf_fuel (f1 f2 : nat) (n : N) (acc : string) :
  JS.enough f1 n -> JS.enough f2 n -> JS.digitsOf f1 n acc = JS.digitsOf f2 n acc.
Proof.
  revert f2 n acc. induction f1 as [|f1 IH]; intros f2 n acc H1 H2.
  - destruct H1; lia.
  - destruct f2 as [|f2]; [destruct H2; lia|]. simpl.
    destruct (n / 10 =? 0)%N eqn:E; [reflexivity|].
    apply N.eqb_neq in E. apply IH; now apply enough_div.
Qed.

Lemma N_toString_small (n : N) :
  (n < 10)%N -> JS.N_toString n = String (JS.digitChar n) "".
Proof.
  intros Hn. unfold JS.N_toString. simpl.
  rewrite (N.div_small n 10), (N.mod_small n 10) by assumption. reflexivity.
Qed.

Lemma N_toString_step (n : N) :
  (10 <= n)%N ->
  JS.N_toString n = JS.N_toString (n / 10) +:+ String (JS.digitChar (n mod 10)) "".
Proof.
  intros Hn. unfold JS.N_toString at 1. simpl.
  assert (Hdiv : (n / 10 <> 0)%N).
  { intros H. apply N.div_small_iff in H; lia. }
  rewrite (proj2 (N.eqb_neq _ _) Hdiv), digitsOf_acc.
  f_equal. apply digitsOf_fuel; [|apply enough_log2].
  apply enough_div; [apply enough_log2 | assumption].
Qed.

Lemma readDigits_app (s r : string) (acc : option N) :
  JS.allDigits s = true ->
  JS.readDigits (s +:+ r) acc = JS.readDigits r (JS.readDigits s acc).
Proof.
  revert acc. induction s as [|c s IH]; intros acc Hs; [reflexivity|].
  rewrite string_app_cons. simpl in *.
  apply andb_true_iff in Hs as [Hc Hs]. unfold JS.isDigit in Hc.
  destruct (JS.digitValue c); [|discriminate]. now apply IH.
Qed.

Lemma allDigits_app (s r : string) :
  JS.allDigits (s +:+ r) = JS.allDigits s && JS.allDigits r.
Proof.
  induction s as [|c s IH]; [reflexivity|].
  rewrite string_app_cons. simpl. now rewrite IH, andb_assoc.
Qed.

(** [String(n)] is a non-empty run of digits that reads back as [n]. *)
Lemma N_toString_digits (n : N) :
  JS.allDigits (JS.N_toString n) = true
  /\ JS.readDigits (JS.N_toString n) None = Some n
  /\ exists c r, JS.N_toString n = String c r /\ JS.isDigit c = true.
Proof.
  induction n as [n IH] using (well_founded_induction N.lt_wf_0).
  destruct (N.lt_ge_cases n 10) as [Hsmall|Hbig].
  - rewrite (N_toString_small n Hsmall). simpl.
    rewrite (isDigit_digitChar n Hsmall), (digitValue_digitChar n Hsmall).
    split; [reflexivity|]. split; [f_equal; simpl; lia|].
    eexists _, _. split; [reflexivity | now apply isDigit_digitChar].
  - assert (Hlt : (n / 10 < n)%N) by (apply N.div_lt; lia).
    assert (Hmod : (n mod 10 < 10)%N) by (apply N.mod_lt; lia).
    destruct (IH _ Hlt) as (Hall & Hread & c & r & Hshape & Hc).
    rewrite (N_toString_step n Hbig).
    split; [|split].
    + rewrite allDigits_app, Hall. simpl. now rewrite isDigit_digitChar.
    + rewrite (readDigits_app _ _ _ Hall), Hread. simpl.
      rewrite (digitValue_digitChar _ Hmod). f_equal. simpl.
      pose proof (N.div_mod n 10). lia.
    + rewrite Hshape. simpl. eauto.
Qed.

Lemma parseInt_digits (c : ascii) (r : string) :
  JS.isDigit c = true ->
  JS.parseInt (String c r) = Z.of_N <$> JS.readDigits (String c r) None.
Proof.
  intros Hc. unfold JS.parseInt. cbn [JS.skipSpaces].
  rewrite (isDigit_not_space c Hc).
  destruct (isDigit_not_sign c Hc) as [-> ->]. reflexivity.
Qed.

(** [parseInt(String(n), 10)] is [n]. *)
Lemma parseInt_toString (n : Z) : JS.parseInt (JS.toString n) = Some n.
Proof.
  destruct (N_toString_digits (Z.abs_N n)) as (Hall & Hread & c & r & Hshape & Hc).
  unfold JS.toString.
  destruct (n <? 0) eqn:Hn.
  - apply Z.ltb_lt in Hn. unfold JS.parseInt. simpl. rewrite Hread. simpl. f_equal. lia.
  - apply Z.ltb_ge in Hn. rewrite Hshape, (parseInt_digits c r Hc), <- Hshape, Hread.
    simpl. f_equal. lia.
Qed.

Lemma toString_nonempty (n : Z) : JS.toString n <> "".
Proof.
  destruct (N_toString_digits (Z.abs_N n)) as (_ & _ & c & r & Hshape & _).
  unfold JS.toString. destruct (n <? 0); [discriminate|]. now rewrite Hshape.
Qed.

(** A price attribute written from an integer stands for that integer. *)
Lemma priceOf_integer (c : card) (n : Z) :
  dataset_price c = Some (JS.toString n) -> priceOf c = n.
Proof.
  intros H. unfold priceOf, JS.orElse. rewrite H.
  destruct (String.eqb (JS.toString n) "") eqn:E.
  - apply String.eqb_eq in E. now apply toString_nonempty in E.
  - now rewrite parseInt_toString.
Qed.

(** ** Subtotal *)

(** C4: after [connectedCallback] and any sequence of card clicks, checkbox
    toggles and variant choices, the text of the subtotal element is the
    formatted sum of the price attributes of exactly the cards whose
    selection flag is ["true"]; a price attribute written from an integer
    counts as that integer. *)
Theorem subtotal_is_sum_of_selected_prices (st0 : t) (events : list userEvent)
    (text : string) :
  subtotalElement (run events st0) = Some text ->
  text = formatMoney (moneyFormatTemplate (run events st0))
           (sumZ (priceOf <$> List.filter isSelected (cards (run events st0))))
  /\ (forall c n, dataset_price c = Some (JS.toString n) -> priceOf c = n).
Proof.
  intros Htext. split; [|apply priceOf_integer].
  rewrite <- subtotalOf_sum.
  now apply (proj1 (subtotalUpToDate_spec _) (run_upToDate events st0)).
Qed.

(** The example of the claim: two selected cards priced 1000 and 1500. *)
Lemma subtotal_of_1000_and_1500 :
  subtotalElement (run [] twoSelectedCards) = Some "25.00"
  /\ "25.00" = formatMoney None (sumZ [1000; 1500]).
Proof.
  split; [reflexivity|].
  exact (proj1 (subtotal_is_sum_of_selected_prices twoSelectedCards [] "25.00" eq_refl)).
Defined.

(** ** Availability of the matched variant *)

Lemma applyAvailability_unavailable v c cb :
  isMainProduct c = false ->
  checkboxElement c = Some cb ->
  Variant.available v = false ->
  checkboxElement (applyAvailability v c) = Some {| disabled := true; checked := false |}
  /\ dataset_selected (applyAvailability v c) = Some "false"
  /\ unavailable (applyAvailability v c) = true
  /\ badge (applyAvailability v c) = (fun _ => "") <$> badge c.
Proof.
  intros Hmain Hcb Hav. destruct c; simpl in *; subst.
  unfold applyAvailability. rewrite Hav. card_compute.
  match goal with |- context [match ?b with Some _ => _ | None => _ end] => destruct b end;
    repeat split.
Qed.

Lemma applyAvailability_available v c cb :
  isMainProduct c = false ->
  checkboxElement c = Some cb ->
  Variant.available v = true ->
  checkboxElement (applyAvailability v c) = Some {| disabled := false; checked := true |}
  /\ dataset_selected (applyAvailability v c) = Some "true"
  /\ unavailable (applyAvailability v c) = false
  /\ badge (applyAvailability v c) = (fun _ => "none") <$> badge c.
Proof.
  intros Hmain Hcb Hav. destruct c; simpl in *; subst.
  unfold applyAvailability. rewrite Hav. card_compute.
  match goal with |- context [match ?b with Some _ => _ | None => _ end] => destruct b end;
    repeat split.
Qed.

(** C6: when the variant found for a card that is not the main product
    (and has a checkbox) is unavailable, the checkbox ends disabled and
    unchecked, the selection flag is ["false"], the card carries the
    unavailable class, the inline [display] of the sold-out badge is cleared,
    and the subtotal rendered at the end of the handler is the sum over the
    other selected cards; when the variant is available the checkbox ends
    enabled and checked and the flag is ["true"]. *)
Theorem variant_availability_drives_selection (st : t) (i : nat) (c : card)
    (cb : checkbox) (variants : list Variant.t) (v : Variant.t) :
  cards st !! i = Some c ->
  isMainProduct c = false ->
  checkboxElement c = Some cb ->
  variantScript c = Some variants ->
  List.find (variantMatches (selectors c)) variants = Some v ->
  exists c',
    cards (handleVariantChange i st) !! i = Some c'
    /\ (Variant.available v = false ->
        checkboxElement c' = Some {| disabled := true; checked := false |}
        /\ dataset_selected c' = Some "false"
        /\ isSelected c' = false
        /\ unavailable c' = true
        /\ badge c' = (fun _ => "") <$> badge c
        /\ subtotalElement (handleVariantChange i st)
           = (fun _ => formatMoney (moneyFormatTemplate st)
                         (sumZ (priceOf <$> List.filter isSelected (delete i (cards st)))))
               <$> subtotalElement st)
    /\ (Variant.available v = true ->
        checkboxElement c' = Some {| disabled := false; checked := true |}
        /\ dataset_selected c' = Some "true"
        /\ isSelected c' = true
        /\ unavailable c' = false
        /\ badge c' = (fun _ => "none") <$> badge c).
Proof.
  intros Hc Hmain Hcb Hscript Hfind.
  rewrite (handleVariantChange_matched _ _ _ _ _ Hc Hscript Hfind).
  set (c1 := applyVariant (moneyFormatTemplate st) v c).
  assert (Hmain1 : isMainProduct c1 = false)
    by (unfold c1; now rewrite applyVariant_isMainProduct).
  assert (Hcb1 : checkboxElement c1 = Some cb)
    by (unfold c1; now rewrite applyVariant_checkbox).
  assert (Hbadge1 : badge c1 = badge c) by apply applyVariant_badge.
  exists (applyAvailability v c1). split; [|split].
  - rewrite updateSubtotal_cards. simpl.
    apply list_lookup_insert_eq. now apply lookup_lt_Some in Hc.
  - intros Hav.
    destruct (applyAvailability_unavailable v c1 cb Hmain1 Hcb1 Hav)
      as (Hbox & Hflag & Hclass & Hbadge).
    assert (Hsel : isSelected (applyAvailability v c1) = false)
      by (unfold isSelected; now rewrite Hflag).
    rewrite Hbadge1 in Hbadge. repeat (split; [assumption|]).
    rewrite updateSubtotal_text. simpl.
    rewrite subtotalOf_contribution, (sum_contribution_insert _ _ _ _ Hc).
    rewrite sum_selected_contribution, (sum_contribution_delete _ _ _ Hc).
    unfold contribution at 3. rewrite Hsel. now rewrite Z.add_0_r.
  - intros Hav.
    destruct (applyAvailability_available v c1 cb Hmain1 Hcb1 Hav)
      as (Hbox & Hflag & Hclass & Hbadge).
    rewrite Hbadge1 in Hbadge. repeat (split; [assumption|]).
    split; [|split; assumption]. unfold isSelected. now rewrite Hflag.
Qed.

(** ** Toggling a card *)

(** The card after one toggle: the checkbox flipped and the flag set from
    it. *)
Lemma handleCardClick_enabled st i c cb :
  cards st !! i = Some c ->
  checkboxElement c = Some cb ->
  disabled cb = false ->
  handleCardClick Elsewhere i st
  = updateSubtotal (set_cards (<[i := toggled c cb]> (cards st)) st).
Proof.
  intros Hc Hcb Hdis. unfold handleCardClick. rewrite Hc, Hcb.
  destruct cb as [d ch]. simpl in Hdis. subst d. reflexivity.
Qed.

(** A change event of an enabled checkbox does what a click on the card
    does. *)
Lemma checkbox_change_is_card_click st i c cb :
  cards st !! i = Some c ->
  checkboxElement c = Some cb ->
  disabled cb = false ->
  handleCheckboxChange i (flipCheckbox i st) = handleCardClick Elsewhere i st.
Proof.
  intros Hc Hcb Hdis.
  rewrite (handleCardClick_enabled _ _ _ _ Hc Hcb Hdis).
  destruct cb as [d ch]. simpl in Hdis. subst d.
  unfold flipCheckbox. rewrite Hc, Hcb. cbn [disabled checked].
  unfold handleCheckboxChange. cbn [cards set_cards].
  rewrite list_lookup_insert_eq by (now apply lookup_lt_Some in Hc).
  cbn [checkboxElement set_checkboxElement cards set_cards].
  rewrite list_insert_insert_eq.
  destruct st as [l fmt sub button]. reflexivity.
Qed.

Lemma toggled_twice c cb :
  checkboxElement c = Some cb ->
  inSync c ->
  toggled (toggled c cb)
    {| disabled := disabled cb; checked := negb (checked cb) |} = c.
Proof.
  unfold inSync. intros Hcb. rewrite Hcb. intros Hsync.
  destruct c, cb; simpl in *; subst. unfold toggled. simpl.
  now rewrite negb_involutive.
Qed.

(** A toggle leaves the flag saying what the checkbox shows. *)
Lemma toggled_inSync c cb : inSync (toggled c cb).
Proof. destruct c, cb. reflexivity. Qed.

Lemma handleCardClick_inSync st i c cb :
  cards st !! i = Some c ->
  checkboxElement c = Some cb ->
  disabled cb = false ->
  exists c', cards (handleCardClick Elsewhere i st) !! i = Some c' /\ inSync c'.
Proof.
  intros Hc Hcb Hdis. exists (toggled c cb). split; [|apply toggled_inSync].
  rewrite (handleCardClick_enabled _ _ _ _ Hc Hcb Hdis), updateSubtotal_cards. simpl.
  apply list_lookup_insert_eq. now apply lookup_lt_Some in Hc.
Qed.

Lemma handleCardClick_twice st i c cb :
  subtotalUpToDate st ->
  cards st !! i = Some c ->
  checkboxElement c = Some cb ->
  disabled cb = false ->
  inSync c ->
  handleCardClick Elsewhere i (handleCardClick Elsewhere i st) = st.
Proof.
  intros Hfresh Hc Hcb Hdis Hsync.
  rewrite (handleCardClick_enabled _ _ _ _ Hc Hcb Hdis).
  set (cb1 := {| disabled := disabled cb; checked := negb (checked cb) |}).
  assert (Hlt : (i < length (cards st))%nat) by (now apply lookup_lt_Some in Hc).
  rewrite (handleCardClick_enabled _ i (toggled c cb) cb1).
  - rewrite updateSubtotal_cards. simpl.
    rewrite updateSubtotal_twice, list_insert_insert_eq.
    unfold cb1. rewrite (toggled_twice c cb Hcb Hsync).
    rewrite (list_insert_id _ _ _ Hc), set_cards_same. exact Hfresh.
  - rewrite updateSubtotal_cards. simpl. now apply list_lookup_insert_eq.
  - reflexivity.
  - exact Hdis.
Qed.

(** C9 (amended): for a card whose checkbox is enabled and whose selection
    flag says what the checkbox shows, on a component whose subtotal is up to
    date, two toggles in a row (by clicking the card, or through the
    checkbox and its change event) give back the component as it was:
    checked state, selection flag and subtotal. *)
Theorem toggle_twice_restores (st : t) (i : nat) (c : card) (cb : checkbox) :
  subtotalUpToDate st ->
  cards st !! i = Some c ->
  checkboxElement c = Some cb ->
  disabled cb = false ->
  inSync c ->
  handleCardClick Elsewhere i (handleCardClick Elsewhere i st) = st
  /\ handleCheckboxChange i
       (flipCheckbox i (handleCheckboxChange i (flipCheckbox i st))) = st.
Proof.
  intros Hfresh Hc Hcb Hdis Hsync.
  pose proof (handleCardClick_twice st i c cb Hfresh Hc Hcb Hdis Hsync) as Htwice.
  split; [exact Htwice|].
  rewrite (checkbox_change_is_card_click st i c cb Hc Hcb Hdis).
  set (cb1 := {| disabled := disabled cb; checked := negb (checked cb) |}).
  rewrite (checkbox_change_is_card_click _ i (toggled c cb) cb1); [exact Htwice| |reflexivity|exact Hdis].
  rewrite (handleCardClick_enabled _ _ _ _ Hc Hcb Hdis), updateSubtotal_cards. simpl.
  apply list_lookup_insert_eq. now apply lookup_lt_Some in Hc.
Qed.

Lemma toggle_twice_on_two_cards :
  handleCardClick Elsewhere 0 (handleCardClick Elsewhere 0 (run [] twoSelectedCards))
  = run [] twoSelectedCards
  /\ handleCheckboxChange 0
       (flipCheckbox 0 (handleCheckboxChange 0 (flipCheckbox 0 (run [] twoSelectedCards))))
     = run [] twoSelectedCards.
Proof.
  refine (toggle_twice_restores (run [] twoSelectedCards) 0 _ _ _ _ _ _ _);
    try reflexivity.
Defined.

(** C9, as stated, fails on a card whose flag and checkbox disagree: flag
    ["true"], checkbox enabled and unchecked, price 1000, subtotal up to
    date.  Two clicks leave the checkbox unchecked but the flag ["false"] and
    the subtotal at zero. *)
Lemma toggle_twice_changes_flag_and_subtotal :
  let st := flagWithoutCheck in
  let st2 := handleCardClick Elsewhere 0 (handleCardClick Elsewhere 0 st) in
  subtotalUpToDate st
  /\ (checkboxElement <$> cards st !! 0%nat)
     = Some (Some {| disabled := false; checked := false |})
  /\ (checkboxElement <$> cards st2 !! 0%nat)
     = Some (Some {| disabled := false; checked := false |})
  /\ (dataset_selected <$> cards st !! 0%nat) = Some (Some "true")
  /\ (dataset_selected <$> cards st2 !! 0%nat) = Some (Some "false")
  /\ subtotalElement st = Some "10.00"
  /\ subtotalElement st2 = Some "0.00"
  /\ st2 <> st.
Proof.
  repeat split; try reflexivity. discriminate.
Qed.

(** ** The payload of a confirm *)

Lemma confirmItems_omap (st : t) :
  confirmItems st = omap itemOf (List.filter isSelected (cards st)).
Proof.
  unfold confirmItems.
  enough (H : forall (l : list card) (acc : list item),
             fold_left
               (fun items c =>
                  if JS.truthy (dataset_variantId c)
                  then items ++ [{| id := default "" (dataset_variantId c); quantity := 1 |}]
                  else items) l acc
             = acc ++ omap itemOf l) by apply H.
  induction l as [|c l IH]; intros acc; [now rewrite app_nil_r|].
  cbn [fold_left omap list_omap]. rewrite IH. unfold itemOf at 2.
  destruct (JS.truthy (dataset_variantId c)); [|reflexivity].
  now rewrite <- app_assoc.
Qed.

Lemma itemOf_Some (c : card) (it : item) :
  itemOf c = Some it ->
  id it <> "" /\ quantity it = 1 /\ dataset_variantId c = Some (id it).
Proof.
  unfold itemOf, JS.truthy. destruct (dataset_variantId c) as [s|]; [|discriminate].
  destruct (String.eqb s "") eqn:E; [discriminate|].
  intros [= <-]. simpl. apply String.eqb_neq in E. auto.
Qed.

Lemma handleConfirm_nothing (st : t) :
  confirmItems st = [] ->
  forall outcome p, Page.handleConfirm outcome st p = (st, p).
Proof. intros H outcome p. unfold Page.handleConfirm. now rewrite H. Qed.

(** C3: every entry of the payload carries the non-empty variant id of a
    selected card, with quantity 1; the payload is what the selected cards
    yield in order, those without a variant id yielding nothing; and when
    the payload is empty, as it is when no card is selected, the handler
    changes nothing: no request is sent. *)
Theorem confirm_payload_has_variant_ids (st : t) :
  (forall it, In it (confirmItems st) ->
     id it <> "" /\ quantity it = 1
     /\ exists c, In c (cards st) /\ isSelected c = true
                  /\ dataset_variantId c = Some (id it))
  /\ confirmItems st = omap itemOf (List.filter isSelected (cards st))
  /\ (confirmItems st = [] ->
      forall outcome p,
        Page.handleConfirm outcome st p = (st, p)
        /\ Page.network (snd (Page.handleConfirm outcome st p)) = Page.network p)
  /\ (List.filter isSelected (cards st) = [] -> confirmItems st = []).
Proof.
  split; [|split; [apply confirmItems_omap|split]].
  - intros it Hit. rewrite confirmItems_omap in Hit.
    apply list_elem_of_In, list_elem_of_omap in Hit as (c & Hc & Hitem).
    apply list_elem_of_In, filter_In in Hc as [Hc Hsel].
    destruct (itemOf_Some c it Hitem) as (Hid & Hq & Hv). eauto 8.
  - intros Hnil outcome p. now rewrite (handleConfirm_nothing st Hnil).
  - intros Hnone. now rewrite confirmItems_omap, Hnone.
Qed.

(** A selected card without a variant id and an unselected card with one:
    the payload is empty and confirm sends nothing. *)
Lemma confirm_with_nothing_to_send :
  confirmItems flagWithoutVariant = []
  /\ Page.handleConfirm (Page.Response 200 None) flagWithoutVariant
       (Page.examplePage None true None)
     = (flagWithoutVariant, Page.examplePage None true None)
  /\ Page.network
       (snd (Page.handleConfirm (Page.Response 200 None) flagWithoutVariant
               (Page.examplePage None true None)))
     = [].
Proof.
  split; [reflexivity|].
  exact (proj1 (proj2 (proj2 (confirm_payload_has_variant_ids flagWithoutVariant)))
           eq_refl (Page.Response 200 None) (Page.examplePage None true None)).
Defined.

(** ** Confirm, the timer and the dialog *)

Lemma confirmItems_two (st : t) (c1 c2 : card) (id1 id2 : string) :
  List.filter isSelected (cards st) = [c1; c2] ->
  dataset_variantId c1 = Some id1 -> id1 <> "" ->
  dataset_variantId c2 = Some id2 -> id2 <> "" ->
  confirmItems st = [{| id := id1; quantity := 1 |}; {| id := id2; quantity := 1 |}].
Proof.
  intros Hsel H1 Hn1 H2 Hn2. rewrite confirmItems_omap, Hsel.
  apply String.eqb_neq in Hn1, Hn2.
  unfold omap, list_omap, itemOf, JS.truthy. rewrite H1, H2, Hn1, Hn2. reflexivity.
Qed.

(** The page once the timeout of a successful confirm has fired: the event
    is dispatched, the dialog hears it and closes. *)
Lemma dispatchCartUpdate_closes (p : Page.t) (d : Page.dialogElement) :
  Page.dialogComponent p = Some d ->
  Page.cartUpdateListener d = true ->
  Page.dispatched (Page.dispatchEvent (Page.CartUpdate true false) p)
  = Page.dispatched p ++ [Page.CartUpdate true false; Page.DialogClose]
  /\ Page.open <$> Page.dialogComponent (Page.dispatchEvent (Page.CartUpdate true false) p)
     = Some false.
Proof.
  intros Hd Hl. destruct p as [tr dc cd bd ios tm fr co nw dp], d as [o l1 l2 l3].
  simpl in *. subst.
  unfold Page.dispatchEvent, Page.handleCartUpdate, Page.closeDialog,
    Page.dialogCloseEvent, Page.handleDialogClose. simpl.
  destruct l2, l3, ios as [[ma mi]|]; simpl;
    try destruct (_ || _); simpl; rewrite <- app_assoc; split; reflexivity.
Qed.

Arguments Page.dispatchEvent : simpl never.

(** C2: with exactly two selected cards, both with a variant id, confirm
    sends one POST to the cart endpoint whose items are those two ids in
    card order, each with quantity 1.  Whatever time [dt] then passes, the
    bubbling cart-update event with [didError: false] has been dispatched
    (and the listening dialog has closed) exactly when the response had a
    success status and [dt] is at least 2000 ms; without a success status
    one line is logged, no timeout is set and nothing happens later. *)
Theorem confirm_two_cards (st : t) (p : Page.t) (c1 c2 : card) (id1 id2 : string)
    (d : Page.dialogElement) (outcome : Page.fetchOutcome) :
  List.filter isSelected (cards st) = [c1; c2] ->
  dataset_variantId c1 = Some id1 -> id1 <> "" ->
  dataset_variantId c2 = Some id2 -> id2 <> "" ->
  Page.dialogComponent p = Some d ->
  Page.cartUpdateListener d = true ->
  Page.open d = true ->
  Page.timers p = [] ->
  let p' := snd (Page.handleConfirm outcome st p) in
  Page.network p'
  = Page.network p
      ++ [Page.Post "/cart/add.js"
            [{| id := id1; quantity := 1 |}; {| id := id2; quantity := 1 |}]]
  /\ (forall dt : N,
        Page.dispatched (Page.elapse dt p')
        = Page.dispatched p
            ++ (if Page.succeeded outcome && (2000 <=? dt)%N
                then [Page.CartUpdate true false; Page.DialogClose] else [])
        /\ Page.open <$> Page.dialogComponent (Page.elapse dt p')
           = Some (negb (Page.succeeded outcome && (2000 <=? dt)%N)))
  /\ Page.console p'
     = Page.console p ++ (if Page.succeeded outcome then [] else ["Error adding to cart:"])
  /\ Page.timers p'
     = if Page.succeeded outcome then [(2000%N, Page.DispatchCartUpdate)] else [].
Proof.
  intros Hsel H1 Hn1 H2 Hn2 Hd Hl Ho Ht p'.
  pose proof (confirmItems_two st c1 c2 id1 id2 Hsel H1 Hn1 H2 Hn2) as Hitems.
  assert (Hp' : p' = if Page.succeeded outcome
                     then Page.setTimeout Page.DispatchCartUpdate 2000
                            (Page.send (Page.Post "/cart/add.js" (confirmItems st)) p)
                     else Page.consoleError "Error adding to cart:"
                            (Page.send (Page.Post "/cart/add.js" (confirmItems st)) p)).
  { unfold p', Page.handleConfirm. rewrite Hitems. simpl.
    destruct outcome as [|status text]; simpl; [reflexivity|].
    destruct (Page.ok status); reflexivity. }
  rewrite Hitems in Hp'. clearbody p'. subst p'.
  destruct (Page.succeeded outcome); simpl.
  - split; [reflexivity|]. split; [|split; [now rewrite app_nil_r | now rewrite Ht]].
    intros dt. unfold Page.elapse. simpl. rewrite Ht. simpl.
    destruct (2000 <=? dt)%N; simpl.
    + match goal with |- context [Page.dispatchEvent _ ?q] => set (P := q) end.
      destruct (dispatchCartUpdate_closes P d Hd Hl) as [E1 E2].
      rewrite E1, E2. split; reflexivity.
    + rewrite app_nil_r, Hd. simpl. now rewrite Ho.
  - split; [reflexivity|]. split; [|split; [reflexivity | assumption]].
    intros dt. unfold Page.elapse. simpl. rewrite Ht. simpl.
    rewrite app_nil_r, Hd. simpl. now rewrite Ho.
Qed.

(** The two selected cards of the example, answered with 200: the event and
    the close come with the 2000th millisecond and not before. *)
Lemma confirm_two_cards_example :
  let p := Page.examplePage None true None in
  let p' := snd (Page.handleConfirm (Page.Response 200 None) twoSelectedCards p) in
  Page.network p'
  = [Page.Post "/cart/add.js"
       [{| id := "41"; quantity := 1 |}; {| id := "42"; quantity := 1 |}]]
  /\ Page.dispatched (Page.elapse 1999 p') = []
  /\ Page.open <$> Page.dialogComponent (Page.elapse 1999 p') = Some true
  /\ Page.dispatched (Page.elapse 2000 p') = [Page.CartUpdate true false; Page.DialogClose]
  /\ Page.open <$> Page.dialogComponent (Page.elapse 2000 p') = Some false
  /\ Page.console p' = [].
Proof.
  destruct (confirm_two_cards twoSelectedCards (Page.examplePage None true None)
              _ _ "41" "42" _ (Page.Response 200 None)
              eq_refl eq_refl ltac:(discriminate) eq_refl ltac:(discriminate)
              eq_refl eq_refl eq_refl eq_refl)
    as (Hnet & Hlater & Hlog & _).
  split; [exact Hnet|].
  split; [exact (proj1 (Hlater 1999%N))|].
  split; [exact (proj2 (Hlater 1999%N))|].
  split; [exact (proj1 (Hlater 2000%N))|].
  split; [exact (proj2 (Hlater 2000%N)) | exact Hlog].
Defined.

(** ** Loading the fragment *)

Lemma fetchAndOpenModal_opens (p : Page.t) (handle : string)
    (outcome : Page.fetchOutcome) (d : Page.dialogElement) (html0 : string) :
  Page.dialogComponent p = Some d ->
  Page.contentDiv p = Some html0 ->
  Page.open <$> Page.dialogComponent (Page.fetchAndOpenModal handle outcome p) = Some true
  /\ Page.network (Page.fetchAndOpenModal handle outcome p)
     = Page.network p
         ++ [Page.Get ("/products/" +:+ handle +:+ "?section_id=upsell-modal-products")].
Proof.
  intros Hd Hc. unfold Page.fetchAndOpenModal. rewrite Hd, Hc.
  destruct p as [tr dc cd bd ios tm fr co nw dp]. simpl in *. subst.
  destruct outcome as [|status [html|]]; split; reflexivity.
Qed.

(** C7: when the fetch of the fragment fails (the request rejects, or the
    body cannot be read), the content host ends up holding one paragraph,
    [<p style=(quote)padding: 2rem; text-align: center;(quote)>], the text
    and [</p>], where the text is the trigger's error message, or "Unable
    to load products. Please try again." when the trigger has none (or an
    empty one); the dialog is open afterwards.  (The quote is character
    34.) *)
Theorem fragment_failure_shows_message (p : Page.t) (handle : string)
    (outcome : Page.fetchOutcome) (d : Page.dialogElement) (html0 : string) :
  Page.dialogComponent p = Some d ->
  Page.contentDiv p = Some html0 ->
  Page.failed outcome ->
  let p' := Page.fetchAndOpenModal handle outcome p in
  (forall message,
      Page.errorMessage (Page.trigger p) = Some message -> message <> "" ->
      Page.contentDiv p'
      = Some ("<p style=" +:+ String "034" "padding: 2rem; text-align: center;"
              +:+ String "034" ">" +:+ message +:+ "</p>"))
  /\ (Page.errorMessage (Page.trigger p) = None
      \/ Page.errorMessage (Page.trigger p) = Some "" ->
      Page.contentDiv p'
      = Some ("<p style=" +:+ String "034" "padding: 2rem; text-align: center;"
              +:+ String "034" ">Unable to load products. Please try again.</p>"))
  /\ Page.open <$> Page.dialogComponent p' = Some true.
Proof.
  intros Hd Hc Hfail p'.
  split; [|split; [|apply (fetchAndOpenModal_opens p handle outcome d html0 Hd Hc)]].
  - intros message Hm Hne. apply String.eqb_neq in Hne.
    unfold p', Page.fetchAndOpenModal. rewrite Hd, Hc.
    destruct p as [tr dc cd bd ios tm fr co nw dp]. simpl in *. subst.
    destruct outcome as [|status [html|]]; try contradiction;
      simpl; unfold JS.orElse; rewrite Hm, Hne; reflexivity.
  - intros Hm.
    unfold p', Page.fetchAndOpenModal. rewrite Hd, Hc.
    destruct p as [tr dc cd bd ios tm fr co nw dp]. simpl in *. subst.
    destruct outcome as [|status [html|]]; try contradiction;
      simpl; unfold JS.orElse; destruct Hm as [-> | ->]; reflexivity.
Qed.

Lemma fragment_failure_example :
  let p := Page.examplePage None false (Some "Sold out, sorry.") in
  let p' := Page.fetchAndOpenModal "shirt" Page.Rejected p in
  Page.contentDiv p'
  = Some ("<p style=" +:+ String "034" "padding: 2rem; text-align: center;"
          +:+ String "034" ">Sold out, sorry.</p>")
  /\ Page.open <$> Page.dialogComponent p' = Some true.
Proof.
  pose proof (fragment_failure_shows_message
                (Page.examplePage None false (Some "Sold out, sorry.")) "shirt"
                Page.Rejected _ "" eq_refl eq_refl I) as (Hmsg & _ & Hopen).
  split; [exact (Hmsg "Sold out, sorry." eq_refl ltac:(discriminate)) | exact Hopen].
Defined.

(** C10: when the fetch of the fragment delivers a body, the content host
    holds that body verbatim whatever the status of the response (404 as
    well as 200), nothing is logged, and the dialog is open afterwards. *)
Theorem fragment_body_injected_whatever_status (p : Page.t) (handle : string)
    (status : N) (html : string) (d : Page.dialogElement) (html0 : string) :
  Page.dialogComponent p = Some d ->
  Page.contentDiv p = Some html0 ->
  let p' := Page.fetchAndOpenModal handle (Page.Response status (Some html)) p in
  Page.contentDiv p' = Some html
  /\ Page.console p' = Page.console p
  /\ Page.open <$> Page.dialogComponent p' = Some true.
Proof.
  intros Hd Hc p'.
  split; [|split;
    [|apply (fetchAndOpenModal_opens p handle _ d html0 Hd Hc)]].
  - unfold p', Page.fetchAndOpenModal. rewrite Hd, Hc.
    destruct p as [tr dc cd bd ios tm fr co nw dp]. simpl in *. subst. reflexivity.
  - unfold p', Page.fetchAndOpenModal. rewrite Hd, Hc.
    destruct p as [tr dc cd bd ios tm fr co nw dp]. simpl in *. subst. reflexivity.
Qed.

Lemma fragment_404_example :
  let p := Page.examplePage None false None in
  let p' := Page.fetchAndOpenModal "shirt" (Page.Response 404 (Some "<h1>Not found</h1>")) p in
  Page.ok 404 = false
  /\ Page.contentDiv p' = Some "<h1>Not found</h1>"
  /\ Page.console p' = []
  /\ Page.open <$> Page.dialogComponent p' = Some true.
Proof.
  split; [reflexivity|].
  exact (fragment_body_injected_whatever_status
           (Page.examplePage None false None) "shirt" 404 "<h1>Not found</h1>" _ ""
           eq_refl eq_refl).
Defined.

(** ** The reflow on close *)

Lemma reflow_guard (v : Page.version) :
  (17 <=? Page.major v)%nat || ((Page.major v =? 16)%nat && (4 <=? Page.minor v)%nat) = false
  <-> Page.reflowApplies v.
Proof.
  unfold Page.reflowApplies.
  rewrite orb_false_iff, andb_false_iff, Nat.leb_gt, Nat.eqb_neq, Nat.leb_gt. lia.
Qed.

(** C8 (amended): [#handleDialogClose] queues the reflow exactly when an
    iOS version is detected whose major version is below 16, or is 16 with
    a minor version below 4; the body then gets its width less one pixel in
    the next animation frame (a body narrower than one pixel keeps the
    inline width it has, a negative length being no width) and the empty
    width in the one after.  For any other detected version, and when no
    iOS version is detected, the handler changes nothing. *)
Theorem reflow_runs_below_ios_16_4 (p : Page.t) :
  (forall v, Page.iosVersion p = Some v -> Page.reflowApplies v ->
     Page.handleDialogClose p = Page.requestAnimationFrame Page.ShrinkBody p
     /\ forall b, Page.body p = Some b -> Page.frames p = [] ->
          Page.body (Page.animationFrame (Page.handleDialogClose p))
          = Some {| Page.rectWidth := Page.rectWidth b;
                    Page.styleWidth :=
                      if 1 <=? Page.rectWidth b then Page.Px (Page.rectWidth b - 1)
                      else Page.styleWidth b |}
          /\ Page.body (Page.animationFrame (Page.animationFrame (Page.handleDialogClose p)))
             = Some {| Page.rectWidth := Page.rectWidth b; Page.styleWidth := Page.Auto |})
  /\ (forall v, Page.iosVersion p = Some v -> ~ Page.reflowApplies v ->
        Page.handleDialogClose p = p)
  /\ (Page.iosVersion p = None -> Page.handleDialogClose p = p).
Proof.
  split; [|split].
  - intros v Hv Happ. apply reflow_guard in Happ.
    assert (Hrun : Page.handleDialogClose p
                   = Page.requestAnimationFrame Page.ShrinkBody p).
    { unfold Page.handleDialogClose. now rewrite Hv, Happ. }
    split; [exact Hrun|]. intros b Hb Hf. rewrite Hrun.
    destruct p as [tr dc cd bd ios tm fr co nw dp]. simpl in Hb, Hf. subst.
    assert (Hw : (0 <=? Page.rectWidth b - 1) = (1 <=? Page.rectWidth b)).
    { destruct (Z.leb_spec 1 (Page.rectWidth b)); [apply Z.leb_le | apply Z.leb_gt]; lia. }
    unfold Page.animationFrame, Page.requestAnimationFrame, Page.runFrameTask,
      Page.setStyleWidth. simpl. rewrite Hw. split; reflexivity.
  - intros v Hv Happ. unfold Page.handleDialogClose. rewrite Hv.
    destruct (_ || _) eqn:E; [reflexivity|]. now apply reflow_guard in E.
  - intros Hv. unfold Page.handleDialogClose. now rewrite Hv.
Qed.

Lemma reflow_on_ios_16_3 :
  let p := Page.examplePage (Some {| Page.major := 16; Page.minor := 3 |}) false None in
  Page.handleDialogClose p = Page.requestAnimationFrame Page.ShrinkBody p
  /\ Page.body (Page.animationFrame (Page.handleDialogClose p))
     = Some {| Page.rectWidth := 390; Page.styleWidth := Page.Px 389 |}
  /\ Page.body (Page.animationFrame (Page.animationFrame (Page.handleDialogClose p)))
     = Some {| Page.rectWidth := 390; Page.styleWidth := Page.Auto |}.
Proof.
  destruct (proj1 (reflow_runs_below_ios_16_4
                     (Page.examplePage (Some {| Page.major := 16; Page.minor := 3 |})
                        false None))
              _ eq_refl) as [Hrun Hbody].
  - right. split; [reflexivity | simpl; lia].
  - split; [exact Hrun|]. exact (Hbody _ eq_refl eq_refl).
Defined.

(** C8, as stated, fails on iOS 16.4: the major version is below 17, so
    the stated condition holds, yet the handler returns before queueing
    anything and the body keeps its width. *)
Lemma reflow_skipped_on_ios_16_4 :
  let v := {| Page.major := 16; Page.minor := 4 |} in
  let p := Page.examplePage (Some v) false None in
  Page.reflowClaimed v
  /\ Page.handleDialogClose p = p
  /\ Page.frames (Page.handleDialogClose p) = []
  /\ Page.body (Page.animationFrame (Page.animationFrame (Page.handleDialogClose p)))
     = Page.body p.
Proof.
  split; [left; simpl; lia|]. repeat split; reflexivity.
Qed.

(** ** Money formatting *)

Lemma substring_all (t : string) : String.substring 0 (String.length t) t = t.
Proof. induction t as [|c t IH]; simpl; [reflexivity|]. now rewrite IH. Qed.

Lemma substring_app_l (s t : string) :
  String.substring 0 (String.length s) (s +:+ t) = s.
Proof.
  induction s as [|c s IH].
  - now destruct t.
  - rewrite string_app_cons. simpl. now rewrite IH.
Qed.

Lemma substring_app_r (s t : string) :
  String.substring (String.length s) (String.length t) (s +:+ t) = t.
Proof.
  induction s as [|c s IH]; [apply substring_all|].
  rewrite string_app_cons. simpl. exact IH.
Qed.

Lemma N_toString_nonempty (n : N) : (1 <= String.length (JS.N_toString n))%nat.
Proof.
  destruct (N_toString_digits n) as (_ & _ & c & r & -> & _). simpl. lia.
Qed.

(** The digits of [n], padded to three: the digits of [n / 100], then the
    tens and the units. *)
Lemma padStart0_hundredths (n : N) :
  JS.padStart0 3 (JS.N_toString n)
  = JS.N_toString (n / 100)
    +:+ String (JS.digitChar ((n / 10) mod 10)) (String (JS.digitChar (n mod 10)) "").
Proof.
  unfold JS.padStart0.
  destruct (N.lt_ge_cases n 10) as [H10|H10].
  - rewrite (N_toString_small n H10).
    rewrite (N.div_small n 100), (N.div_small n 10), (N.mod_small n 10) by lia.
    reflexivity.
  - rewrite (N_toString_step n H10).
    assert (Hlt : (n / 10 < n)%N) by (apply N.div_lt; lia).
    destruct (N.lt_ge_cases n 100) as [H100|H100].
    + assert (Hq : (n / 10 < 10)%N) by (apply N.Div0.div_lt_upper_bound; lia).
      rewrite (N_toString_small _ Hq), (N.div_small n 100), (N.mod_small (n / 10) 10)
        by assumption.
      reflexivity.
    + assert (Hq : (10 <= n / 10)%N) by (apply N.div_le_lower_bound; lia).
      rewrite (N_toString_step _ Hq), N.Div0.div_div.
      change (10 * 10)%N with 100%N.
      pose proof (N_toString_nonempty (n / 100)) as Hlen.
      rewrite !string_length_app. simpl String.length.
      replace (3 - _)%nat with 0%nat by lia.
      now rewrite string_app_assoc.
Qed.

(** *** The division in double precision

    [roundHalfEven] stays within half a unit of the quotient. *)
Lemma roundHalfEven_near (n d : N) :
  (0 < d)%N ->
  (n / d <= JS.roundHalfEven n d)%N
  /\ (2 * (d * JS.roundHalfEven n d) <= 2 * n + d)%N
  /\ (2 * n <= 2 * (d * JS.roundHalfEven n d) + d)%N.
Proof.
  intros Hd. unfold JS.roundHalfEven.
  pose proof (N.div_mod n d ltac:(lia)) as Hn.
  pose proof (N.mod_lt n d ltac:(lia)) as Hr.
  set (q := (n / d)%N) in *. set (r := (n mod d)%N) in *.
  assert (Hq1 : (d * (q + 1) = d * q + d)%N) by lia.
  destruct (N.ltb_spec (2 * r) d); [lia|].
  destruct (N.ltb_spec d (2 * r)); [lia|].
  destruct (N.even q); lia.
Qed.

Lemma log2_below (a k : N) : (a < 2 ^ k)%N -> (0 < k)%N -> (N.log2 a < k)%N.
Proof.
  intros Ha Hk. destruct (N.eq_dec a 0%N) as [->|Hne]; [exact Hk|].
  apply N.log2_lt_pow2; lia.
Qed.

(** The exponent of the double nearest to [a / 100]. *)
Lemma divide_exponent (a : N) :
  (a < 2 ^ 53)%N ->
  exists s : N,
    JS.exponent (JS.divide a 100) = - Z.of_N s
    /\ (6 <= s)%N
    /\ ((a < 100 * 2 ^ 46)%N -> (7 <= s)%N).
Proof.
  intros Ha. unfold JS.divide, JS.binade. cbn [JS.exponent].
  change (N.log2 100) with 6%N.
  pose proof (log2_below a 53 Ha ltac:(lia)) as Hlog.
  set (k := Z.of_N (N.log2 a) - Z.of_N 6).
  destruct (N.ltb_spec (a * 2 ^ Z.to_N (- k)) (100 * 2 ^ Z.to_N k)) as [Hlt|Hge].
  - exists (Z.to_N (- (k - 1 - 52))). split; [lia|]. split; lia.
  - exists (Z.to_N (- (k - 52))). split; [lia|]. split; [lia|].
    intros Hsmall.
    destruct (N.eq_dec (N.log2 a) 52%N) as [E|E]; [|lia].
    exfalso. subst k. rewrite E in Hge.
    change (Z.to_N (- (Z.of_N 52 - Z.of_N 6))) with 0%N in Hge.
    change (Z.to_N (Z.of_N 52 - Z.of_N 6)) with 46%N in Hge.
    rewrite N.pow_0_r in Hge. lia.
Qed.

Lemma divide_shape (a : N) :
  (a < 2 ^ 53)%N ->
  exists s : N,
    (6 <= s)%N
    /\ ((a < 100 * 2 ^ 46)%N -> (7 <= s)%N)
    /\ forall f,
         JS.fixedDigits (JS.divide a 100) f
         = JS.roundHalfUp (JS.roundHalfEven (a * 2 ^ s) 100 * 10 ^ N.of_nat f) (2 ^ s).
Proof.
  intros Ha. destruct (divide_exponent a Ha) as (s & He & H6 & H7).
  exists s. split; [exact H6|]. split; [exact H7|].
  intros f. unfold JS.fixedDigits. rewrite He.
  unfold JS.divide in *. cbn [JS.exponent JS.mantissa] in *. rewrite He.
  replace (Z.to_N (- - Z.of_N s)) with s by lia.
  replace (Z.to_N (- Z.of_N s)) with 0%N by lia.
  now rewrite N.pow_0_r, !N.mul_1_r.
Qed.

(** The double [divide] returns is normalized: 53 significant bits,
    within half a unit in the last place of the quotient. *)
Lemma divide_normal (a : N) :
  (0 < a < 2 ^ 53)%N ->
  exists s : N,
    JS.exponent (JS.divide a 100) = - Z.of_N s
    /\ (2 ^ 52 <= JS.mantissa (JS.divide a 100) <= 2 ^ 53)%N
    /\ (2 * (100 * JS.mantissa (JS.divide a 100)) <= 2 * (a * 2 ^ s) + 100)%N
    /\ (2 * (a * 2 ^ s) <= 2 * (100 * JS.mantissa (JS.divide a 100)) + 100)%N.
Proof.
  intros [Hpos Ha].
  pose proof (log2_below a 53 Ha ltac:(lia)) as Hlog.
  destruct (N.log2_spec a Hpos) as [Hlow Hhigh].
  rewrite N.pow_succ_r' in Hhigh.
  assert (Hround : forall s : N,
            (100 * 2 ^ 52 <= a * 2 ^ s < 100 * 2 ^ 53)%N ->
            (2 ^ 52 <= JS.roundHalfEven (a * 2 ^ s) 100 <= 2 ^ 53)%N
            /\ (2 * (100 * JS.roundHalfEven (a * 2 ^ s) 100) <= 2 * (a * 2 ^ s) + 100)%N
            /\ (2 * (a * 2 ^ s) <= 2 * (100 * JS.roundHalfEven (a * 2 ^ s) 100) + 100)%N).
  { intros s Hs.
    destruct (roundHalfEven_near (a * 2 ^ s) 100 ltac:(lia)) as (Hq & Hup & Hlo).
    split; [|split; assumption].
    set (m := JS.roundHalfEven (a * 2 ^ s) 100) in *.
    set (P := (a * 2 ^ s)%N) in *.
    change (2 ^ 52)%N with 4503599627370496%N in *.
    change (2 ^ 53)%N with 9007199254740992%N in *. lia. }
  unfold JS.divide, JS.binade. cbn [JS.exponent JS.mantissa].
  change (N.log2 100) with 6%N.
  set (la := N.log2 a) in *.
  set (k := Z.of_N la - Z.of_N 6).
  (* 2^la * 2^(58 - la) = 2^58 *)
  assert (HXY : (2 ^ la * 2 ^ (58 - la) = 2 ^ 58)%N).
  { rewrite <- N.pow_add_r. f_equal. lia. }
  assert (HY2 : (2 ^ (59 - la) = 2 * 2 ^ (58 - la))%N).
  { rewrite <- N.pow_succ_r'. f_equal. lia. }
  assert (Hk : (2 ^ la * 2 ^ Z.to_N (- k) = 64 * 2 ^ Z.to_N k)%N).
  { change 64%N with (2 ^ 6)%N. rewrite <- !N.pow_add_r. f_equal. lia. }
  set (X := (2 ^ la)%N) in *. set (Y := (2 ^ (58 - la))%N) in *.
  set (U := (2 ^ Z.to_N (- k))%N) in *. set (W := (2 ^ Z.to_N k)%N) in *.
  assert (HU : (0 < U)%N) by (apply N.neq_0_lt_0, N.pow_nonzero; lia).
  assert (HW : (0 < W)%N) by (apply N.neq_0_lt_0, N.pow_nonzero; lia).
  assert (HY : (0 < Y)%N) by (apply N.neq_0_lt_0, N.pow_nonzero; lia).
  change (2 ^ 58)%N with 288230376151711744%N in HXY.
  destruct (N.ltb_spec (a * U) (100 * W)) as [Hlt|Hge].
  - exists (59 - la)%N. split; [lia|].
    replace (Z.to_N (- (k - 1 - 52))) with (59 - la)%N by lia.
    replace (Z.to_N (k - 1 - 52)) with 0%N by lia.
    rewrite N.pow_0_r, N.mul_1_r. apply Hround. rewrite HY2.
    change (2 ^ 52)%N with 4503599627370496%N.
    change (2 ^ 53)%N with 9007199254740992%N.
    split; [nia|].
    (* a * U < 100 * W, X * U = 64 * W, X * Y = 2^58 *)
    assert (H1 : (a * U * (X * Y) < 100 * W * (X * Y))%N) by nia.
    assert (H2 : (a * Y * (X * U) < 100 * W * (X * Y))%N) by nia.
    rewrite Hk in H2. rewrite HXY in H2. nia.
  - exists (58 - la)%N. split; [lia|].
    replace (Z.to_N (- (k - 52))) with (58 - la)%N by lia.
    replace (Z.to_N (k - 52)) with 0%N by lia.
    rewrite N.pow_0_r, N.mul_1_r. apply Hround. fold Y.
    change (2 ^ 52)%N with 4503599627370496%N.
    change (2 ^ 53)%N with 9007199254740992%N.
    split; [|nia].
    assert (H1 : (100 * W * (X * Y) <= a * U * (X * Y))%N) by nia.
    assert (H2 : (100 * W * (X * Y) <= a * Y * (X * U))%N) by nia.
    rewrite Hk in H2. rewrite HXY in H2. nia.
Qed.

(** Below 2^46 * 100 the two roundings, of the quotient to a double and of
    the double to hundredths, give the amount back. *)
Lemma quotientDigits_2 (a : N) :
  (a < 100 * 2 ^ 46)%N -> JS.quotientDigits a 2 = a.
Proof.
  intros Ha. unfold JS.quotientDigits.
  assert (Ha53 : (a < 2 ^ 53)%N).
  { eapply N.lt_le_trans; [exact Ha|]. vm_compute. discriminate. }
  replace (a <? 2 ^ 53)%N with true by (symmetry; now apply N.ltb_lt).
  destruct (divide_shape a Ha53) as (s & _ & H7 & ->).
  specialize (H7 Ha).
  assert (HE : (128 <= 2 ^ s)%N).
  { change 128%N with (2 ^ 7)%N. apply N.pow_le_mono_r; lia. }
  change (10 ^ N.of_nat 2)%N with 100%N.
  destruct (roundHalfEven_near (a * 2 ^ s) 100 ltac:(lia)) as (_ & Hup & Hlow).
  set (m := JS.roundHalfEven (a * 2 ^ s) 100) in *.
  set (E := (2 ^ s)%N) in *. set (P := (a * E)%N) in *.
  unfold JS.roundHalfUp. symmetry.
  apply (N.div_unique _ _ _ (2 * (m * 100) + E - 2 * P)%N); [lia|].
  replace (2 * E * a)%N with (2 * P)%N by (unfold P; lia). lia.
Qed.

(** Without decimals the double nearest to the quotient rounds as the
    quotient itself. *)
Lemma quotientDigits_0 (a : N) : JS.quotientDigits a 0 = ((a + 50) / 100)%N.
Proof.
  assert (Hexact : JS.roundHalfUp (a * 10 ^ N.of_nat 0) 100 = ((a + 50) / 100)%N).
  { unfold JS.roundHalfUp. change (10 ^ N.of_nat 0)%N with 1%N. rewrite N.mul_1_r.
    replace (2 * a + 100)%N with (2 * (a + 50))%N by lia.
    now rewrite N.Div0.div_mul_cancel_l. }
  unfold JS.quotientDigits.
  destruct (N.ltb_spec a (2 ^ 53)) as [Ha|Ha]; [|exact Hexact].
  destruct (divide_shape a Ha) as (s & H6 & _ & ->).
  change (10 ^ N.of_nat 0)%N with 1%N. rewrite N.mul_1_r.
  assert (Hs : (2 ^ s = 2 * 2 ^ (s - 1))%N).
  { rewrite <- N.pow_succ_r'. f_equal. lia. }
  assert (HE : (32 <= 2 ^ (s - 1))%N).
  { change 32%N with (2 ^ 5)%N. apply N.pow_le_mono_r; lia. }
  destruct (roundHalfEven_near (a * 2 ^ s) 100 ltac:(lia)) as (Hq & Hup & Hlow).
  pose proof (N.div_mod (a * 2 ^ s) 100 ltac:(lia)) as HP.
  pose proof (N.mod_lt (a * 2 ^ s) 100 ltac:(lia)) as HPr.
  pose proof (N.div_mod (a + 50) 100 ltac:(lia)) as Hn.
  pose proof (N.mod_lt (a + 50) 100 ltac:(lia)) as Hnr.
  set (m := JS.roundHalfEven (a * 2 ^ s) 100) in *.
  set (q := (a * 2 ^ s / 100)%N) in *. set (r := ((a * 2 ^ s) mod 100)%N) in *.
  set (n := ((a + 50) / 100)%N) in *. set (rr := ((a + 50) mod 100)%N) in *.
  rewrite Hs in *. set (E' := (2 ^ (s - 1))%N) in *.
  assert (HP1 : (a * (2 * E') + 100 * E' = 200 * (E' * n) + 2 * (E' * rr))%N).
  { replace (a * (2 * E') + 100 * E')%N with ((a + 50) * (2 * E'))%N by lia.
    rewrite Hn. lia. }
  assert (Hrr : (E' * rr <= 99 * E')%N).
  { rewrite (N.mul_comm 99). apply N.mul_le_mono_l. lia. }
  set (P := (a * (2 * E'))%N) in *. set (Q := (E' * n)%N) in *.
  set (R := (E' * rr)%N) in *.
  unfold JS.roundHalfUp. symmetry.
  apply (N.div_unique _ _ _ (2 * m + 2 * E' - 4 * Q)%N).
  - lia.
  - replace (2 * (2 * E') * n)%N with (4 * Q)%N by (unfold Q; lia). lia.
Qed.

(** [(cents / 100).toFixed(2)]: an optional minus sign, then the number
    [toFixed] rounded to, its last two digits behind a point. *)
Lemma toFixed_digits (cents : Z) :
  JS.toFixed cents 2
  = (if cents <? 0 then "-" else "")
    +:+ JS.N_toString (JS.quotientDigits (Z.abs_N cents) 2 / 100)
    +:+ "."
    +:+ String (JS.digitChar ((JS.quotientDigits (Z.abs_N cents) 2 / 10) mod 10))
          (String (JS.digitChar (JS.quotientDigits (Z.abs_N cents) 2 mod 10)) "").
Proof.
  unfold JS.toFixed. cbn [Nat.eqb].
  set (n := JS.quotientDigits (Z.abs_N cents) 2).
  rewrite padStart0_hundredths.
  set (s := JS.N_toString (n / 100)).
  set (t := String (JS.digitChar ((n / 10) mod 10)) (String (JS.digitChar (n mod 10)) "")).
  rewrite string_length_app.
  replace (String.length s + String.length t - 2)%nat with (String.length s)
    by (simpl; lia).
  rewrite substring_app_l.
  change 2%nat with (String.length t) at 1.
  now rewrite substring_app_r.
Qed.

Lemma abs_N_below (cents : Z) :
  Z.abs cents < 100 * 2 ^ 46 -> (Z.abs_N cents < 100 * 2 ^ 46)%N.
Proof.
  intros H. apply N2Z.inj_lt. rewrite N2Z.inj_abs_N.
  change (Z.of_N (100 * 2 ^ 46)) with (100 * 2 ^ 46). exact H.
Qed.

(** Below 2^46 * 100 in magnitude: an optional minus sign, the whole units,
    a point and the two digits of the cents. *)
Lemma toFixed_two_decimals (cents : Z) :
  Z.abs cents < 100 * 2 ^ 46 ->
  JS.toFixed cents 2
  = (if cents <? 0 then "-" else "")
    +:+ JS.N_toString (Z.abs_N cents / 100)
    +:+ "."
    +:+ String (JS.digitChar ((Z.abs_N cents / 10) mod 10))
          (String (JS.digitChar (Z.abs_N cents mod 10)) "").
Proof.
  intros H. now rewrite toFixed_digits, (quotientDigits_2 _ (abs_N_below cents H)).
Qed.

(** From 2^46 * 100 on the doubles are too far apart for that: the double
    nearest to 70368744177664.01 is 70368744177664.015625. *)
Example toFixed_from_2_46 :
  JS.toFixed 7036874417766399 2 = "70368744177663.99"
  /\ JS.toFixed 7036874417766401 2 = "70368744177664.02".
Proof. split; vm_compute; reflexivity. Qed.

(** C5: 2500 cents is rendered ["25.00"] by the default template
    [{{amount}}] (also taken when the template element is empty), ["25"] by
    [{{amount_no_decimals}}] and ["25,00"] by
    [{{amount_with_comma_separator}}].  Without a template element the
    formatter is [toFixed(2)] of the amount, which groups nothing: for an
    amount below 2^46 * 100 cents in magnitude a minus sign if it is
    negative, the whole units, a point and the two digits of the cents.
    The formatter of the earlier version has no template and renders 2500
    cents ["$25.00"]. *)
Theorem formatMoney_2500_and_fallback :
  formatMoney (Some "{{amount}}") 2500 = "25.00"
  /\ formatMoney (Some "") 2500 = "25.00"
  /\ formatMoney (Some "{{amount_no_decimals}}") 2500 = "25"
  /\ formatMoney (Some "{{amount_with_comma_separator}}") 2500 = "25,00"
  /\ formatMoney None 2500 = "25.00"
  /\ formatMoney None 123456789 = "1234567.89"
  /\ V2.formatMoney 2500 = "$25.00"
  /\ forall cents : Z,
       Z.abs cents < 100 * 2 ^ 46 ->
       formatMoney None cents
       = (if cents <? 0 then "-" else "")
         +:+ JS.N_toString (Z.abs_N cents / 100)
         +:+ "."
         +:+ String (JS.digitChar ((Z.abs_N cents / 10) mod 10))
               (String (JS.digitChar (Z.abs_N cents mod 10)) "").
Proof.
  do 7 (split; [vm_compute; reflexivity|]).
  intros cents Hcents. now apply toFixed_two_decimals.
Qed.

Lemma formatMoney_fallback_example : formatMoney None (-1234567) = "-12345.67".
Proof.
  exact (proj2 (proj2 (proj2 (proj2 (proj2 (proj2 (proj2
           formatMoney_2500_and_fallback)))))) (-1234567) ltac:(vm_compute; reflexivity)).
Defined.

(** ** The handlers on a shirt with three variants *)

(** With M and Red chosen the second variant is taken, although the third
    matches as well; with XL chosen nothing matches and nothing changes. *)
Lemma variant_resolution_on_shirt :
  (exists c',
      cards (handleVariantChange 0 (shirtComponent ["M"; "Red"])) !! 0%nat = Some c'
      /\ dataset_variantId c' = Some "102"
      /\ dataset_price c' = Some "1200"
      /\ priceElement c' = Some "12.00")
  /\ Matches ["M"; "Red"] shirtMedium
  /\ handleVariantChange 0 (shirtComponent ["XL"; "Red"]) = shirtComponent ["XL"; "Red"].
Proof.
  split; [|split].
  - destruct (variant_resolution_first_match (shirtComponent ["M"; "Red"]) 0 _
                shirtVariants eq_refl eq_refl) as [Hfirst _].
    destruct (Hfirst [shirtSmallRed] shirtMediumRed [shirtMedium] eq_refl)
      as (c' & Hc' & _ & Hid & Hprice & Htext).
    + unfold Matches. simpl. auto.
    + intros u [<-|[]] [H _]. discriminate.
    + exists c'. repeat split; assumption.
  - unfold Matches. simpl. auto.
  - apply (proj2 (variant_resolution_first_match (shirtComponent ["XL"; "Red"]) 0 _
                    shirtVariants eq_refl eq_refl)).
    intros u Hu. simpl in Hu.
    destruct Hu as [<-|[<-|[<-|[]]]]; intros [H _]; discriminate.
Defined.

(** Choosing the sold-out M/Red deselects the shirt and leaves the other
    card's 1500 as subtotal; choosing S/Red keeps it selected. *)
Lemma variant_availability_on_shirt :
  (exists c',
      cards (handleVariantChange 0 (shirtComponent ["M"; "Red"])) !! 0%nat = Some c'
      /\ checkboxElement c' = Some {| disabled := true; checked := false |}
      /\ dataset_selected c' = Some "false"
      /\ unavailable c' = true
      /\ badge c' = Some ""
      /\ subtotalElement (handleVariantChange 0 (shirtComponent ["M"; "Red"]))
         = Some "15.00")
  /\ (exists c',
         cards (handleVariantChange 0 (shirtComponent ["S"; "Red"])) !! 0%nat = Some c'
         /\ checkboxElement c' = Some {| disabled := false; checked := true |}
         /\ dataset_selected c' = Some "true").
Proof.
  split.
  - destruct (variant_availability_drives_selection (shirtComponent ["M"; "Red"]) 0 _ _
                shirtVariants shirtMediumRed eq_refl eq_refl eq_refl eq_refl eq_refl)
      as (c' & Hc' & Hsold & _).
    destruct (Hsold eq_refl) as (Hbox & Hflag & _ & Hclass & Hbadge & Hsub).
    exists c'. repeat split; assumption.
  - destruct (variant_availability_drives_selection (shirtComponent ["S"; "Red"]) 0 _ _
                shirtVariants shirtSmallRed eq_refl eq_refl eq_refl eq_refl eq_refl)
      as (c' & Hc' & _ & Havail).
    destruct (Havail eq_refl) as (Hbox & Hflag & _).
    exists c'. repeat split; assumption.
Defined.

(** ** The earlier version of the controller

    The file also carries an earlier version of the three elements.  Its
    trigger and dialog are the same; its controller has no variant
    selectors, toggles on a click anywhere in the card, and formats money
    with [toLocaleString('en-US', {style: 'currency', currency: 'USD'})]. *)
Example earlier_formatMoney_2500 :
  V2.formatMoney 2500 = "$25.00"
  /\ V2.formatMoney 123456789 = "$1,234,567.89"
  /\ V2.formatMoney (-5) = "-$0.05".
Proof. repeat split; reflexivity. Qed.

(** * Further properties of the trigger and the dialog *)

Lemma app_singleton_neq {A} (l : list A) (x : A) : l ++ [x] <> l.
Proof.
  intros H. apply (f_equal (@length A)) in H. rewrite length_app in H. simpl in H. lia.
Qed.

(** X1: a click on the trigger sends a request exactly when the trigger has
    a non-empty product handle and both the dialog and the content host
    exist.  Without a handle the only effect is one console line; with a
    handle but without the dialog or the content host there is no effect at
    all. *)
Theorem handleClick_sends_request_iff (outcome : Page.fetchOutcome) (p : Page.t) :
  (Page.network (Page.handleClick outcome p) <> Page.network p
   <-> JS.truthy (Page.productHandle (Page.trigger p)) = true
       /\ is_Some (Page.dialogComponent p) /\ is_Some (Page.contentDiv p))
  /\ (JS.truthy (Page.productHandle (Page.trigger p)) = false ->
      Page.handleClick outcome p = Page.consoleError "No product handle found" p)
  /\ (JS.truthy (Page.productHandle (Page.trigger p)) = true ->
      Page.dialogComponent p = None \/ Page.contentDiv p = None ->
      Page.handleClick outcome p = p).
Proof.
  unfold Page.handleClick.
  destruct (JS.truthy (Page.productHandle (Page.trigger p))) eqn:Hh.
  - split; [|split; [discriminate|]].
    + destruct (Page.dialogComponent p) as [d|] eqn:Hd.
      * destruct (Page.contentDiv p) as [html0|] eqn:Hc.
        -- destruct (fetchAndOpenModal_opens p
                       (default "" (Page.productHandle (Page.trigger p))) outcome d html0 Hd Hc)
             as [_ Hnet].
           rewrite Hnet. split; [eauto | intros _; apply app_singleton_neq].
        -- unfold Page.fetchAndOpenModal. rewrite Hd, Hc.
           split; [congruence | intros (_ & _ & [x Hx]); discriminate].
      * unfold Page.fetchAndOpenModal. rewrite Hd.
        split; [congruence | intros (_ & [x Hx] & _); discriminate].
    + intros _ [Hd|Hc]; unfold Page.fetchAndOpenModal.
      * now rewrite Hd.
      * rewrite Hc. now destruct (Page.dialogComponent p).
  - split; [|split; [reflexivity | discriminate]].
    destruct p as [tr dc cd bd ios tm fr co nw dp]. simpl.
    split; [congruence | intros [H _]; discriminate].
Qed.

Lemma handleClick_without_handle_example :
  let p := Page.set_trigger
             {| Page.productHandle := Some ""; Page.errorMessage := None;
                Page.stayVisible := false |}
             (Page.examplePage None false None) in
  Page.handleClick Page.Rejected p = Page.consoleError "No product handle found" p
  /\ Page.network (Page.handleClick Page.Rejected p) = [].
Proof.
  intros p. split; [|reflexivity].
  exact (proj1 (proj2 (handleClick_sends_request_iff Page.Rejected p)) eq_refl).
Defined.

Lemma dialogCloseEvent_listeners (p : Page.t) (d : Page.dialogElement) :
  Page.dialogComponent p = Some d ->
  Page.trigger (Page.dialogCloseEvent p)
  = (if Page.stayVisibleListener d
     then {| Page.productHandle := Page.productHandle (Page.trigger p);
             Page.errorMessage := Page.errorMessage (Page.trigger p);
             Page.stayVisible := false |}
     else Page.trigger p)
  /\ Page.dialogComponent (Page.dialogCloseEvent p)
     = Some {| Page.open := Page.open d;
               Page.cartUpdateListener := Page.cartUpdateListener d;
               Page.closeListener := Page.closeListener d;
               Page.stayVisibleListener := false |}.
Proof.
  intros Hd.
  destruct p as [tr dc cd bd ios tm fr co nw dp], d as [o l1 l2 l3]. simpl in *. subst.
  unfold Page.dialogCloseEvent, Page.handleDialogClose. simpl.
  destruct l2, l3, ios as [[ma mi]|]; simpl; try destruct (_ || _); split; reflexivity.
Qed.

Lemma fetchAndOpenModal_stay_visible (p : Page.t) (handle : string)
    (outcome : Page.fetchOutcome) (d : Page.dialogElement) (html0 : string) :
  Page.dialogComponent p = Some d ->
  Page.contentDiv p = Some html0 ->
  Page.trigger (Page.fetchAndOpenModal handle outcome p)
  = {| Page.productHandle := Page.productHandle (Page.trigger p);
       Page.errorMessage := Page.errorMessage (Page.trigger p);
       Page.stayVisible := true |}
  /\ Page.dialogComponent (Page.fetchAndOpenModal handle outcome p)
     = Some {| Page.open := true;
               Page.cartUpdateListener := Page.cartUpdateListener d;
               Page.closeListener := Page.closeListener d;
               Page.stayVisibleListener := true |}.
Proof.
  intros Hd Hc. unfold Page.fetchAndOpenModal. rewrite Hd, Hc.
  destruct p as [tr dc cd bd ios tm fr co nw dp]. simpl in *. subst.
  destruct outcome as [|status [html|]]; split; reflexivity.
Qed.

(** X2: once the trigger has opened the dialog it carries [stay-visible];
    the first dialog-close event clears the attribute and uses up the
    listener, so a later close event leaves the trigger as it is. *)
Theorem stay_visible_until_first_close (p : Page.t) (handle : string)
    (outcome : Page.fetchOutcome) (d : Page.dialogElement) (html0 : string) :
  Page.dialogComponent p = Some d ->
  Page.contentDiv p = Some html0 ->
  let opened := Page.fetchAndOpenModal handle outcome p in
  let closed := Page.dialogCloseEvent opened in
  Page.stayVisible (Page.trigger opened) = true
  /\ Page.stayVisibleListener <$> Page.dialogComponent opened = Some true
  /\ Page.stayVisible (Page.trigger closed) = false
  /\ Page.stayVisibleListener <$> Page.dialogComponent closed = Some false
  /\ forall b,
       Page.trigger (Page.dialogCloseEvent (Page.set_stayVisible b closed))
       = Page.trigger (Page.set_stayVisible b closed).
Proof.
  intros Hd Hc opened closed.
  destruct (fetchAndOpenModal_stay_visible p handle outcome d html0 Hd Hc) as [Ht Hdlg].
  fold opened in Ht, Hdlg.
  destruct (dialogCloseEvent_listeners opened _ Hdlg) as [Ht' Hdlg'].
  fold closed in Ht', Hdlg'. simpl in Ht'.
  split; [now rewrite Ht|]. split; [now rewrite Hdlg|].
  split; [now rewrite Ht'|]. split; [now rewrite Hdlg'|].
  intros b.
  assert (Hd2 : Page.dialogComponent (Page.set_stayVisible b closed)
                = Page.dialogComponent closed) by reflexivity.
  rewrite Hdlg' in Hd2.
  now destruct (dialogCloseEvent_listeners _ _ Hd2) as [-> _].
Qed.

Lemma stay_visible_example :
  let opened := Page.fetchAndOpenModal "shirt" (Page.Response 200 (Some "<div></div>"))
                  (Page.examplePage None false None) in
  Page.stayVisible (Page.trigger opened) = true
  /\ Page.stayVisible (Page.trigger (Page.dialogCloseEvent opened)) = false.
Proof.
  destruct (stay_visible_until_first_close (Page.examplePage None false None) "shirt"
              (Page.Response 200 (Some "<div></div>")) _ "" eq_refl eq_refl)
    as (H1 & _ & H3 & _).
  split; [exact H1 | exact H3].
Defined.

(** X3: a cart-update event dispatched inside an open dialog closes it
    exactly when the event bubbles, reports no error and the dialog's
    cart-update listener is registered. *)
Theorem cart_update_closes_iff (p : Page.t) (d : Page.dialogElement)
    (bubbles didError : bool) :
  Page.dialogComponent p = Some d ->
  Page.open d = true ->
  (Page.open <$> Page.dialogComponent (Page.dispatchEvent (Page.CartUpdate bubbles didError) p)
   = Some false
   <-> bubbles = true /\ didError = false /\ Page.cartUpdateListener d = true).
Proof.
  intros Hd Ho.
  destruct p as [tr dc cd bd ios tm fr co nw dp], d as [o l1 l2 l3]. simpl in *. subst.
  unfold Page.dispatchEvent, Page.handleCartUpdate, Page.closeDialog,
    Page.dialogCloseEvent, Page.handleDialogClose.
  destruct bubbles, didError, l1, l2, l3, ios as [[ma mi]|]; simpl;
    try destruct (_ || _); simpl; split;
    try (intros H; discriminate H);
    try (intros (H1 & H2 & H3); discriminate);
    try (intros _; repeat split; reflexivity).
Qed.

Lemma cart_update_closes_example :
  Page.open
    <$> Page.dialogComponent
          (Page.dispatchEvent (Page.CartUpdate true false) (Page.examplePage None true None))
  = Some false.
Proof.
  apply (cart_update_closes_iff (Page.examplePage None true None) _ true false
           eq_refl eq_refl).
  repeat split.
Defined.

(** X4: once the dialog has been detached from the document its abort
    signal stays aborted: whatever attachments and detachments follow, the
    cart-update listener is gone for good, while a final attachment brings
    the close listener back; a bubbling cart-update event without error then
    reaches no listener and leaves the page as it is, but for the trace. *)
Theorem detached_dialog_ignores_cart_update :
  (forall before after i,
      Page.cartUpdateListener
        (Page.element (Page.lifecycle (before ++ Page.Detach :: after) i)) = false
      /\ Page.aborted (Page.lifecycle (before ++ Page.Detach :: after) i) = true)
  /\ (forall events i,
        Page.closeListener
          (Page.element (Page.lifecycle (events ++ [Page.Attach]) i)) = true)
  /\ (forall isOpen,
        Page.cartUpdateListener
          (Page.element (Page.lifecycle [Page.Attach] (Page.newDialog isOpen))) = true)
  /\ (forall before after i p,
        Page.dialogComponent p
        = Some (Page.element (Page.lifecycle (before ++ Page.Detach :: after) i)) ->
        Page.dispatchEvent (Page.CartUpdate true false) p
        = Page.set_dispatched (Page.dispatched p ++ [Page.CartUpdate true false]) p).
Proof.
  assert (Hstay : forall after i,
             Page.aborted i = true ->
             Page.cartUpdateListener (Page.element i) = false ->
             Page.cartUpdateListener (Page.element (Page.lifecycle after i)) = false
             /\ Page.aborted (Page.lifecycle after i) = true).
  { induction after as [|ev after IH]; intros i Ha Hl; [split; assumption|].
    unfold Page.lifecycle in *. simpl. apply IH.
    - destruct ev; [exact Ha | reflexivity].
    - destruct ev; simpl; [now rewrite Hl, Ha | reflexivity]. }
  assert (Hdetach : forall before after i,
             Page.cartUpdateListener
               (Page.element (Page.lifecycle (before ++ Page.Detach :: after) i)) = false
             /\ Page.aborted (Page.lifecycle (before ++ Page.Detach :: after) i) = true).
  { intros before after i. unfold Page.lifecycle. rewrite fold_left_app. simpl.
    apply Hstay; reflexivity. }
  split; [exact Hdetach|]. split; [|split].
  - intros events i. unfold Page.lifecycle. rewrite fold_left_app. reflexivity.
  - reflexivity.
  - intros before after i p Hd.
    destruct (Hdetach before after i) as [Hl _].
    unfold Page.dispatchEvent. simpl. rewrite Hd, Hl. reflexivity.
Qed.

Lemma reattached_dialog_example :
  let d := Page.element
             (Page.lifecycle [Page.Attach; Page.Detach; Page.Attach] (Page.newDialog true)) in
  let p := Page.set_dialogComponent (Some d) (Page.examplePage None true None) in
  Page.closeListener d = true
  /\ Page.open <$> Page.dialogComponent (Page.dispatchEvent (Page.CartUpdate true false) p)
     = Some true.
Proof.
  intros d p. split; [reflexivity|].
  rewrite (proj2 (proj2 (proj2 detached_dialog_ignores_cart_update))
             [Page.Attach] [Page.Attach] (Page.newDialog true) p eq_refl).
  reflexivity.
Defined.

(** X5: the reflow leaves no trace.  On a page with no pending animation
    frame callbacks whose body has no inline width (or which has no body),
    the page two animation frames after [#handleDialogClose] is the page
    before it, whatever the iOS version. *)
Theorem reflow_leaves_no_trace (p : Page.t) :
  Page.frames p = [] ->
  (Page.body p = None
   \/ exists w, Page.body p = Some {| Page.rectWidth := w; Page.styleWidth := Page.Auto |}) ->
  Page.animationFrame (Page.animationFrame (Page.handleDialogClose p)) = p.
Proof.
  intros Hf Hb. unfold Page.handleDialogClose.
  destruct p as [tr dc cd bd ios tm fr co nw dp]. simpl in *. subst.
  destruct ios as [[ma mi]|]; simpl;
    try destruct (_ || _); destruct Hb as [-> | [w ->]]; reflexivity.
Qed.

Lemma reflow_leaves_no_trace_example :
  let p := Page.examplePage (Some {| Page.major := 15; Page.minor := 7 |}) false None in
  Page.frames (Page.handleDialogClose p) = [Page.ShrinkBody]
  /\ Page.animationFrame (Page.animationFrame (Page.handleDialogClose p)) = p.
Proof.
  split; [reflexivity|].
  apply reflow_leaves_no_trace; [reflexivity|]. right. eexists. reflexivity.
Defined.

(** * Further properties of the content controller *)

(** ** Each event touches one card *)

Lemma updateSubtotal_confirmButton st :
  confirmButton (updateSubtotal st) = confirmButton st.
Proof. unfold updateSubtotal. now destruct (subtotalElement st). Qed.

Lemma touchesOnly_refl i st : touchesOnly i st st.
Proof. repeat split. Qed.

Lemma touchesOnly_trans i st1 st2 st3 :
  touchesOnly i st1 st2 -> touchesOnly i st2 st3 -> touchesOnly i st1 st3.
Proof.
  intros (Hm & Hb & Hl & Hj) (Hm' & Hb' & Hl' & Hj').
  repeat split; try congruence.
  intros j Hne. now rewrite Hj', Hj.
Qed.

Lemma touchesOnly_insert i c st :
  touchesOnly i st (set_cards (<[i := c]> (cards st)) st).
Proof.
  repeat split; simpl.
  - apply length_insert.
  - intros j Hne. apply list_lookup_insert_ne. congruence.
Qed.

Lemma touchesOnly_updateSubtotal i st st' :
  touchesOnly i st st' -> touchesOnly i st (updateSubtotal st').
Proof.
  intros (Hm & Hb & Hl & Hj). unfold touchesOnly.
  now rewrite updateSubtotal_moneyFormat, updateSubtotal_confirmButton,
    updateSubtotal_cards.
Qed.

Create HintDb touches.
#[local] Hint Resolve touchesOnly_refl touchesOnly_insert touchesOnly_updateSubtotal : touches.

Lemma handleCardClick_touches target i st :
  touchesOnly i st (handleCardClick target i st).
Proof.
  unfold handleCardClick. destruct target; auto with touches.
  destruct (cards st !! i) as [c|]; auto with touches.
  destruct (checkboxElement c) as [cb|]; auto with touches.
  destruct (negb (disabled cb)); auto with touches.
Qed.

Lemma handleCheckboxChange_touches i st :
  touchesOnly i st (handleCheckboxChange i st).
Proof.
  unfold handleCheckboxChange.
  destruct (cards st !! i) as [c|]; auto with touches.
  destruct (checkboxElement c) as [cb|]; auto with touches.
Qed.

Lemma handleVariantChange_touches i st :
  touchesOnly i st (handleVariantChange i st).
Proof.
  unfold handleVariantChange.
  destruct (cards st !! i) as [c|]; auto with touches.
  destruct (variantScript c) as [variants|]; auto with touches.
  destruct (List.find _ variants); auto with touches.
Qed.

Lemma flipCheckbox_touches i st : touchesOnly i st (flipCheckbox i st).
Proof.
  unfold flipCheckbox.
  destruct (cards st !! i) as [c|]; auto with touches.
  destruct (checkboxElement c) as [cb|]; auto with touches.
  destruct (disabled cb); auto with touches.
Qed.

Lemma chooseOption_touches i k value st : touchesOnly i st (chooseOption i k value st).
Proof.
  unfold chooseOption. destruct (cards st !! i) as [c|]; auto with touches.
Qed.

Lemma dispatch_touches ev st : touchesOnly (eventCard ev) st (dispatch ev st).
Proof.
  destruct ev as [i target|i|i k value]; simpl.
  - destruct (hasClickListener i st); [apply handleCardClick_touches | apply touchesOnly_refl].
  - destruct (isEnabled i st); [|apply touchesOnly_refl].
    eapply touchesOnly_trans; [apply flipCheckbox_touches|].
    set (st1 := flipCheckbox i st).
    eapply (touchesOnly_trans _ _
              (if hasClickListener i st1 then handleCardClick OnCheckbox i st1 else st1)).
    + destruct (hasClickListener i st1);
        [apply handleCardClick_touches | apply touchesOnly_refl].
    + match goal with |- context [hasChangeListener i ?s] => set (st2 := s) end.
      destruct (hasChangeListener i st2);
        [apply handleCheckboxChange_touches | apply touchesOnly_refl].
  - destruct (hasSelector i k st); [|apply touchesOnly_refl].
    eapply touchesOnly_trans; [apply chooseOption_touches | apply handleVariantChange_touches].
Qed.

(** X6: user events never add or remove a card, never change the
    money-format template or the confirm button, and a card in which none
    of the events happened is the card [connectedCallback] left. *)
Theorem events_touch_only_their_card (events : list userEvent) (st0 : t) :
  length (cards (run events st0)) = length (cards st0)
  /\ moneyFormatTemplate (run events st0) = moneyFormatTemplate st0
  /\ confirmButton (run events st0) = confirmButton st0
  /\ forall j,
       Forall (fun ev => eventCard ev <> j) events ->
       cards (run events st0) !! j = cards (connectedCallback st0) !! j.
Proof.
  unfold run.
  assert (H0 : length (cards (connectedCallback st0)) = length (cards st0)
               /\ moneyFormatTemplate (connectedCallback st0) = moneyFormatTemplate st0
               /\ confirmButton (connectedCallback st0) = confirmButton st0).
  { unfold connectedCallback.
    rewrite updateSubtotal_cards, updateSubtotal_moneyFormat, updateSubtotal_confirmButton.
    simpl. now rewrite length_fmap. }
  destruct H0 as (Hl0 & Hm0 & Hb0). rewrite <- Hl0, <- Hm0, <- Hb0.
  generalize (connectedCallback st0). clear.
  induction events as [|ev events IH]; intros st; simpl.
  - repeat split.
  - destruct (IH (dispatch ev st)) as (Hl & Hm & Hb & Hj).
    destruct (dispatch_touches ev st) as (Hm' & Hb' & Hl' & Hj').
    repeat split; try congruence.
    intros j Hall. inversion Hall as [|? ? Hev Hrest]; subst.
    rewrite (Hj j Hrest). apply Hj'. congruence.
Qed.

Lemma events_leave_other_card_example :
  cards (run [ClickCard 0 Elsewhere; ToggleCheckbox 0] twoSelectedCards) !! 1%nat
  = cards (connectedCallback twoSelectedCards) !! 1%nat.
Proof.
  apply (proj2 (proj2 (proj2
           (events_touch_only_their_card [ClickCard 0 Elsewhere; ToggleCheckbox 0]
              twoSelectedCards)))).
  repeat constructor; discriminate.
Defined.

(** ** Listeners are fixed when the component connects *)

Lemma fmap_insert_same {A B} (f : A -> B) (l : list A) (i : nat) (c c' : A) :
  l !! i = Some c -> f c' = f c -> f <$> <[i := c']> l = f <$> l.
Proof.
  intros Hi Hf. rewrite list_fmap_insert, Hf. apply list_insert_id.
  now rewrite list_lookup_fmap, Hi.
Qed.

Lemma listenersOf_applyVariant fmt v c :
  listenersOf (applyVariant fmt v c) = listenersOf c.
Proof. unfold listenersOf. card_cases v c. Qed.

Lemma listenersOf_applyAvailability v c :
  listenersOf (applyAvailability v c) = listenersOf c.
Proof. unfold listenersOf. card_cases v c. Qed.

Lemma listenersOf_variant fmt v c :
  listenersOf (applyAvailability v (applyVariant fmt v c)) = listenersOf c.
Proof. now rewrite listenersOf_applyAvailability, listenersOf_applyVariant. Qed.

Lemma handleCardClick_listeners target i st :
  listenersOf <$> cards (handleCardClick target i st) = listenersOf <$> cards st.
Proof.
  unfold handleCardClick. destruct target; try reflexivity.
  destruct (cards st !! i) as [c|] eqn:Hc; [|reflexivity].
  destruct (checkboxElement c) as [cb|]; [|reflexivity].
  destruct (negb (disabled cb)); [|reflexivity].
  rewrite updateSubtotal_cards. simpl. now apply (fmap_insert_same _ _ _ c).
Qed.

Lemma handleCheckboxChange_listeners i st :
  listenersOf <$> cards (handleCheckboxChange i st) = listenersOf <$> cards st.
Proof.
  unfold handleCheckboxChange.
  destruct (cards st !! i) as [c|] eqn:Hc; [|reflexivity].
  destruct (checkboxElement c) as [cb|]; [|reflexivity].
  rewrite updateSubtotal_cards. simpl. now apply (fmap_insert_same _ _ _ c).
Qed.

Lemma handleVariantChange_listeners i st :
  listenersOf <$> cards (handleVariantChange i st) = listenersOf <$> cards st.
Proof.
  unfold handleVariantChange.
  destruct (cards st !! i) as [c|] eqn:Hc; [|reflexivity].
  destruct (variantScript c) as [variants|]; [|reflexivity].
  destruct (List.find _ variants) as [v|]; [|reflexivity].
  rewrite updateSubtotal_cards. simpl.
  apply (fmap_insert_same _ _ _ c); [assumption | apply listenersOf_variant].
Qed.

Lemma flipCheckbox_listeners i st :
  listenersOf <$> cards (flipCheckbox i st) = listenersOf <$> cards st.
Proof.
  unfold flipCheckbox.
  destruct (cards st !! i) as [c|] eqn:Hc; [|reflexivity].
  destruct (checkboxElement c) as [cb|]; [|reflexivity].
  destruct (disabled cb); [reflexivity|].
  simpl. now apply (fmap_insert_same _ _ _ c).
Qed.

Lemma chooseOption_listeners i k value st :
  listenersOf <$> cards (chooseOption i k value st) = listenersOf <$> cards st.
Proof.
  unfold chooseOption.
  destruct (cards st !! i) as [c|] eqn:Hc; [|reflexivity].
  simpl. now apply (fmap_insert_same _ _ _ c).
Qed.

Lemma dispatch_listeners ev st :
  listenersOf <$> cards (dispatch ev st) = listenersOf <$> cards st.
Proof.
  destruct ev as [i target|i|i k value]; simpl.
  - destruct (hasClickListener i st); [apply handleCardClick_listeners | reflexivity].
  - destruct (isEnabled i st); [|reflexivity].
    rewrite <- (flipCheckbox_listeners i st).
    set (st1 := flipCheckbox i st).
    assert (H2 : listenersOf <$> cards
                   (if hasClickListener i st1 then handleCardClick OnCheckbox i st1 else st1)
                 = listenersOf <$> cards st1).
    { destruct (hasClickListener i st1); [apply handleCardClick_listeners | reflexivity]. }
    rewrite <- H2.
    match goal with |- context [hasChangeListener i ?s] => set (st2 := s) end.
    destruct (hasChangeListener i st2); [apply handleCheckboxChange_listeners | reflexivity].
  - destruct (hasSelector i k st); [|reflexivity].
    now rewrite handleVariantChange_listeners, chooseOption_listeners.
Qed.

Lemma run_listeners events st0 :
  listenersOf <$> cards (run events st0)
  = (fun c => (enabledCheckbox c, enabledCheckbox c)) <$> cards st0.
Proof.
  unfold run.
  assert (H0 : listenersOf <$> cards (connectedCallback st0)
               = (fun c => (enabledCheckbox c, enabledCheckbox c)) <$> cards st0).
  { unfold connectedCallback. rewrite updateSubtotal_cards. simpl.
    rewrite <- list_fmap_compose. apply list_fmap_ext. intros _ c _.
    unfold compose, enabledCheckbox, listenersOf. simpl. now destruct (checkboxElement c). }
  rewrite <- H0. generalize (connectedCallback st0). clear.
  induction events as [|ev events IH]; intros st; simpl; [reflexivity|].
  now rewrite IH, dispatch_listeners.
Qed.

Lemma listeners_lookup (st : t) (i : nat) (e : bool) :
  (listenersOf <$> cards st) !! i = Some (e, e) ->
  hasClickListener i st = e /\ hasChangeListener i st = e.
Proof.
  rewrite list_lookup_fmap. unfold hasClickListener, hasChangeListener.
  destruct (cards st !! i) as [c|]; [|discriminate].
  unfold listenersOf. simpl. intros [= <- <-]. auto.
Qed.

Lemma omap_itemOf_insert_same (l : list card) (i : nat) (c c' : card) :
  l !! i = Some c ->
  dataset_selected c' = dataset_selected c ->
  dataset_variantId c' = dataset_variantId c ->
  omap itemOf (List.filter isSelected (<[i := c']> l))
  = omap itemOf (List.filter isSelected l).
Proof.
  intros Hi Hsel Hid.
  rewrite <- (take_drop_middle _ _ _ Hi) at 2.
  rewrite insert_take_drop by (now apply lookup_lt_Some in Hi).
  rewrite !List.filter_app, !omap_app. f_equal.
  assert (Hs : isSelected c' = isSelected c) by (unfold isSelected; now rewrite Hsel).
  assert (Ht : itemOf c' = itemOf c) by (unfold itemOf; now rewrite Hid).
  cbn [List.filter]. rewrite Hs. destruct (isSelected c); [|reflexivity].
  cbn [omap list_omap]. now rewrite Ht.
Qed.

(** X7: which cards carry the click and change listeners is decided once,
    by [connectedCallback], from the checkbox as it is then.  A card whose
    checkbox is missing or disabled at that time never reacts to a click,
    whatever happens later (a variant change may well enable and check its
    checkbox), and toggling its checkbox changes neither the payload of a
    confirm nor the subtotal. *)
Theorem listeners_fixed_at_connect (events : list userEvent) (st0 : t) (i : nat)
    (c : card) :
  cards st0 !! i = Some c ->
  let st := run events st0 in
  hasClickListener i st = enabledCheckbox c
  /\ hasChangeListener i st = enabledCheckbox c
  /\ (enabledCheckbox c = false ->
      (forall target, dispatch (ClickCard i target) st = st)
      /\ confirmItems (dispatch (ToggleCheckbox i) st) = confirmItems st
      /\ subtotalElement (dispatch (ToggleCheckbox i) st) = subtotalElement st).
Proof.
  intros Hc st.
  assert (Hl : forall s, listenersOf <$> cards s = listenersOf <$> cards st ->
                 hasClickListener i s = enabledCheckbox c
                 /\ hasChangeListener i s = enabledCheckbox c).
  { intros s Hs. apply listeners_lookup. rewrite Hs. unfold st.
    now rewrite run_listeners, list_lookup_fmap, Hc. }
  destruct (Hl st eq_refl) as [Hclick Hchange].
  split; [exact Hclick|]. split; [exact Hchange|].
  intros Hoff. rewrite Hoff in *. split; [|split].
  - intros target. simpl. now rewrite Hclick.
  - simpl. destruct (isEnabled i st); [|reflexivity].
    destruct (Hl (flipCheckbox i st) (flipCheckbox_listeners i st)) as [-> ->].
    rewrite !confirmItems_omap. unfold flipCheckbox.
    destruct (cards st !! i) as [c1|] eqn:Hc1; [|reflexivity].
    destruct (checkboxElement c1) as [cb|]; [|reflexivity].
    destruct (disabled cb); [reflexivity|].
    simpl. now apply (omap_itemOf_insert_same _ _ c1).
  - simpl. destruct (isEnabled i st); [|reflexivity].
    destruct (Hl (flipCheckbox i st) (flipCheckbox_listeners i st)) as [-> ->].
    unfold flipCheckbox.
    destruct (cards st !! i) as [c1|]; [|reflexivity].
    destruct (checkboxElement c1) as [cb|]; [|reflexivity].
    now destruct (disabled cb).
Qed.

(** The shirt that was sold out on connect, after S is chosen: the
    variant handler has enabled and checked the checkbox, yet a click on
    the card does nothing, and when the user unchecks the box the shirt
    stays in the payload. *)
Lemma sold_out_on_connect_example :
  let st := run [ChooseOption 0 0 "S"] soldOutShirt in
  (checkboxElement <$> cards st !! 0%nat)
  = Some (Some {| disabled := false; checked := true |})
  /\ dispatch (ClickCard 0 Elsewhere) st = st
  /\ (checkboxElement <$> cards (dispatch (ToggleCheckbox 0) st) !! 0%nat)
     = Some (Some {| disabled := false; checked := false |})
  /\ confirmItems (dispatch (ToggleCheckbox 0) st) = [{| id := "101"; quantity := 1 |}].
Proof.
  intros st.
  destruct (listeners_fixed_at_connect [ChooseOption 0 0 "S"] soldOutShirt 0 _ eq_refl)
    as (_ & _ & Hinert).
  destruct (Hinert eq_refl) as (Hclick & Hitems & _).
  split; [reflexivity|]. split; [apply Hclick|]. split; [reflexivity|].
  fold st in Hitems. rewrite Hitems. reflexivity.
Defined.

(** ** More on variant changes *)

Lemma applyAvailability_main v c :
  isMainProduct c = true -> applyAvailability v c = c.
Proof. intros H. unfold applyAvailability. now rewrite H. Qed.

Lemma applyVariant_unavailable fmt v c :
  unavailable (applyVariant fmt v c) = unavailable c.
Proof. card_cases v c. Qed.

Lemma applyVariant_script fmt v c :
  variantScript (applyVariant fmt v c) = variantScript c
  /\ selectors (applyVariant fmt v c) = selectors c.
Proof. split; card_cases v c. Qed.

Lemma applyAvailability_script v c :
  variantScript (applyAvailability v c) = variantScript c
  /\ selectors (applyAvailability v c) = selectors c.
Proof. split; card_cases v c. Qed.

Lemma applyAvailability_elements v c :
  skuElement (applyAvailability v c) = skuElement c
  /\ imgElement (applyAvailability v c) = imgElement c
  /\ dataset_productImage (applyAvailability v c) = dataset_productImage c.
Proof. repeat split; card_cases v c. Qed.

Lemma applyVariant_elements fmt v c :
  skuElement (applyVariant fmt v c)
  = (fun _ => if JS.truthy (Variant.sku v)
              then "SKU: " +:+ default "" (Variant.sku v) else "") <$> skuElement c
  /\ imgElement (applyVariant fmt v c)
     = match Variant.featured_image v with
       | Some src => (fun _ => src) <$> imgElement c
       | None => imgElement c
       end
  /\ dataset_productImage (applyVariant fmt v c)
     = match imgElement c, Variant.featured_image v with
       | Some _, Some src => Some src
       | _, _ => dataset_productImage c
       end.
Proof.
  unfold applyVariant.
  destruct (JS.truthy (Variant.sku v)), (Variant.featured_image v);
    destruct c as [main unav sel vid price img cb bdg [pe|] [se|] [ie|] vs sels l1 l2];
    card_compute; repeat split; reflexivity.
Qed.

Lemma card_ext (a b : card) :
  isMainProduct a = isMainProduct b ->
  unavailable a = unavailable b ->
  dataset_selected a = dataset_selected b ->
  dataset_variantId a = dataset_variantId b ->
  dataset_price a = dataset_price b ->
  dataset_productImage a = dataset_productImage b ->
  checkboxElement a = checkboxElement b ->
  badge a = badge b ->
  priceElement a = priceElement b ->
  skuElement a = skuElement b ->
  imgElement a = imgElement b ->
  variantScript a = variantScript b ->
  selectors a = selectors b ->
  listenersOf a = listenersOf b ->
  a = b.
Proof.
  destruct a, b. unfold listenersOf. simpl. intros. simplify_eq. reflexivity.
Qed.

(** What the availability block leaves in the four fields it writes. *)
Lemma applyAvailability_fields v c :
  isMainProduct (applyAvailability v c) = isMainProduct c
  /\ checkboxElement (applyAvailability v c)
     = (if isMainProduct c then checkboxElement c
        else (fun _ => {| disabled := negb (Variant.available v);
                          checked := Variant.available v |}) <$> checkboxElement c)
  /\ dataset_selected (applyAvailability v c)
     = (if isMainProduct c then dataset_selected c
        else match checkboxElement c with
             | Some _ => Some (flagOf (Variant.available v))
             | None => dataset_selected c
             end)
  /\ unavailable (applyAvailability v c)
     = (if isMainProduct c then unavailable c else negb (Variant.available v))
  /\ badge (applyAvailability v c)
     = (if isMainProduct c then badge c
        else (fun _ => if Variant.available v then "none" else "") <$> badge c).
Proof.
  unfold applyAvailability.
  destruct (Variant.available v);
    destruct c as [main unav sel vid price img [cb|] [bdg|] pe se ie vs sels l1 l2];
    destruct main; card_compute; repeat split; reflexivity.
Qed.

(** Writing the same variant to a card a second time changes nothing. *)
Lemma applyVariant_twice fmt v c :
  applyAvailability v (applyVariant fmt v (applyAvailability v (applyVariant fmt v c)))
  = applyAvailability v (applyVariant fmt v c).
Proof.
  set (c1 := applyAvailability v (applyVariant fmt v c)).
  assert (P1 : isMainProduct c1 = isMainProduct c
               /\ checkboxElement c1
                  = (if isMainProduct c then checkboxElement c
                     else (fun _ => {| disabled := negb (Variant.available v);
                                       checked := Variant.available v |})
                            <$> checkboxElement c)
               /\ dataset_selected c1
                  = (if isMainProduct c then dataset_selected c
                     else match checkboxElement c with
                          | Some _ => Some (flagOf (Variant.available v))
                          | None => dataset_selected c
                          end)
               /\ unavailable c1
                  = (if isMainProduct c then unavailable c else negb (Variant.available v))
               /\ badge c1
                  = (if isMainProduct c then badge c
                     else (fun _ => if Variant.available v then "none" else "")
                            <$> badge c)).
  { unfold c1. destruct (applyAvailability_fields v (applyVariant fmt v c))
      as (-> & -> & -> & -> & ->).
    now rewrite applyVariant_isMainProduct, applyVariant_checkbox, applyVariant_selected,
      applyVariant_unavailable, applyVariant_badge. }
  destruct P1 as (Hmain & Hcb & Hsel & Hun & Hbadge).
  assert (P2 : skuElement c1
               = (fun _ => if JS.truthy (Variant.sku v)
                           then "SKU: " +:+ default "" (Variant.sku v) else "")
                   <$> skuElement c
               /\ imgElement c1
                  = match Variant.featured_image v with
                    | Some src => (fun _ => src) <$> imgElement c
                    | None => imgElement c
                    end
               /\ dataset_productImage c1
                  = match imgElement c, Variant.featured_image v with
                    | Some _, Some src => Some src
                    | _, _ => dataset_productImage c
                    end).
  { unfold c1. destruct (applyAvailability_elements v (applyVariant fmt v c))
      as (-> & -> & ->). apply applyVariant_elements. }
  destruct P2 as (Hsku & Himg & Hattr).
  assert (Hpe : priceElement c1
                = (fun _ => formatMoney fmt (Variant.price v)) <$> priceElement c).
  { unfold c1. now rewrite applyAvailability_priceElement, applyVariant_priceElement. }
  set (c2 := applyVariant fmt v c1).
  destruct (applyAvailability_fields v c2) as (Em & Ecb & Esel & Eun & Ebadge).
  destruct (applyAvailability_elements v c2) as (Esku & Eimg & Eattr).
  destruct (applyVariant_elements fmt v c1) as (Fsku & Fimg & Fattr).
  apply card_ext.
  - rewrite Em. unfold c2. now rewrite applyVariant_isMainProduct.
  - rewrite Eun, Hun. unfold c2.
    rewrite applyVariant_isMainProduct, applyVariant_unavailable, Hmain, Hun.
    now destruct (isMainProduct c).
  - rewrite Esel, Hsel. unfold c2.
    rewrite applyVariant_isMainProduct, applyVariant_checkbox, applyVariant_selected,
      Hmain, Hcb, Hsel.
    destruct (isMainProduct c); [reflexivity|]. now destruct (checkboxElement c).
  - rewrite applyAvailability_variantId. unfold c2, c1.
    now rewrite applyVariant_variantId, applyAvailability_variantId, applyVariant_variantId.
  - rewrite applyAvailability_price. unfold c2, c1.
    now rewrite applyVariant_price, applyAvailability_price, applyVariant_price.
  - rewrite Eattr. fold c2 in Fattr. rewrite Fattr, Himg, Hattr.
    destruct (imgElement c), (Variant.featured_image v); reflexivity.
  - rewrite Ecb, Hcb. unfold c2.
    rewrite applyVariant_isMainProduct, applyVariant_checkbox, Hmain, Hcb.
    destruct (isMainProduct c); [reflexivity|]. now destruct (checkboxElement c).
  - rewrite Ebadge, Hbadge. unfold c2.
    rewrite applyVariant_isMainProduct, applyVariant_badge, Hmain, Hbadge.
    destruct (isMainProduct c); [reflexivity|]. now destruct (badge c).
  - rewrite applyAvailability_priceElement. unfold c2.
    rewrite applyVariant_priceElement, Hpe. now destruct (priceElement c).
  - rewrite Esku. fold c2 in Fsku. rewrite Fsku, Hsku. now destruct (skuElement c).
  - rewrite Eimg. fold c2 in Fimg. rewrite Fimg, Himg.
    destruct (imgElement c), (Variant.featured_image v); reflexivity.
  - rewrite (proj1 (applyAvailability_script _ _)). unfold c2.
    now rewrite (proj1 (applyVariant_script _ _ _)).
  - rewrite (proj2 (applyAvailability_script _ _)). unfold c2.
    now rewrite (proj2 (applyVariant_script _ _ _)).
  - rewrite listenersOf_applyAvailability. unfold c2.
    now rewrite listenersOf_applyVariant.
Qed.

Lemma handleVariantChange_lookup st i c variants v :
  cards st !! i = Some c ->
  variantScript c = Some variants ->
  List.find (variantMatches (selectors c)) variants = Some v ->
  cards (handleVariantChange i st) !! i
  = Some (applyAvailability v (applyVariant (moneyFormatTemplate st) v c)).
Proof.
  intros Hc Hs Hf. rewrite (handleVariantChange_matched _ _ _ _ _ Hc Hs Hf).
  rewrite updateSubtotal_cards. simpl.
  apply list_lookup_insert_eq. now apply lookup_lt_Some in Hc.
Qed.

(** X8: a variant change on the main product never touches its checkbox,
    its selection flag, its unavailable class or its sold-out badge, not
    even when the matched variant is sold out. *)
Theorem main_product_keeps_selection (st : t) (i : nat) (c : card) :
  cards st !! i = Some c ->
  isMainProduct c = true ->
  exists c',
    cards (handleVariantChange i st) !! i = Some c'
    /\ isMainProduct c' = true
    /\ checkboxElement c' = checkboxElement c
    /\ dataset_selected c' = dataset_selected c
    /\ unavailable c' = unavailable c
    /\ badge c' = badge c.
Proof.
  intros Hc Hmain.
  destruct (variantScript c) as [variants|] eqn:Hs;
    [destruct (List.find (variantMatches (selectors c)) variants) as [v|] eqn:Hf|].
  - exists (applyVariant (moneyFormatTemplate st) v c).
    rewrite (handleVariantChange_lookup _ _ _ _ _ Hc Hs Hf).
    rewrite applyAvailability_main by (now rewrite applyVariant_isMainProduct).
    rewrite applyVariant_isMainProduct, applyVariant_checkbox, applyVariant_selected,
      applyVariant_unavailable, applyVariant_badge. auto 10.
  - exists c. unfold handleVariantChange. rewrite Hc, Hs, Hf. auto 10.
  - exists c. unfold handleVariantChange. rewrite Hc, Hs. auto 10.
Qed.

Lemma main_product_sold_out_example :
  exists c',
    cards (handleVariantChange 0 (mainShirtComponent ["M"; "Red"])) !! 0%nat = Some c'
    /\ dataset_variantId c' = Some "102"
    /\ dataset_selected c' = Some "true"
    /\ unavailable c' = false.
Proof.
  destruct (main_product_keeps_selection (mainShirtComponent ["M"; "Red"]) 0 _
              eq_refl eq_refl) as (c' & Hc' & _ & _ & Hsel & Hun & _).
  exists c'. split; [exact Hc'|]. split; [|split; [exact Hsel | exact Hun]].
  assert (H : cards (handleVariantChange 0 (mainShirtComponent ["M"; "Red"])) !! 0%nat
              = Some c') by exact Hc'.
  vm_compute in H. injection H as <-. reflexivity.
Defined.

(** X9: handling a selector change a second time, with the selectors as
    they are, changes nothing more. *)
Theorem handleVariantChange_idempotent (i : nat) (st : t) :
  handleVariantChange i (handleVariantChange i st) = handleVariantChange i st.
Proof.
  destruct (cards st !! i) as [c|] eqn:Hc;
    [destruct (variantScript c) as [variants|] eqn:Hs;
     [destruct (List.find (variantMatches (selectors c)) variants) as [v|] eqn:Hf|]|].
  - pose proof (handleVariantChange_lookup _ _ _ _ _ Hc Hs Hf) as Hc1.
    set (c1 := applyAvailability v (applyVariant (moneyFormatTemplate st) v c)) in *.
    assert (Hs1 : variantScript c1 = Some variants).
    { unfold c1. rewrite (proj1 (applyAvailability_script _ _)),
        (proj1 (applyVariant_script _ _ _)). exact Hs. }
    assert (Hsel1 : selectors c1 = selectors c).
    { unfold c1. now rewrite (proj2 (applyAvailability_script _ _)),
        (proj2 (applyVariant_script _ _ _)). }
    rewrite <- Hsel1 in Hf.
    rewrite (handleVariantChange_matched _ _ _ _ _ Hc1 Hs1 Hf).
    rewrite (handleVariantChange_matched st i c variants v Hc Hs)
      by (now rewrite <- Hsel1).
    rewrite updateSubtotal_cards, updateSubtotal_moneyFormat. simpl.
    fold c1. unfold c1 at 1. rewrite applyVariant_twice. fold c1.
    now rewrite list_insert_insert_eq, updateSubtotal_twice.
  - unfold handleVariantChange. rewrite Hc, Hs, Hf. simpl. now rewrite Hc, Hs, Hf.
  - unfold handleVariantChange. rewrite Hc, Hs. simpl. now rewrite Hc, Hs.
  - unfold handleVariantChange. rewrite Hc. simpl. now rewrite Hc.
Qed.

(** X10: after the matched variant of an add-on card with a checkbox was
    found available, the rendered subtotal is the sum over the other
    selected cards plus the price of that variant, and the payload of a
    confirm contains the variant's id with quantity 1. *)
Theorem available_variant_is_counted_and_posted (st : t) (i : nat) (c : card)
    (cb : checkbox) (variants : list Variant.t) (v : Variant.t) :
  cards st !! i = Some c ->
  isMainProduct c = false ->
  checkboxElement c = Some cb ->
  variantScript c = Some variants ->
  List.find (variantMatches (selectors c)) variants = Some v ->
  Variant.available v = true ->
  subtotalElement (handleVariantChange i st)
  = (fun _ => formatMoney (moneyFormatTemplate st)
                (sumZ (priceOf <$> List.filter isSelected (delete i (cards st)))
                 + Variant.price v))
      <$> subtotalElement st
  /\ In {| id := JS.toString (Variant.id v); quantity := 1 |}
        (confirmItems (handleVariantChange i st)).
Proof.
  intros Hc Hmain Hcb Hs Hf Hav.
  pose proof (handleVariantChange_lookup _ _ _ _ _ Hc Hs Hf) as Hc1.
  set (c0 := applyVariant (moneyFormatTemplate st) v c) in *.
  destruct (applyAvailability_available v c0 cb) as (_ & Hflag & _);
    [unfold c0; now rewrite applyVariant_isMainProduct
    |unfold c0; now rewrite applyVariant_checkbox
    |exact Hav|].
  set (c1 := applyAvailability v c0) in *.
  assert (Hsel : isSelected c1 = true) by (unfold isSelected; now rewrite Hflag).
  assert (Hprice : priceOf c1 = Variant.price v).
  { apply priceOf_integer. unfold c1, c0.
    now rewrite applyAvailability_price, applyVariant_price. }
  assert (Hid : dataset_variantId c1 = Some (JS.toString (Variant.id v))).
  { unfold c1, c0. now rewrite applyAvailability_variantId, applyVariant_variantId. }
  split.
  - rewrite (handleVariantChange_matched _ _ _ _ _ Hc Hs Hf), updateSubtotal_text. simpl.
    fold c0 c1.
    rewrite subtotalOf_contribution, (sum_contribution_insert _ _ _ _ Hc).
    rewrite sum_selected_contribution, (sum_contribution_delete _ _ _ Hc).
    unfold contribution at 3. rewrite Hsel, Hprice. reflexivity.
  - rewrite confirmItems_omap.
    apply list_elem_of_In, list_elem_of_omap. exists c1. split.
    + apply list_elem_of_In, filter_In. split; [|exact Hsel].
      apply list_elem_of_In, list_elem_of_lookup. eauto.
    + unfold itemOf, JS.truthy. rewrite Hid. simpl.
      destruct (String.eqb (JS.toString (Variant.id v)) "") eqn:E; [|reflexivity].
      apply String.eqb_eq in E. now apply toString_nonempty in E.
Qed.

Lemma available_variant_example :
  subtotalElement (handleVariantChange 0 (shirtComponent ["M"; "Blue"])) = Some "28.00"
  /\ In {| id := "103"; quantity := 1 |}
        (confirmItems (handleVariantChange 0 (shirtComponent ["M"; "Blue"]))).
Proof.
  exact (available_variant_is_counted_and_posted (shirtComponent ["M"; "Blue"]) 0 _ _
           shirtVariants shirtMedium eq_refl eq_refl eq_refl eq_refl eq_refl eq_refl).
Defined.

(** X11: the SKU line and the image follow the matched variant as far as
    they can.  The SKU text becomes ["SKU: " + sku], or empty when the
    variant has no SKU; the image source changes only when the variant has
    a featured image (a variant without one keeps the image shown before);
    and the card's product-image attribute is written only when the card
    has an image element as well. *)
Theorem variant_change_sku_and_image (st : t) (i : nat) (c : card)
    (variants : list Variant.t) (v : Variant.t) :
  cards st !! i = Some c ->
  variantScript c = Some variants ->
  List.find (variantMatches (selectors c)) variants = Some v ->
  exists c',
    cards (handleVariantChange i st) !! i = Some c'
    /\ skuElement c'
       = (fun _ => if JS.truthy (Variant.sku v)
                   then "SKU: " +:+ default "" (Variant.sku v) else "") <$> skuElement c
    /\ imgElement c'
       = match Variant.featured_image v with
         | Some src => (fun _ => src) <$> imgElement c
         | None => imgElement c
         end
    /\ dataset_productImage c'
       = match imgElement c, Variant.featured_image v with
         | Some _, Some src => Some src
         | _, _ => dataset_productImage c
         end.
Proof.
  intros Hc Hs Hf. eexists. split; [apply (handleVariantChange_lookup _ _ _ _ _ Hc Hs Hf)|].
  destruct (applyAvailability_elements v (applyVariant (moneyFormatTemplate st) v c))
    as (-> & -> & ->).
  apply applyVariant_elements.
Qed.

Lemma variant_without_image_example :
  exists c',
    cards (handleVariantChange 0 (shirtComponent ["M"; "Red"])) !! 0%nat = Some c'
    /\ skuElement c' = Some ""
    /\ imgElement c' = Some "/s-red.png"
    /\ dataset_productImage c' = Some "/s-red.png".
Proof.
  destruct (variant_change_sku_and_image (shirtComponent ["M"; "Red"]) 0 _
              shirtVariants shirtMediumRed eq_refl eq_refl eq_refl)
    as (c' & Hc' & Hsku & Himg & Hattr).
  exists c'. repeat split; assumption.
Defined.

(** ** The checkbox change handler *)

(** X12: the change handler sets the selection flag from the checkbox and
    leaves the checkbox alone, also when the checkbox is disabled; handling
    the same change a second time changes nothing more. *)
Theorem handleCheckboxChange_sets_flag (i : nat) (st : t) :
  handleCheckboxChange i (handleCheckboxChange i st) = handleCheckboxChange i st
  /\ forall c cb,
       cards st !! i = Some c ->
       checkboxElement c = Some cb ->
       exists c',
         cards (handleCheckboxChange i st) !! i = Some c'
         /\ checkboxElement c' = Some cb
         /\ dataset_selected c' = Some (flagOf (checked cb))
         /\ inSync c'.
Proof.
  assert (Hstep : forall c cb,
             cards st !! i = Some c -> checkboxElement c = Some cb ->
             handleCheckboxChange i st
             = updateSubtotal
                 (set_cards
                    (<[i := set_dataset_selected c (Some (flagOf (checked cb)))]> (cards st))
                    st)).
  { intros c cb Hc Hcb. unfold handleCheckboxChange. now rewrite Hc, Hcb. }
  split.
  - destruct (cards st !! i) as [c|] eqn:Hc;
      [destruct (checkboxElement c) as [cb|] eqn:Hcb|].
    + rewrite (Hstep c cb eq_refl Hcb).
      set (c1 := set_dataset_selected c (Some (flagOf (checked cb)))).
      assert (Hc1 : cards (updateSubtotal (set_cards (<[i := c1]> (cards st)) st)) !! i
                    = Some c1).
      { rewrite updateSubtotal_cards. simpl.
        apply list_lookup_insert_eq. now apply lookup_lt_Some in Hc. }
      unfold handleCheckboxChange at 1. rewrite Hc1.
      assert (Hcb1 : checkboxElement c1 = Some cb) by (unfold c1; now destruct c).
      rewrite Hcb1, updateSubtotal_cards. simpl.
      rewrite list_insert_insert_eq, updateSubtotal_twice.
      now replace (set_dataset_selected c1 (Some (flagOf (checked cb)))) with c1
        by (unfold c1; now destruct c).
    + unfold handleCheckboxChange. rewrite Hc, Hcb. simpl. now rewrite Hc, Hcb.
    + unfold handleCheckboxChange. rewrite Hc. simpl. now rewrite Hc.
  - intros c cb Hc Hcb. rewrite (Hstep c cb Hc Hcb), updateSubtotal_cards. simpl.
    eexists. split; [apply list_lookup_insert_eq; now apply lookup_lt_Some in Hc|].
    unfold inSync. destruct c. simpl in *. subst. auto.
Qed.

Lemma checkbox_change_repairs_flag_example :
  exists c',
    cards (handleCheckboxChange 0 flagWithoutCheck) !! 0%nat = Some c'
    /\ dataset_selected c' = Some "false"
    /\ inSync c'.
Proof.
  destruct (proj2 (handleCheckboxChange_sets_flag 0 flagWithoutCheck) _ _ eq_refl eq_refl)
    as (c' & Hc' & _ & Hflag & Hsync).
  exists c'. repeat split; assumption.
Defined.

(** ** More on the subtotal *)

Lemma sumZ_Permutation (l l' : list Z) : Permutation l l' -> sumZ l = sumZ l'.
Proof.
  induction 1 as [|x l l' _ IH|x y l|l l' l'' _ IH1 _ IH2].
  - reflexivity.
  - now rewrite !sumZ_cons, IH.
  - rewrite !sumZ_cons. lia.
  - congruence.
Qed.

(** X13: the subtotal does not depend on the order of the cards, is the
    sum of the subtotals of any two parts the cards are split into, and is
    not changed by leaving out the cards that are not selected. *)
Theorem subtotal_ignores_order_and_unselected (l l' : list card) :
  (Permutation l l' -> subtotalOf l = subtotalOf l')
  /\ subtotalOf (l ++ l') = subtotalOf l + subtotalOf l'
  /\ subtotalOf (List.filter isSelected l) = subtotalOf l.
Proof.
  split; [|split].
  - intros Hp. rewrite !subtotalOf_contribution.
    apply sumZ_Permutation. now apply fmap_Permutation.
  - now rewrite !subtotalOf_contribution, fmap_app, sumZ_app.
  - rewrite !subtotalOf_sum. f_equal. f_equal.
    induction l as [|c l IH]; [reflexivity|].
    cbn [List.filter]. destruct (isSelected c) eqn:E; [|exact IH].
    cbn [List.filter]. now rewrite E, IH.
Qed.

Lemma subtotal_of_swapped_cards_example :
  subtotalOf (reverse (cards twoSelectedCards)) = subtotalOf (cards twoSelectedCards).
Proof.
  apply (proj1 (subtotal_ignores_order_and_unselected _ _)).
  apply reverse_Permutation.
Defined.

Lemma parseInt_toString_then (n : Z) (ch : ascii) (r : string) :
  JS.isDigit ch = false ->
  JS.parseInt (JS.toString n +:+ String ch r) = Some n.
Proof.
  intros Hch.
  assert (Hstop : forall acc, JS.readDigits (String ch r) acc = acc).
  { intros acc. simpl. unfold JS.isDigit in Hch. now destruct (JS.digitValue ch). }
  destruct (N_toString_digits (Z.abs_N n)) as (Hall & Hread & c & r0 & Hshape & Hc).
  unfold JS.toString. destruct (n <? 0) eqn:Hn.
  - apply Z.ltb_lt in Hn. rewrite string_app_cons. unfold JS.parseInt.
    cbn [JS.skipSpaces]. change (JS.isSpace "-") with false. cbv iota.
    change (Ascii.eqb "-" "-") with true. cbv iota.
    rewrite (readDigits_app _ _ _ Hall), Hstop, Hread. simpl. f_equal. lia.
  - apply Z.ltb_ge in Hn.
    assert (Hwhole : JS.readDigits (JS.N_toString (Z.abs_N n) +:+ String ch r) None
                     = Some (Z.abs_N n)).
    { now rewrite (readDigits_app _ _ _ Hall), Hstop. }
    rewrite Hshape, string_app_cons in *.
    rewrite (parseInt_digits c _ Hc), Hwhole. simpl. f_equal. lia.
Qed.

Lemma skipSpaces_app (ws s : string) :
  JS.skipSpaces ws = "" -> JS.skipSpaces (ws +:+ s) = JS.skipSpaces s.
Proof.
  induction ws as [|c ws IH]; [reflexivity|]. rewrite string_app_cons. simpl.
  destruct (JS.isSpace c); [exact IH | discriminate].
Qed.

Lemma parseInt_skips_spaces (ws s : string) :
  JS.skipSpaces ws = "" -> JS.parseInt (ws +:+ s) = JS.parseInt s.
Proof. intros H. unfold JS.parseInt. now rewrite (skipSpaces_app ws s H). Qed.

(** No number is read from a string that starts with something other than
    white space, a sign or a digit. *)
Lemma parseInt_no_number (ch : ascii) (r : string) :
  JS.isSpace ch = false -> JS.isDigit ch = false ->
  ch <> "-"%char -> ch <> "+"%char ->
  JS.parseInt (String ch r) = None.
Proof.
  intros Hs Hd Hm%Ascii.eqb_neq Hp%Ascii.eqb_neq.
  unfold JS.parseInt. cbn [JS.skipSpaces]. rewrite Hs, Hm, Hp. simpl.
  unfold JS.isDigit in Hd. now destruct (JS.digitValue ch).
Qed.

Lemma app_nonempty_r (a b : string) : b <> "" -> a +:+ b <> "".
Proof. destruct a; [trivial | discriminate]. Qed.

(** What one card adds to the total of [#updateSubtotal]. *)
Lemma subtotalOf_middle (before after : list card) (c : card) :
  subtotalOf (before ++ c :: after) = subtotalOf (before ++ after) + contribution c.
Proof.
  rewrite !subtotalOf_contribution, !fmap_app, fmap_cons, !sumZ_app, sumZ_cons. lia.
Qed.

(** X14: how [#updateSubtotal] reads the price attribute of a selected
    card.  After optional white space (a no-break space included), an
    integer followed by something that is not a digit (a decimal point, a
    unit) adds that integer to the total of the other cards, and the text
    written is the total formatted; a missing or empty attribute adds
    nothing, and neither does one that starts with anything but white
    space, a sign or a digit (a currency symbol, say). *)
Theorem price_attribute_reading (st : t) (before after : list card) (c : card) :
  cards st = before ++ c :: after ->
  isSelected c = true ->
  let shown total :=
    (fun _ => formatMoney (moneyFormatTemplate st) total) <$> subtotalElement st in
  (forall ws n ch r,
      dataset_price c = Some (ws +:+ JS.toString n +:+ String ch r) ->
      JS.skipSpaces ws = "" -> JS.isDigit ch = false ->
      subtotalOf (cards st) = subtotalOf (before ++ after) + n
      /\ subtotalElement (updateSubtotal st) = shown (subtotalOf (before ++ after) + n))
  /\ (dataset_price c = None \/ dataset_price c = Some "" ->
      subtotalOf (cards st) = subtotalOf (before ++ after)
      /\ subtotalElement (updateSubtotal st) = shown (subtotalOf (before ++ after)))
  /\ (forall ch r,
        dataset_price c = Some (String ch r) ->
        JS.isSpace ch = false -> JS.isDigit ch = false ->
        ch <> "-"%char -> ch <> "+"%char ->
        subtotalOf (cards st) = subtotalOf (before ++ after)
        /\ subtotalElement (updateSubtotal st) = shown (subtotalOf (before ++ after))).
Proof.
  intros Hcards Hsel shown.
  assert (Hsplit : subtotalOf (cards st) = subtotalOf (before ++ after) + priceOf c).
  { rewrite Hcards, subtotalOf_middle. unfold contribution. now rewrite Hsel. }
  assert (Htext : forall total, subtotalOf (cards st) = total ->
                    subtotalOf (cards st) = total
                    /\ subtotalElement (updateSubtotal st) = shown total).
  { intros total Htotal. split; [exact Htotal|].
    now rewrite updateSubtotal_text, Htotal. }
  split; [|split].
  - intros ws n ch r Hp Hws Hch. apply Htext. rewrite Hsplit. f_equal.
    unfold priceOf, JS.orElse. rewrite Hp.
    assert (Hne : ws +:+ JS.toString n +:+ String ch r <> "").
    { apply app_nonempty_r, app_nonempty_r. discriminate. }
    apply String.eqb_neq in Hne. rewrite Hne.
    now rewrite (parseInt_skips_spaces ws _ Hws), parseInt_toString_then.
  - intros H. apply Htext. rewrite Hsplit.
    replace (priceOf c) with 0; [lia|].
    unfold priceOf. destruct H as [-> | ->]; reflexivity.
  - intros ch r Hp Hs Hd Hm Hpl. apply Htext. rewrite Hsplit.
    replace (priceOf c) with 0; [lia|].
    unfold priceOf, JS.orElse. rewrite Hp. cbn [String.eqb].
    now rewrite parseInt_no_number.
Qed.

Lemma price_with_fraction_example :
  let cb := {| disabled := false; checked := true |} in
  let st := set_cards
              [plainCard (Some "true") (Some "41") (Some "1000") cb;
               plainCard (Some "true") (Some "42") (Some (String "160" "1999.99")) cb;
               plainCard (Some "true") (Some "43") (Some "$15.00") cb]
              twoSelectedCards in
  subtotalOf (cards st) = 2999
  /\ subtotalElement (updateSubtotal st) = Some "29.99".
Proof.
  intros cb st.
  exact (proj1 (price_attribute_reading st
                  [plainCard (Some "true") (Some "41") (Some "1000") cb]
                  [plainCard (Some "true") (Some "43") (Some "$15.00") cb]
                  (plainCard (Some "true") (Some "42") (Some (String "160" "1999.99")) cb)
                  eq_refl eq_refl)
           (String "160" "") 1999 "."%char "99" eq_refl eq_refl eq_refl).
Defined.

(** ** Confirm in general *)

(** X15: a confirm never changes the cards or the subtotal and never
    closes the dialog by itself.  With a non-empty payload it sends exactly
    one request, the POST of that payload; on a success status it marks the
    confirm button (if there is one) and sets one 2000 ms timeout, logging
    nothing; otherwise it logs one line, sets no timeout and leaves the
    button as it was. *)
Theorem confirm_in_general (outcome : Page.fetchOutcome) (st : t) (p : Page.t) :
  let st' := fst (Page.handleConfirm outcome st p) in
  let p' := snd (Page.handleConfirm outcome st p) in
  cards st' = cards st
  /\ subtotalElement st' = subtotalElement st
  /\ Page.dialogComponent p' = Page.dialogComponent p
  /\ Page.dispatched p' = Page.dispatched p
  /\ (confirmItems st <> [] ->
      Page.network p' = Page.network p ++ [Page.Post "/cart/add.js" (confirmItems st)]
      /\ confirmButton st'
         = (if Page.succeeded outcome then (fun _ => true) <$> confirmButton st
            else confirmButton st)
      /\ Page.timers p'
         = Page.timers p
             ++ (if Page.succeeded outcome then [(2000%N, Page.DispatchCartUpdate)] else [])
      /\ Page.console p'
         = Page.console p
             ++ (if Page.succeeded outcome then [] else ["Error adding to cart:"])).
Proof.
  unfold Page.handleConfirm.
  destruct (confirmItems st) as [|it items] eqn:Hitems.
  - simpl. repeat split; try reflexivity; congruence.
  - cbn [length Nat.eqb].
    destruct p as [tr dc cd bd ios tm fr co nw dp], st as [l fmt sub button].
    destruct outcome as [|status text]; simpl;
      [|destruct (Page.ok status); destruct button; simpl];
      repeat split; rewrite ?app_nil_r; reflexivity.
Qed.

Lemma confirm_rejected_example :
  let p' := snd (Page.handleConfirm Page.Rejected twoSelectedCards
                   (Page.examplePage None true None)) in
  Page.network p'
  = [Page.Post "/cart/add.js"
       [{| id := "41"; quantity := 1 |}; {| id := "42"; quantity := 1 |}]]
  /\ Page.timers p' = []
  /\ Page.console p' = ["Error adding to cart:"].
Proof.
  destruct (confirm_in_general Page.Rejected twoSelectedCards
              (Page.examplePage None true None)) as (_ & _ & _ & _ & H).
  destruct (H ltac:(discriminate)) as (Hnet & _ & Htimers & Hlog).
  split; [exact Hnet|]. split; [exact Htimers | exact Hlog].
Defined.

(** ** More on money formatting *)

Lemma isDigit_not_dot (c : ascii) : JS.isDigit c = true -> Ascii.eqb c "." = false.
Proof.
  intros H%isDigit_range. apply Ascii.eqb_neq. intros ->. simpl in H. lia.
Qed.

Lemma allDigits_no_dot (s : string) : JS.allDigits s = true -> hasChar "." s = false.
Proof.
  induction s as [|c s IH]; [reflexivity|]. simpl.
  intros [Hc Hs]%andb_true_iff. now rewrite (isDigit_not_dot c Hc), IH.
Qed.

Lemma hasChar_app (ch : ascii) (a b : string) :
  hasChar ch (a +:+ b) = hasChar ch a || hasChar ch b.
Proof.
  induction a as [|c a IH]; [reflexivity|].
  rewrite string_app_cons. simpl. now rewrite IH, orb_assoc.
Qed.

Lemma splitDot_no_dot (s : string) : hasChar "." s = false -> splitDot s = (s, None).
Proof.
  induction s as [|c s IH]; [reflexivity|]. simpl.
  intros [Hc Hs]%orb_false_iff. rewrite (IH Hs).
  destruct c as [[] [] [] [] [] [] [] []]; try reflexivity. discriminate.
Qed.

Lemma splitDot_at_dot (a b : string) :
  hasChar "." a = false -> hasChar "." b = false ->
  splitDot (a +:+ String "." b) = (a, Some b).
Proof.
  intros Ha Hb. induction a as [|c a IH].
  - change ("" +:+ String "." b) with (String "." b). simpl.
    now rewrite (splitDot_no_dot b Hb).
  - rewrite string_app_cons. simpl in *.
    apply orb_false_iff in Ha as [Hc Ha]. rewrite (IH Ha).
    destruct c as [[] [] [] [] [] [] [] []]; try reflexivity. discriminate.
Qed.

(** The sign and the whole units of an amount, and its two decimals. *)
Lemma sign_and_units_shape (cents : Z) (n : N) :
  hasChar "." ((if cents <? 0 then "-" else "") +:+ JS.N_toString n) = false
  /\ String.eqb ((if cents <? 0 then "-" else "") +:+ JS.N_toString n) "" = false.
Proof.
  destruct (N_toString_digits n) as (Hall & _ & c & r & Hshape & _).
  rewrite hasChar_app, (allDigits_no_dot _ Hall), Hshape.
  destruct (cents <? 0); split; reflexivity.
Qed.

Lemma two_digits_no_dot (a b : N) :
  (a < 10)%N -> (b < 10)%N ->
  hasChar "." (String (JS.digitChar a) (String (JS.digitChar b) "")) = false.
Proof.
  intros Ha Hb. simpl.
  now rewrite (isDigit_not_dot _ (isDigit_digitChar a Ha)),
    (isDigit_not_dot _ (isDigit_digitChar b Hb)).
Qed.

Lemma groupThousands_sign (sep : string) (cents : Z) (s : string) :
  groupThousands sep ((if cents <? 0 then "-" else "") +:+ s)
  = (if cents <? 0 then "-" else "") +:+ groupThousands sep s.
Proof. destruct (cents <? 0); reflexivity. Qed.

(** The callback on a two-decimal placeholder with the given separators. *)
Lemma format_two_decimals (cents : Z) (thousands decimal : string) :
  (let roundedNumber := JS.toFixed cents 2 in
   let '(a, b) := splitDot roundedNumber in
   let a := if String.eqb a "" then "0" else a in
   let b := default "" b in
   let a := groupThousands thousands a in
   a +:+ decimal +:+ JS.padEnd0 2 b)
  = (if cents <? 0 then "-" else "")
    +:+ groupThousands thousands
          (JS.N_toString (JS.quotientDigits (Z.abs_N cents) 2 / 100))
    +:+ decimal
    +:+ String (JS.digitChar ((JS.quotientDigits (Z.abs_N cents) 2 / 10) mod 10))
          (String (JS.digitChar (JS.quotientDigits (Z.abs_N cents) 2 mod 10)) "").
Proof.
  cbv zeta. rewrite toFixed_digits.
  set (n := JS.quotientDigits (Z.abs_N cents) 2).
  set (dd := String (JS.digitChar ((n / 10) mod 10)) (String (JS.digitChar (n mod 10)) "")).
  destruct (sign_and_units_shape cents (n / 100)) as [Hdot Hne].
  assert (Hdd : hasChar "." dd = false).
  { apply two_digits_no_dot; apply N.mod_lt; lia. }
  rewrite <- string_app_assoc.
  change ("." +:+ dd) with (String "." dd).
  rewrite (splitDot_at_dot _ _ Hdot Hdd), Hne. simpl default.
  rewrite groupThousands_sign, string_app_assoc.
  unfold JS.padEnd0. simpl replicate.
  change (String.concat "" []) with "". now rewrite string_app_nil_r.
Qed.

(** The callback on a placeholder without decimals. *)
Lemma format_no_decimals (cents : Z) (thousands : string) :
  (let roundedNumber := JS.toFixed cents 0 in
   let '(a, b) := splitDot roundedNumber in
   let a := if String.eqb a "" then "0" else a in
   groupThousands thousands a)
  = (if cents <? 0 then "-" else "")
    +:+ groupThousands thousands (JS.N_toString ((Z.abs_N cents + 50) / 100)).
Proof.
  cbv zeta. unfold JS.toFixed. cbn [Nat.eqb].
  rewrite quotientDigits_0.
  set (n := Z.abs_N cents).
  destruct (sign_and_units_shape cents ((n + 50) / 100)) as [Hdot Hne].
  rewrite (splitDot_no_dot _ Hdot), Hne. apply groupThousands_sign.
Qed.

Lemma replaceFrom_step (f : string -> string) (c : ascii) (r : string) :
  replaceFrom f 0 (String c r)
  = match placeholderAt (String c r) with
    | Some (name, rest) =>
        f name +:+ replaceFrom f (String.length r - String.length rest) r
    | None => String c (replaceFrom f 0 r)
    end.
Proof. reflexivity. Qed.

Lemma replaceFrom_skip_all (f : string -> string) (s : string) (k : nat) :
  (String.length s <= k)%nat -> replaceFrom f k s = "".
Proof.
  revert k. induction s as [|c s IH]; intros k Hk; [reflexivity|].
  destruct k as [|k]; [simpl in Hk; lia|].
  cbn [replaceFrom]. apply IH. simpl in Hk. lia.
Qed.

Lemma replace_amount (f : string -> string) :
  replacePlaceholders f "{{amount}}" = f "amount"
  /\ replacePlaceholders f "{{amount_no_decimals}}" = f "amount_no_decimals"
  /\ replacePlaceholders f "${{amount}}" = String "$" (f "amount").
Proof.
  assert (H1 : placeholderAt "{{amount}}" = Some ("amount", "")) by reflexivity.
  assert (H2 : placeholderAt "{{amount_no_decimals}}" = Some ("amount_no_decimals", ""))
    by reflexivity.
  assert (H3 : placeholderAt "${{amount}}" = None) by reflexivity.
  unfold replacePlaceholders. repeat split.
  - rewrite replaceFrom_step, H1, replaceFrom_skip_all by (simpl; lia).
    apply string_app_nil_r.
  - rewrite replaceFrom_step, H2, replaceFrom_skip_all by (simpl; lia).
    apply string_app_nil_r.
  - rewrite replaceFrom_step, H3, replaceFrom_step, H1, replaceFrom_skip_all
      by (simpl; lia).
    now rewrite string_app_nil_r.
Qed.

Lemma digitRun_allDigits (s : string) :
  JS.allDigits s = true -> digitRun s = String.length s.
Proof.
  induction s as [|c s IH]; [reflexivity|]. simpl.
  intros [Hc Hs]%andb_true_iff. now rewrite Hc, (IH Hs).
Qed.

Lemma digitRun_app (s t : string) :
  JS.allDigits s = true -> digitRun (s +:+ t) = (String.length s + digitRun t)%nat.
Proof.
  induction s as [|c s IH]; [reflexivity|]. rewrite string_app_cons. simpl.
  intros [Hc Hs]%andb_true_iff. now rewrite Hc, (IH Hs).
Qed.

(** Up to three digits are left as they are. *)
Lemma groupThousands_short (sep s : string) :
  JS.allDigits s = true -> (String.length s <= 3)%nat -> groupThousands sep s = s.
Proof.
  induction s as [|c s IH]; [reflexivity|]. simpl JS.allDigits. simpl String.length.
  intros [Hc Hs]%andb_true_iff Hlen. cbn [groupThousands].
  rewrite (digitRun_allDigits s Hs), IH by (assumption || lia).
  destruct (String.length s) as [|[|[|k]]]; [| | |lia]; now rewrite Hc.
Qed.

(** Three more digits at the end put one more separator in front of them. *)
Lemma groupThousands_app3 (sep s t : string) :
  s <> "" ->
  JS.allDigits s = true -> JS.allDigits t = true -> String.length t = 3%nat ->
  groupThousands sep (s +:+ t) = groupThousands sep s +:+ sep +:+ t.
Proof.
  intros Hne Hs Ht Hlen.
  induction s as [|c s IH]; [congruence|]. clear Hne.
  simpl in Hs. apply andb_true_iff in Hs as [Hc Hs].
  rewrite string_app_cons. cbn [groupThousands].
  rewrite (digitRun_app s t Hs), (digitRun_allDigits t Ht), Hlen,
    (digitRun_allDigits s Hs), Hc.
  destruct s as [|c' s].
  - change ("" +:+ t) with t. rewrite (groupThousands_short sep t Ht) by lia.
    simpl. now rewrite string_app_cons.
  - rewrite (IH ltac:(discriminate) Hs).
    replace ((String.length (String c' s) + 3) mod 3)%nat
      with (String.length (String c' s) mod 3)%nat
      by (rewrite <- (Nat.Div0.add_mod_idemp_r _ 3 3); now rewrite Nat.add_0_r).
    simpl String.length. cbn [andb Nat.ltb Nat.leb].
    destruct (_ =? 0)%nat; rewrite !string_app_cons, ?string_app_assoc; reflexivity.
Qed.

Lemma N_toString_thousands (n : N) :
  (1000 <= n)%N ->
  JS.N_toString n
  = JS.N_toString (n / 1000)
    +:+ String (JS.digitChar ((n / 100) mod 10))
          (String (JS.digitChar ((n / 10) mod 10)) (String (JS.digitChar (n mod 10)) "")).
Proof.
  intros Hn.
  assert (H0 : (100 <= n / 10)%N) by (apply N.div_le_lower_bound; lia).
  assert (H1 : (10 <= n / 10)%N) by lia.
  assert (H2 : (10 <= n / 10 / 10)%N) by (apply N.div_le_lower_bound; lia).
  rewrite (N_toString_step n) by lia.
  rewrite (N_toString_step (n / 10) H1), (N_toString_step (n / 10 / 10) H2).
  rewrite !N.Div0.div_div. change (10 * 10 * 10)%N with 1000%N.
  change (10 * 10)%N with 100%N.
  now rewrite !string_app_assoc.
Qed.

Lemma N_toString_below_1000 (n : N) :
  (n < 1000)%N -> (String.length (JS.N_toString n) <= 3)%nat.
Proof.
  intros Hn.
  destruct (N.lt_ge_cases n 10) as [H10|H10];
    [rewrite (N_toString_small n H10); simpl; lia|].
  rewrite (N_toString_step n H10), string_length_app.
  destruct (N.lt_ge_cases (n / 10) 10) as [H100|H100];
    [rewrite (N_toString_small _ H100); simpl; lia|].
  rewrite (N_toString_step _ H100), string_length_app.
  assert (Hq : (n / 10 / 10 < 10)%N).
  { rewrite N.Div0.div_div. apply N.Div0.div_lt_upper_bound. lia. }
  rewrite (N_toString_small _ Hq). simpl. lia.
Qed.

(** The regular expression of [#formatMoney] groups the digits of a number
    in threes from the right. *)
Lemma groupThousands_groupsOfThree (sep : string) (fuel : nat) (n : N) :
  (n < 2 ^ N.of_nat fuel)%N ->
  groupThousands sep (JS.N_toString n) = groupsOfThree fuel sep n.
Proof.
  revert n. induction fuel as [|fuel IH]; intros n Hn.
  - simpl in Hn. apply groupThousands_short; [apply N_toString_digits|].
    apply N_toString_below_1000. lia.
  - cbn [groupsOfThree]. destruct (N.ltb_spec n 1000) as [Hlt|Hge].
    + apply groupThousands_short; [apply N_toString_digits|].
      now apply N_toString_below_1000.
    + rewrite (N_toString_thousands n Hge).
      destruct (N_toString_digits (n / 1000)) as (Hall & _ & c & r & Hshape & _).
      rewrite groupThousands_app3.
      * rewrite IH; [reflexivity|].
        apply N.Div0.div_lt_upper_bound.
        rewrite Nat2N.inj_succ, N.pow_succ_r' in Hn. lia.
      * rewrite Hshape. discriminate.
      * exact Hall.
      * simpl. rewrite !isDigit_digitChar; [reflexivity|apply N.mod_lt; lia..].
      * reflexivity.
Qed.

Lemma groupThousands_grouped (sep : string) (n : N) :
  groupThousands sep (JS.N_toString n) = grouped sep n.
Proof. apply groupThousands_groupsOfThree, enough_log2. Qed.

(** X16: with the default template [{{amount}}], which is also what an
    empty template element stands for, an amount below 2^46 * 100 cents in
    magnitude is rendered as a minus sign if it is negative, the whole
    units in groups of three digits with commas between them, a point and
    the two digits of the cents. *)
Theorem formatMoney_default_template (cents : Z) :
  Z.abs cents < 100 * 2 ^ 46 ->
  formatMoney (Some "{{amount}}") cents
  = (if cents <? 0 then "-" else "")
    +:+ grouped "," (Z.abs_N cents / 100)
    +:+ "."
    +:+ String (JS.digitChar ((Z.abs_N cents / 10) mod 10))
          (String (JS.digitChar (Z.abs_N cents mod 10)) "")
  /\ formatMoney (Some "") cents = formatMoney (Some "{{amount}}") cents.
Proof.
  intros Hcents. split; [|reflexivity].
  unfold formatMoney. change (JS.orElse (Some "{{amount}}") "{{amount}}") with "{{amount}}".
  rewrite (proj1 (replace_amount _)).
  change (formatAmount cents "amount")
    with (let roundedNumber := JS.toFixed cents 2 in
          let '(a, b) := splitDot roundedNumber in
          let a := if String.eqb a "" then "0" else a in
          let b := default "" b in
          let a := groupThousands "," a in
          a +:+ "." +:+ JS.padEnd0 2 b).
  rewrite (format_two_decimals cents "," "."),
    (quotientDigits_2 _ (abs_N_below cents Hcents)).
  now rewrite groupThousands_grouped.
Qed.

Lemma formatMoney_default_template_example :
  formatMoney (Some "{{amount}}") (-123456789) = "-1,234,567.89"
  /\ formatMoney (Some "") 100000 = "1,000.00".
Proof.
  split.
  - exact (proj1 (formatMoney_default_template (-123456789) ltac:(vm_compute; reflexivity))).
  - rewrite (proj2 (formatMoney_default_template 100000 ltac:(vm_compute; reflexivity))).
    exact (proj1 (formatMoney_default_template 100000 ltac:(vm_compute; reflexivity))).
Defined.

(** X17: with [{{amount_no_decimals}}] the amount is rounded to whole
    units, halves away from zero, and the sign is that of the amount before
    rounding: an amount between minus 50 cents and zero is rendered
    ["-0"]. *)
Theorem formatMoney_no_decimals (cents : Z) :
  formatMoney (Some "{{amount_no_decimals}}") cents
  = (if cents <? 0 then "-" else "")
    +:+ groupThousands "," (JS.N_toString ((Z.abs_N cents + 50) / 100))
  /\ (-50 < cents < 0 -> formatMoney (Some "{{amount_no_decimals}}") cents = "-0").
Proof.
  assert (H : formatMoney (Some "{{amount_no_decimals}}") cents
              = (if cents <? 0 then "-" else "")
                +:+ groupThousands "," (JS.N_toString ((Z.abs_N cents + 50) / 100))).
  { unfold formatMoney.
    change (JS.orElse (Some "{{amount_no_decimals}}") "{{amount}}")
      with "{{amount_no_decimals}}".
    rewrite (proj1 (proj2 (replace_amount _))).
    exact (format_no_decimals cents ","). }
  split; [exact H|].
  intros Hrange. rewrite H.
  replace (cents <? 0) with true by (symmetry; apply Z.ltb_lt; lia).
  rewrite (N.div_small (Z.abs_N cents + 50) 100) by lia. reflexivity.
Qed.

Lemma formatMoney_minus_zero_example :
  formatMoney (Some "{{amount_no_decimals}}") (-49) = "-0".
Proof. apply (proj2 (formatMoney_no_decimals (-49))). lia. Defined.

Lemma placeholderAt_other (c : ascii) (r : string) :
  Ascii.eqb c "{" = false -> placeholderAt (String c r) = None.
Proof.
  destruct c as [[] [] [] [] [] [] [] []]; try reflexivity. discriminate.
Qed.

Lemma replaceFrom_verbatim (f : string -> string) (s : string) :
  hasChar "{" s = false -> replaceFrom f 0 s = s.
Proof.
  induction s as [|c s IH]; [reflexivity|]. simpl hasChar.
  intros [Hc Hs]%orb_false_iff. cbn [replaceFrom].
  now rewrite (placeholderAt_other c s Hc), (IH Hs).
Qed.

(** X18: a template without an opening brace is returned as it is: no
    amount appears in the result, whatever the amount. *)
Theorem formatMoney_template_without_placeholder (template : string) (cents : Z) :
  template <> "" ->
  hasChar "{" template = false ->
  formatMoney (Some template) cents = template.
Proof.
  intros Hne Hno. apply String.eqb_neq in Hne.
  unfold formatMoney, JS.orElse. rewrite Hne.
  now apply replaceFrom_verbatim.
Qed.

Lemma formatMoney_without_placeholder_example :
  formatMoney (Some "amount USD") 2500 = "amount USD".
Proof.
  apply formatMoney_template_without_placeholder; [discriminate | reflexivity].
Defined.

Lemma removeChar_separator (ch : ascii) (s : string) :
  removeChar ch (String ch "" +:+ s) = removeChar ch s.
Proof.
  change (String ch "" +:+ s) with (String ch s). simpl. now rewrite Ascii.eqb_refl.
Qed.

(** X19: grouping only inserts separators.  Removing a one-character
    separator from the grouped string gives back the string that was
    grouped, provided the separator does not occur in it. *)
Theorem groupThousands_only_inserts (ch : ascii) (a : string) :
  hasChar ch a = false ->
  removeChar ch (groupThousands (String ch "") a) = a.
Proof.
  induction a as [|c a IH]; [reflexivity|]. simpl hasChar.
  intros [Hc Ha]%orb_false_iff. cbn [groupThousands].
  destruct (JS.isDigit c && (0 <? digitRun a)%nat && (digitRun a mod 3 =? 0)%nat);
    cbn [removeChar]; rewrite Hc, ?removeChar_separator, (IH Ha); reflexivity.
Qed.

Lemma groupThousands_example :
  groupThousands "," "1234567" = "1,234,567"
  /\ removeChar "," (groupThousands "," "1234567") = "1234567".
Proof.
  split; [reflexivity|]. now apply groupThousands_only_inserts.
Defined.



(** ** More on toggling *)

(** X21: a click on a card with an enabled checkbox goes by the checkbox,
    not by the flag: afterwards the card is flagged selected exactly when
    the checkbox was unchecked before, and the rendered subtotal is the sum
    over the other selected cards, plus this card's price in that case. *)
Theorem card_click_follows_checkbox (st : t) (i : nat) (c : card) (cb : checkbox) :
  cards st !! i = Some c ->
  checkboxElement c = Some cb ->
  disabled cb = false ->
  let st' := handleCardClick Elsewhere i st in
  (exists c',
      cards st' !! i = Some c'
      /\ checkboxElement c' = Some {| disabled := false; checked := negb (checked cb) |}
      /\ isSelected c' = negb (checked cb)
      /\ dataset_price c' = dataset_price c)
  /\ subtotalElement st'
     = (fun _ => formatMoney (moneyFormatTemplate st)
                   (sumZ (priceOf <$> List.filter isSelected (delete i (cards st)))
                    + (if checked cb then 0 else priceOf c)))
         <$> subtotalElement st.
Proof.
  intros Hc Hcb Hdis st'. unfold st'.
  rewrite (handleCardClick_enabled _ _ _ _ Hc Hcb Hdis).
  assert (Hsel : isSelected (toggled c cb) = negb (checked cb)).
  { unfold isSelected, toggled. destruct c, cb as [d []]; reflexivity. }
  assert (Hprice : priceOf (toggled c cb) = priceOf c).
  { unfold priceOf, toggled. now destruct c. }
  split.
  - exists (toggled c cb). rewrite updateSubtotal_cards. simpl.
    split; [apply list_lookup_insert_eq; now apply lookup_lt_Some in Hc|].
    split; [|split; [exact Hsel|]].
    + destruct c, cb. simpl in *. now subst.
    + unfold toggled. now destruct c.
  - rewrite updateSubtotal_text. simpl.
    rewrite subtotalOf_contribution, (sum_contribution_insert _ _ _ _ Hc).
    rewrite sum_selected_contribution, (sum_contribution_delete _ _ _ Hc).
    assert (Hcontrib : contribution (toggled c cb) = if checked cb then 0 else priceOf c).
    { unfold contribution. rewrite Hsel, Hprice. now destruct (checked cb). }
    now rewrite Hcontrib.
Qed.

Lemma card_click_on_flag_without_check_example :
  subtotalElement (handleCardClick Elsewhere 0 flagWithoutCheck) = Some "10.00"
  /\ subtotalElement (handleCardClick Elsewhere 0 twoSelectedCards) = Some "15.00".
Proof.
  split.
  - exact (proj2 (card_click_follows_checkbox flagWithoutCheck 0 _ _
                    eq_refl eq_refl eq_refl)).
  - exact (proj2 (card_click_follows_checkbox twoSelectedCards 0 _ _
                    eq_refl eq_refl eq_refl)).
Defined.

(** X22: whatever state a card with an enabled checkbox starts in, three
    clicks on it leave the component as one click does: after the first
    click, two further clicks cancel. *)
Theorem three_clicks_are_one (st : t) (i : nat) (c : card) (cb : checkbox) :
  cards st !! i = Some c ->
  checkboxElement c = Some cb ->
  disabled cb = false ->
  handleCardClick Elsewhere i
    (handleCardClick Elsewhere i (handleCardClick Elsewhere i st))
  = handleCardClick Elsewhere i st.
Proof.
  intros Hc Hcb Hdis.
  set (st1 := handleCardClick Elsewhere i st).
  assert (Hc1 : cards st1 !! i = Some (toggled c cb)).
  { unfold st1. rewrite (handleCardClick_enabled _ _ _ _ Hc Hcb Hdis), updateSubtotal_cards.
    simpl. apply list_lookup_insert_eq. now apply lookup_lt_Some in Hc. }
  apply (handleCardClick_twice st1 i (toggled c cb)
           {| disabled := disabled cb; checked := negb (checked cb) |}).
  - unfold st1. rewrite (handleCardClick_enabled _ _ _ _ Hc Hcb Hdis).
    apply updateSubtotal_upToDate.
  - exact Hc1.
  - unfold toggled. now destruct c.
  - exact Hdis.
  - apply toggled_inSync.
Qed.

Lemma three_clicks_example :
  handleCardClick Elsewhere 0
    (handleCardClick Elsewhere 0 (handleCardClick Elsewhere 0 flagWithoutCheck))
  = handleCardClick Elsewhere 0 flagWithoutCheck.
Proof.
  exact (three_clicks_are_one flagWithoutCheck 0 _ _ eq_refl eq_refl eq_refl).
Defined.

(** X23: on a card that carries both listeners and whose checkbox is
    enabled, toggling the checkbox itself has the effect of a click
    elsewhere in the card. *)
Theorem checkbox_toggle_is_card_click (st : t) (i : nat) :
  hasClickListener i st = true ->
  hasChangeListener i st = true ->
  isEnabled i st = true ->
  dispatch (ToggleCheckbox i) st = dispatch (ClickCard i Elsewhere) st.
Proof.
  intros Hclick Hchange Hen. cbn [dispatch]. rewrite Hen, Hclick.
  assert (Hl : hasClickListener i (flipCheckbox i st) = true
               /\ hasChangeListener i (flipCheckbox i st) = true).
  { apply listeners_lookup. rewrite flipCheckbox_listeners, list_lookup_fmap.
    unfold hasClickListener, hasChangeListener in Hclick, Hchange.
    destruct (cards st !! i) as [c|]; [|discriminate].
    unfold listenersOf. simpl. now rewrite Hclick, Hchange. }
  destruct Hl as [-> Hchange1].
  change (handleCardClick OnCheckbox i (flipCheckbox i st)) with (flipCheckbox i st).
  rewrite Hchange1.
  unfold isEnabled in Hen.
  destruct (cards st !! i) as [c|] eqn:Hc; [|discriminate].
  destruct (checkboxElement c) as [cb|] eqn:Hcb; [|discriminate].
  apply (checkbox_change_is_card_click st i c cb Hc Hcb).
  now destruct (disabled cb).
Qed.

Lemma checkbox_toggle_example :
  dispatch (ToggleCheckbox 1) (run [] twoSelectedCards)
  = dispatch (ClickCard 1 Elsewhere) (run [] twoSelectedCards).
Proof.
  exact (checkbox_toggle_is_card_click (run [] twoSelectedCards) 1
           eq_refl eq_refl eq_refl).
Defined.

(** What [closeDialog] leaves alone, and what it does to the dialog and to
    the trigger. *)
Lemma closeDialog_frame (q : Page.t) (d : Page.dialogElement) :
  Page.dialogComponent q = Some d ->
  Page.contentDiv (Page.closeDialog q) = Page.contentDiv q
  /\ Page.network (Page.closeDialog q) = Page.network q
  /\ Page.console (Page.closeDialog q) = Page.console q
  /\ Page.timers (Page.closeDialog q) = Page.timers q
  /\ Page.open <$> Page.dialogComponent (Page.closeDialog q) = Some false
  /\ (Page.stayVisibleListener d = true ->
      Page.stayVisible (Page.trigger (Page.closeDialog q)) = false).
Proof.
  intros Hd. destruct q as [tr dc cd bd ios tm fr co nw dp], d as [o l1 l2 l3].
  simpl in Hd. subst dc.
  unfold Page.closeDialog, Page.dialogCloseEvent, Page.handleDialogClose. simpl.
  destruct l2, l3, ios as [[ma mi]|]; simpl; try destruct (_ || _); simpl;
    repeat split; intros; congruence.
Qed.

(** X24: the close button after the trigger has opened the dialog: the
    dialog is closed and the trigger loses [stay-visible], while the
    fragment (or the failure message) stays in the content host, and no
    request is sent, no line logged and no timeout set.  Nothing is cached:
    the next opening requests the fragment again, whatever was loaded. *)
Theorem close_button_keeps_fragment (p : Page.t) (handle : string)
    (outcome : Page.fetchOutcome) (d : Page.dialogElement) (html0 : string) :
  Page.dialogComponent p = Some d ->
  Page.contentDiv p = Some html0 ->
  let opened := Page.fetchAndOpenModal handle outcome p in
  let closed := Page.handleClose opened in
  Page.open <$> Page.dialogComponent closed = Some false
  /\ Page.stayVisible (Page.trigger closed) = false
  /\ Page.contentDiv closed = Page.contentDiv opened
  /\ Page.network closed = Page.network opened
  /\ Page.console closed = Page.console opened
  /\ Page.timers closed = Page.timers opened
  /\ forall handle' outcome',
       Page.network (Page.fetchAndOpenModal handle' outcome' closed)
       = Page.network opened
         ++ [Page.Get ("/products/" +:+ handle' +:+ "?section_id=upsell-modal-products")].
Proof.
  intros Hd Hc opened closed.
  destruct (fetchAndOpenModal_stay_visible p handle outcome d html0 Hd Hc) as [_ Hdlg].
  fold opened in Hdlg.
  assert (Hclosed : closed = Page.closeDialog opened).
  { unfold closed, Page.handleClose. now rewrite Hdlg. }
  destruct (closeDialog_frame opened _ Hdlg) as (Hcd & Hnw & Hco & Htm & Hopen & Hst).
  rewrite Hclosed.
  split; [exact Hopen|]. split; [now apply Hst|].
  split; [exact Hcd|]. split; [exact Hnw|]. split; [exact Hco|]. split; [exact Htm|].
  intros handle' outcome'.
  assert (Hcontent : exists html, Page.contentDiv opened = Some html).
  { unfold opened, Page.fetchAndOpenModal. rewrite Hd, Hc.
    destruct p as [tr dc cd bd ios tm fr co nw dp]. simpl in Hd, Hc. subst.
    destruct outcome as [|status [html|]]; eexists; reflexivity. }
  destruct Hcontent as [html Hhtml].
  destruct (Page.dialogComponent (Page.closeDialog opened)) as [d'|] eqn:Hd';
    [|discriminate].
  rewrite <- Hcd in Hhtml.
  rewrite (proj2 (fetchAndOpenModal_opens _ handle' outcome' d' html Hd' Hhtml)).
  now rewrite Hnw.
Qed.

Lemma close_button_example :
  let opened := Page.fetchAndOpenModal "shirt" (Page.Response 200 (Some "<div></div>"))
                  (Page.examplePage (Some {| Page.major := 16; Page.minor := 3 |}) false None) in
  Page.open <$> Page.dialogComponent (Page.handleClose opened) = Some false
  /\ Page.contentDiv (Page.handleClose opened) = Some "<div></div>".
Proof.
  destruct (close_button_keeps_fragment
              (Page.examplePage (Some {| Page.major := 16; Page.minor := 3 |}) false None)
              "shirt" (Page.Response 200 (Some "<div></div>")) _ "" eq_refl eq_refl)
    as (H1 & _ & H3 & _).
  split; [exact H1 | exact H3].
Defined.
